(** * logpool: a grouped task pool with a leveled logger

    A shallow embedding of [src/logpool/log.py] (module [LogPool]) and of
    the legacy top-level module [src/log.py] (module [Legacy]), with the
    properties of the natural-language specification stated over it.

    Python objects live in an explicit store: [ControlThreads] instances
    are addressed by a number, futures by their index in the future table,
    files by their path.  The clock, thread identifiers and caller frames
    are inputs of the calls that read them. *)

From Stdlib Require Import Ascii.
From stdpp Require Import gmap strings list fin_maps pretty.

Open Scope string_scope.
Open Scope list_scope.
Open Scope Z_scope.

(** ** Python values, exceptions and outcomes *)

(** One entry of a traceback chain: [tb.tb_frame.f_code.co_filename],
    [tb.tb_frame.f_code.co_name] and [tb.tb_lineno]. *)
Record Frame := mkFrame {
  co_filename : string;
  co_name : string;
  tb_lineno : Z
}.

(** An exception object: [type(e).__name__], [str(e)] and the chain
    reached from [e.__traceback__] through [tb_next]. *)
Record PyErr := mkErr {
  exc_type : string;
  exc_msg : string;
  exc_traceback : list Frame
}.

Inductive Value :=
| VNone
| VBool (b : bool)
| VInt (z : Z)
| VStr (s : string)
| VFuture (fid : nat).

(** The objects whose truth value the logger tests. *)
Inductive PyObj :=
| PyBool (b : bool)
| PyTuple (items : list bool).

(** Python truthiness: a tuple is true exactly when it is not empty. *)
Definition truthy (v : PyObj) : bool :=
  match v with
  | PyBool b => b
  | PyTuple [] => false
  | PyTuple (_ :: _) => true
  end.

Inductive Outcome (A : Type) :=
| Ok (a : A)
| Raise (e : PyErr).
Arguments Ok {A} a.
Arguments Raise {A} e.

Definition KeyError (key : string) : PyErr :=
  mkErr "KeyError" ("'" +:+ key +:+ "'") [].
Definition ValueError (msg : string) : PyErr := mkErr "ValueError" msg [].
Definition RuntimeError (msg : string) : PyErr := mkErr "RuntimeError" msg [].
Definition TypeError (msg : string) : PyErr := mkErr "TypeError" msg [].
Definition Exception_ (msg : string) : PyErr := mkErr "Exception" msg [].

(** ** Strings *)

Definition newline : string := String (Ascii.ascii_of_nat 10) "".

(** [os.path.basename]: what follows the last slash. *)
Fixpoint basename_go (acc p : string) : string :=
  match p with
  | "" => acc
  | String c p' =>
      if Ascii.eqb c "/"%char then basename_go p' p' else basename_go acc p'
  end.
Definition basename (p : string) : string := basename_go p p.

(** [sub] occurs in [s]. *)
Definition contains (sub s : string) : Prop :=
  exists pre post, s = pre +:+ sub +:+ post.

(** [p] is a prefix of [s]. *)
Fixpoint starts_with (p s : string) : bool :=
  match p, s with
  | "", _ => true
  | String a p', String b s' => Ascii.eqb a b && starts_with p' s'
  | String _ _, "" => false
  end.

(** [sub in s], as Python decides it. *)
Fixpoint occurs (sub s : string) : bool :=
  starts_with sub s
  || match s with
     | "" => false
     | String _ s' => occurs sub s'
     end.

(** [readlines] of a file opened for reading in text mode: a line ends at
    a line feed, at a carriage return, or at a carriage return followed by
    a line feed, and each of the three is read as one line feed.  [cur]
    holds the current line, last character first. *)
Fixpoint readlines_go (cur : string) (s : string) : list string :=
  match s with
  | "" => match cur with "" => [] | _ => [String.rev cur] end
  | String c s' =>
      if Ascii.eqb c (Ascii.ascii_of_nat 10)
      then String.rev (String c cur) :: readlines_go "" s'
      else if Ascii.eqb c (Ascii.ascii_of_nat 13)
      then String.rev (String (Ascii.ascii_of_nat 10) cur)
             :: match s' with
                | String c' s'' =>
                    if Ascii.eqb c' (Ascii.ascii_of_nat 10)
                    then readlines_go "" s''
                    else readlines_go "" s'
                | "" => readlines_go "" s'
                end
      else readlines_go (String c cur) s'
  end.

(** Every character of [s] satisfies [p]. *)
Fixpoint every_char (p : ascii -> bool) (s : string) : bool :=
  match s with
  | "" => true
  | String c s' => p c && every_char p s'
  end.

(** Neither a line feed nor a carriage return occurs in [s]. *)
Definition no_line_break (s : string) : bool :=
  every_char (fun c => negb (Ascii.eqb c (Ascii.ascii_of_nat 10))
                       && negb (Ascii.eqb c (Ascii.ascii_of_nat 13))) s.

Definition no_slash (s : string) : bool :=
  every_char (fun c => negb (Ascii.eqb c "/"%char)) s.

(** A text file made of whole lines: empty, or ending in a line feed. *)
Definition whole_lines (text : string) : Prop :=
  text = "" \/ exists t, text = t +:+ newline.

(** The lines as a file holds them, each with its line feed. *)
Fixpoint file_text (lines : list string) : string :=
  match lines with
  | [] => ""
  | l :: rest => l +:+ newline +:+ file_text rest
  end.

(** ** The executor and its futures ([concurrent.futures]) *)

Inductive FState := PENDING | RUNNING | FINISHED.

(** The only function the pool registers with [add_done_callback]. *)
Inductive DoneCallback := worker_callbacks_fn.

(** A future.  [fut_work] is what the submitted call of [fn] on its
    arguments does once a worker runs it; [fut_remote] records that it runs in a
    worker process, whose exceptions come back without traceback. *)
Record Future := mkFuture {
  fut_work : Outcome Value;
  fut_remote : bool;
  fut_state : FState;
  fut_result : option Value;
  fut_exception : option PyErr;
  fut_callbacks : list DoneCallback
}.

(** [Future.done()]. *)
Definition done (f : Future) : bool :=
  match fut_state f with
  | FINISHED => true
  | _ => false
  end.

Record Executor := mkExecutor {
  ex_process : bool;
  ex_max_workers : Z;
  ex_shutdown : bool
}.

(** [ThreadPoolExecutor(max_workers)] and [ProcessPoolExecutor(max_workers)]
    both reject a worker count that is not positive.  The limit a platform
    puts on the number of worker processes is not part of the model. *)
Definition new_executor (process : bool) (max_workers : Z) : Outcome Executor :=
  if decide (max_workers <= 0)
  then Raise (ValueError "max_workers must be greater than 0")
  else Ok (mkExecutor process max_workers false).

(** ** The clock, the thread and the caller of a logging call *)

Record CallCtx := mkCtx {
  now : string;              (* datetime.now() formatted DD/MM/YYYY HH:MM:SS *)
  native_id : Z;             (* threading.current_thread().native_id *)
  caller_filename : string;  (* co_filename two frames above wlog *)
  caller_function : string   (* co_name two frames above wlog *)
}.

(** ** The package module, [src/logpool/log.py] *)

Module LogPool.

(** An instance of [ControlThreads].  [tasks] maps a group name to the
    futures submitted under it, in order.  The [Lock] guards the file
    append of [wlog]; calls are atomic here, so it has no field. *)
Record ControlThreads := mkControlThreads {
  tasks : gmap string (list nat);
  log_file : option string;
  workers : Z;
  print_log : bool;
  debug_mode : bool;
  use_process_pool : bool;
  simple_log : PyObj;
  callback : option nat;
  keep_in_memory : bool;
  memory : list string;
  executor : Executor
}.

Definition set_tasks (v : gmap string (list nat)) (o : ControlThreads) :=
  mkControlThreads v (log_file o) (workers o) (print_log o) (debug_mode o)
    (use_process_pool o) (simple_log o) (callback o) (keep_in_memory o)
    (memory o) (executor o).
Definition set_log_file (v : option string) (o : ControlThreads) :=
  mkControlThreads (tasks o) v (workers o) (print_log o) (debug_mode o)
    (use_process_pool o) (simple_log o) (callback o) (keep_in_memory o)
    (memory o) (executor o).
Definition set_workers (v : Z) (o : ControlThreads) :=
  mkControlThreads (tasks o) (log_file o) v (print_log o) (debug_mode o)
    (use_process_pool o) (simple_log o) (callback o) (keep_in_memory o)
    (memory o) (executor o).
Definition set_print_log (v : bool) (o : ControlThreads) :=
  mkControlThreads (tasks o) (log_file o) (workers o) v (debug_mode o)
    (use_process_pool o) (simple_log o) (callback o) (keep_in_memory o)
    (memory o) (executor o).
Definition set_debug_mode (v : bool) (o : ControlThreads) :=
  mkControlThreads (tasks o) (log_file o) (workers o) (print_log o) v
    (use_process_pool o) (simple_log o) (callback o) (keep_in_memory o)
    (memory o) (executor o).
Definition set_use_process_pool (v : bool) (o : ControlThreads) :=
  mkControlThreads (tasks o) (log_file o) (workers o) (print_log o)
    (debug_mode o) v (simple_log o) (callback o) (keep_in_memory o)
    (memory o) (executor o).
Definition set_simple_log (v : PyObj) (o : ControlThreads) :=
  mkControlThreads (tasks o) (log_file o) (workers o) (print_log o)
    (debug_mode o) (use_process_pool o) v (callback o) (keep_in_memory o)
    (memory o) (executor o).
Definition set_callback (v : option nat) (o : ControlThreads) :=
  mkControlThreads (tasks o) (log_file o) (workers o) (print_log o)
    (debug_mode o) (use_process_pool o) (simple_log o) v (keep_in_memory o)
    (memory o) (executor o).
Definition set_keep_in_memory (v : bool) (o : ControlThreads) :=
  mkControlThreads (tasks o) (log_file o) (workers o) (print_log o)
    (debug_mode o) (use_process_pool o) (simple_log o) (callback o) v
    (memory o) (executor o).
Definition set_memory (v : list string) (o : ControlThreads) :=
  mkControlThreads (tasks o) (log_file o) (workers o) (print_log o)
    (debug_mode o) (use_process_pool o) (simple_log o) (callback o)
    (keep_in_memory o) v (executor o).
Definition set_executor (v : Executor) (o : ControlThreads) :=
  mkControlThreads (tasks o) (log_file o) (workers o) (print_log o)
    (debug_mode o) (use_process_pool o) (simple_log o) (callback o)
    (keep_in_memory o) (memory o) v.

(** The process: the instances, the futures of every executor, the files,
    the console, the calls made to external callbacks, the time the
    calling thread has spent in [time.sleep] (in milliseconds) and
    [psutil.cpu_count(logical=True)]. *)
Record World := mkWorld {
  objs : gmap nat ControlThreads;
  futures : list Future;
  fs : gmap string string;
  stdout : list string;
  callback_calls : list (nat * string);
  slept_ms : Z;
  cpu_count : Z
}.

Definition set_objs (v : gmap nat ControlThreads) (w : World) :=
  mkWorld v (futures w) (fs w) (stdout w) (callback_calls w) (slept_ms w)
    (cpu_count w).
Definition set_futures (v : list Future) (w : World) :=
  mkWorld (objs w) v (fs w) (stdout w) (callback_calls w) (slept_ms w)
    (cpu_count w).
Definition set_fs (v : gmap string string) (w : World) :=
  mkWorld (objs w) (futures w) v (stdout w) (callback_calls w) (slept_ms w)
    (cpu_count w).
Definition set_stdout (v : list string) (w : World) :=
  mkWorld (objs w) (futures w) (fs w) v (callback_calls w) (slept_ms w)
    (cpu_count w).
Definition set_callback_calls (v : list (nat * string)) (w : World) :=
  mkWorld (objs w) (futures w) (fs w) (stdout w) v (slept_ms w) (cpu_count w).
Definition set_slept_ms (v : Z) (w : World) :=
  mkWorld (objs w) (futures w) (fs w) (stdout w) (callback_calls w) v
    (cpu_count w).

(** *** Calls: a state and exception monad

    A call maps the process state to the new state and either a value or
    a raised exception.  [None] is a call that does not return: it follows
    a reference to an object or a future that was never created, which no
    Python program can hold, or it blocks on a future that is not done. *)
Definition M (A : Type) : Type := World -> option (World * Outcome A).

Definition ret {A} (a : A) : M A := fun w => Some (w, Ok a).
Definition raise {A} (e : PyErr) : M A := fun w => Some (w, Raise e).
Definition bind {A B} (m : M A) (k : A -> M B) : M B :=
  fun w =>
    match m w with
    | None => None
    | Some (w', Ok a) => k a w'
    | Some (w', Raise e) => Some (w', Raise e)
    end.

Notation "'let*' x := m 'in' k" := (bind m (fun x => k))
  (at level 10, x name, m at level 100, k at level 200).
Notation "m >> k" := (bind m (fun _ => k))
  (at level 100, k at level 200, right associativity).

Definition lift {A} (r : Outcome A) : M A := fun w => Some (w, r).
Definition get_world : M World := fun w => Some (w, Ok w).
Definition update (f : World -> World) : M unit := fun w => Some (f w, Ok tt).

(** Reading the object behind [self], and assigning its attributes. *)
Definition get_self (self : nat) : M ControlThreads :=
  fun w =>
    match objs w !! self with
    | Some o => Some (w, Ok o)
    | None => None
    end.
Definition modify (self : nat) (f : ControlThreads -> ControlThreads) : M unit :=
  fun w =>
    match objs w !! self with
    | Some o => Some (set_objs (<[self := f o]> (objs w)) w, Ok tt)
    | None => None
    end.

Definition get_future (fid : nat) : M Future :=
  fun w =>
    match futures w !! fid with
    | Some f => Some (w, Ok f)
    | None => None
    end.
Definition modify_future (fid : nat) (g : Future -> Future) : M unit :=
  fun w =>
    match futures w !! fid with
    | Some f => Some (set_futures (<[fid := g f]> (futures w)) w, Ok tt)
    | None => None
    end.

(** Runs a call of another thread, or a done-callback inside the
    executor: what it raises does not reach the caller. *)
Definition swallow {A} (m : M A) : M unit :=
  fun w =>
    match m w with
    | None => None
    | Some (w', _) => Some (w', Ok tt)
    end.

(** *** Files, console and external callbacks *)

(** [open(path, 'a')] followed by [close], for a path that can be opened:
    a file that exists is left as it is, a missing one is created empty.
    Directories are not part of the state, so a path that [open] refuses
    (a missing directory, the empty path) is not told apart here. *)
Definition touch (path : string) : M unit :=
  update (fun w =>
    match fs w !! path with
    | Some _ => w
    | None => set_fs (<[path := ""]> (fs w)) w
    end).

(** [open(path, 'a')], [write(text)], close. *)
Definition append_file (path text : string) : M unit :=
  update (fun w => set_fs (<[path := default "" (fs w !! path) +:+ text]> (fs w)) w).

(** [open(path, 'w')] followed by [close]: the file is emptied, or created. *)
Definition truncate (path : string) : M unit :=
  update (fun w => set_fs (<[path := ""]> (fs w)) w).

(** [print(line, end=newline)]. *)
Definition print (line : string) : M unit :=
  update (fun w => set_stdout (stdout w ++ [line]) w).

(** Calling the external callback [cb] with the formatted line. *)
Definition call_callback (cb : nat) (line : string) : M unit :=
  update (fun w => set_callback_calls (callback_calls w ++ [(cb, line)]) w).

(** [time.sleep(0.05)]. *)
Definition sleep_ms (ms : Z) : M unit :=
  update (fun w => set_slept_ms (slept_ms w + ms) w).

(** *** The logger *)

(** [wlog(self, content, tipo, print_log=True)].  [content] is
    [str(content)] already.  The parameter [print_log] hides the attribute
    of the same name, which the body never reads. *)
Definition wlog (self : nat) (ctx : CallCtx) (content tipo : string)
    (print_log : bool) : M unit :=
  let* o := get_self self in
  let function := caller_function ctx in
  let filename := caller_filename ctx in
  let thread_id := native_id ctx in
  let log_message := now ctx +:+ "  " in
  let log_message :=
    if String.eqb tipo "[critical]" then
      log_message +:+ tipo +:+ " - Thread " +:+ pretty thread_id +:+ " - "
        +:+ content
    else if String.eqb tipo "[time]" then
      log_message +:+ tipo +:+ " - " +:+ content
    else if truthy (simple_log o) then
      tipo +:+ " - " +:+ content
    else
      log_message +:+ tipo +:+ " - " +:+ basename filename +:+ " - "
        +:+ function +:+ "() - " +:+ content in
  (if print_log then print log_message else ret tt) >>
  (if keep_in_memory o
   then modify self (fun o => set_memory (memory o ++ [log_message]) o)
   else ret tt) >>
  (match log_file o with
   | Some path => append_file path (log_message +:+ newline)
   | None => ret tt
   end) >>
  match callback o with
  | Some cb => call_callback cb log_message
  | None => ret tt
  end.

Definition info (self : nat) (ctx : CallCtx) (content : string) : M unit :=
  wlog self ctx content "[info]" true.

Definition time (self : nat) (ctx : CallCtx) (content : string) : M unit :=
  wlog self ctx content "[time]" true.

Definition warn (self : nat) (ctx : CallCtx) (content : string) : M unit :=
  wlog self ctx content "[warning]" true.

Definition critical (self : nat) (ctx : CallCtx) (content : string) : M unit :=
  wlog self ctx content "[critical]" true.

Definition debug (self : nat) (ctx : CallCtx) (content : string) : M unit :=
  let* o := get_self self in
  if debug_mode o then wlog self ctx content "[debug]" true else ret tt.

(** [get_logs]: the lines of the log file. *)
Definition get_logs (self : nat) : M (list string) :=
  let* o := get_self self in
  match log_file o with
  | None => raise (Exception_ "No log file was defined")
  | Some path =>
      let* w := get_world in
      match fs w !! path with
      | Some text => ret (readlines_go "" text)
      | None => raise (mkErr "FileNotFoundError" path [])
      end
  end.

(** [clear_logs]: opens the log file for writing and closes it. *)
Definition clear_logs (self : nat) : M unit :=
  let* o := get_self self in
  match log_file o with
  | None => raise (TypeError "expected str, bytes or os.PathLike object, not NoneType")
  | Some path => truncate path
  end.

(** The wrapper that [timer(func)] returns, called once: [work] is what the
    wrapped call does, [elapsed] is [round(final, 4)] printed. *)
Definition timer (self : nat) (ctx : CallCtx) (func_name elapsed : string)
    (work : Outcome Value) : M Value :=
  let* result := lift work in
  time self ctx (func_name +:+ "() executed in " +:+ elapsed +:+ "s") >>
  ret result.

(** *** The pool *)

(** The module-level instance, the first object the module creates. *)
Definition control : nat := 0%nat.

(** [enumerate(trace)]. *)
Definition enumerate {A} (l : list A) : list (nat * A) :=
  zip (seq 0 (length l)) l.

Definition trace_entry (key : nat) (i : Frame) : string :=
  "[Trace " +:+ pretty key +:+ ": " +:+ co_filename i +:+ " - " +:+ co_name i
    +:+ "() - line " +:+ pretty (tb_lineno i) +:+ "]".

(** The loop [for key, i in enumerate(trace): trace_str += ...]. *)
Definition trace_str_of (trace : list Frame) : string :=
  fold_left (fun acc ki => acc +:+ trace_entry ki.1 ki.2) (enumerate trace) "".

(** [Future.exception()], which waits for the future to be done. *)
Definition exception (fid : nat) : M (option PyErr) :=
  fun w =>
    match futures w !! fid with
    | Some f =>
        match fut_state f with
        | FINISHED => Some (w, Ok (fut_exception f))
        | _ => None
        end
    | None => None
    end.

(** [worker_callbacks(f)]: the done-callback of every submitted future.
    [ctx] gives the clock and the thread that runs the callback. *)
Definition worker_callbacks (f : nat) (ctx : CallCtx) : M unit :=
  let* e := exception f in
  match e with
  | None => ret tt
  | Some e =>
      let trace := exc_traceback e in
      let trace_str := trace_str_of trace in
      critical control
        (mkCtx (now ctx) (native_id ctx) "logpool/log.py" "worker_callbacks")
        (exc_type e +:+ ": " +:+ exc_msg e +:+ " -> " +:+ trace_str)
  end.

Definition invoke_callback (cb : DoneCallback) (fid : nat) (ctx : CallCtx)
    : M unit :=
  match cb with
  | worker_callbacks_fn => swallow (worker_callbacks fid ctx)
  end.

Fixpoint invoke_callbacks (cbs : list DoneCallback) (fid : nat)
    (ctx : CallCtx) : M unit :=
  match cbs with
  | [] => ret tt
  | cb :: cbs' => invoke_callback cb fid ctx >> invoke_callbacks cbs' fid ctx
  end.

(** [Executor.submit]: refuses after [shutdown], else queues a new pending
    future. *)
Definition executor_submit (ex : Executor) (work : Outcome Value) : M nat :=
  if ex_shutdown ex
  then raise (RuntimeError "cannot schedule new futures after shutdown")
  else
    let* w := get_world in
    let fid := length (futures w) in
    update (set_futures
              (futures w ++ [mkFuture work (ex_process ex) PENDING None None []]))
    >> ret fid.

(** [Future.add_done_callback]: a future already done gets the call at
    once, in the calling thread. *)
Definition add_done_callback (fid : nat) (cb : DoneCallback) (ctx : CallCtx)
    : M unit :=
  let* f := get_future fid in
  match fut_state f with
  | FINISHED => invoke_callback cb fid ctx
  | _ =>
      modify_future fid (fun f =>
        mkFuture (fut_work f) (fut_remote f) (fut_state f) (fut_result f)
          (fut_exception f) (fut_callbacks f ++ [cb]))
  end.

(** [submit(self, fn, *args, group="default", **kwargs)].  [work] stands
    for the call of [fn] on its arguments.  The body has no [return]. *)
Definition submit (self : nat) (ctx : CallCtx) (work : Outcome Value)
    (group : string) : M Value :=
  let* o := get_self self in
  let* future := executor_submit (executor o) work in
  add_done_callback future worker_callbacks_fn ctx >>
  let* o := get_self self in
  (if decide (tasks o !! group = None)
   then modify self (fun o => set_tasks (<[group := []]> (tasks o)) o)
   else ret tt) >>
  let* o := get_self self in
  match tasks o !! group with
  | Some l =>
      modify self (fun o => set_tasks (<[group := l ++ [future]]> (tasks o)) o)
      >> ret VNone
  | None => raise (KeyError group)
  end.

(** The comprehension [[i.done() for i in l]]. *)
Fixpoint done_list (l : list nat) : M (list bool) :=
  match l with
  | [] => ret []
  | i :: l' =>
      let* f := get_future i in
      let* r := done_list l' in
      ret (done f :: r)
  end.

(** [[i.done() for i in self.tasks[group]]]. *)
Definition poll (self : nat) (group : string) : M (list bool) :=
  let* o := get_self self in
  match tasks o !! group with
  | None => raise (KeyError group)
  | Some l => done_list l
  end.

Definition get_queue (self : nat) (group : string) : M (list bool) :=
  poll self group.

(** *** Construction and reconfiguration *)

(** The arguments of [__init__]; [a_max_workers = None] is the argument
    left out. *)
Record Args := mkArgs {
  a_log_file : option string;
  a_print_log : bool;
  a_debug : bool;
  a_max_workers : option Z;
  a_use_process_pool : bool;
  a_keep_in_memory : bool;
  a_simple_log : bool;
  a_callback : option nat
}.

Definition default_args : Args :=
  mkArgs None true false None false false false None.

(** The default of [max_workers]: [psutil.cpu_count(logical=True) - 2]. *)
Definition default_max_workers (cpus : Z) : Z := cpus - 2.

Definition _init_log (self : nat) : M unit :=
  let* o := get_self self in
  match log_file o with
  | Some path => touch path
  | None => raise (TypeError "expected str, bytes or os.PathLike object, not NoneType")
  end.

(** [__init__], one attribute after the other.  The right-hand side of
    the assignment to [simple_log] ends in a comma: it is the one-element
    tuple holding the argument. *)
Definition __init__ (self : nat) (a : Args) : M unit :=
  let* w := get_world in
  let max_workers := default (default_max_workers (cpu_count w)) (a_max_workers a) in
  modify self (set_tasks {["default" := []]}) >>
  modify self (set_log_file (a_log_file a)) >>
  (match a_log_file a with
   | Some _ => _init_log self
   | None => ret tt
   end) >>
  modify self (set_workers max_workers) >>
  modify self (set_print_log (a_print_log a)) >>
  modify self (set_debug_mode (a_debug a)) >>
  modify self (set_use_process_pool (a_use_process_pool a)) >>
  modify self (set_simple_log (PyTuple [a_simple_log a])) >>
  modify self (set_callback (a_callback a)) >>
  modify self (set_keep_in_memory (a_keep_in_memory a)) >>
  modify self (set_memory []) >>
  let* ex := lift (new_executor (a_use_process_pool a) max_workers) in
  modify self (set_executor ex).

(** An object before [__init__] has run on it. *)
Definition blank : ControlThreads :=
  mkControlThreads ∅ None 0 false false false (PyBool false) None false []
    (mkExecutor false 0 true).

(** [ControlThreads(...)]: a new object, initialised; when [__init__]
    raises, no object remains. *)
Definition new (a : Args) : M nat :=
  fun w =>
    let self := fresh (dom (objs w)) in
    match __init__ self a (set_objs (<[self := blank]> (objs w)) w) with
    | Some (w', Ok _) => Some (w', Ok self)
    | Some (w', Raise e) => Some (set_objs (delete self (objs w')) w', Raise e)
    | None => None
    end.

(** [reconfigure]: [self.executor.shutdown(wait=False)], then [__init__]
    again on the same object. *)
Definition reconfigure (self : nat) (a : Args) : M unit :=
  modify self (fun o =>
    set_executor
      (mkExecutor (ex_process (executor o)) (ex_max_workers (executor o)) true) o)
  >> __init__ self a.

(** Loading the module on a host with [cpus] logical CPUs and files
    [files]: [control = ControlThreads(log_file=None, print_log=True,
    debug=True)]. *)
Definition control_args : Args :=
  mkArgs None true true None false false false None.

Definition load_module (cpus : Z) (files : gmap string string)
    : option (World * Outcome nat) :=
  new control_args (mkWorld ∅ [] files [] [] 0 cpus).


(** *** Workers and other threads *)

(** A worker takes a pending future. *)
Definition worker_starts (fid : nat) : M unit :=
  let* f := get_future fid in
  match fut_state f with
  | PENDING =>
      modify_future fid (fun f =>
        mkFuture (fut_work f) (fut_remote f) RUNNING (fut_result f)
          (fut_exception f) (fut_callbacks f))
  | _ => ret tt
  end.

(** What reaches the future of a call that raised: a worker process sends
    the exception pickled, and it arrives without its traceback.  This is
    the course of an exception that survives pickling, as the built-in
    ones raised with a message do. *)
Definition received (remote : bool) (e : PyErr) : PyErr :=
  if remote then mkErr (exc_type e) (exc_msg e) [] else e.

(** A worker ends the call of a running future: [set_result] or
    [set_exception], then the done-callbacks in order. *)
Definition worker_finishes (fid : nat) (ctx : CallCtx) : M unit :=
  let* f := get_future fid in
  match fut_state f with
  | RUNNING =>
      modify_future fid (fun f =>
        match fut_work f with
        | Ok v =>
            mkFuture (fut_work f) (fut_remote f) FINISHED (Some v) None
              (fut_callbacks f)
        | Raise e =>
            mkFuture (fut_work f) (fut_remote f) FINISHED None
              (Some (received (fut_remote f) e)) (fut_callbacks f)
        end) >>
      invoke_callbacks (fut_callbacks f) fid ctx
  | _ => ret tt
  end.

(** What workers and other threads do to futures, groups and logs while a
    thread sleeps.  A schedule of any events, [reconfigure] included, is
    that of [wait_among] below. *)
Inductive EnvAction :=
| WorkerStarts (fid : nat)
| WorkerFinishes (fid : nat) (ctx : CallCtx)
| OtherSubmits (self : nat) (ctx : CallCtx) (work : Outcome Value)
    (group : string)
| OtherLogs (self : nat) (ctx : CallCtx) (content tipo : string).

Definition env_action (a : EnvAction) : M unit :=
  match a with
  | WorkerStarts fid => swallow (worker_starts fid)
  | WorkerFinishes fid ctx => swallow (worker_finishes fid ctx)
  | OtherSubmits self ctx work group => swallow (submit self ctx work group)
  | OtherLogs self ctx content tipo => swallow (wlog self ctx content tipo true)
  end.

Fixpoint env_actions (l : list EnvAction) : M unit :=
  match l with
  | [] => ret tt
  | a :: l' => env_action a >> env_actions l'
  end.

(** *** Waiting for a group *)

Inductive WaitResult :=
| Returned
| StillWaiting.

(** The loop of [wait].  [sched] lists what the rest of the process does
    during each sleep; when it is used up and a future is still not done,
    the loop is still waiting. *)
Fixpoint wait_loop (self : nat) (group : string)
    (sched : list (list EnvAction)) (queue : list bool) : M WaitResult :=
  if decide (false ∈ queue) then
    match sched with
    | [] => ret StillWaiting
    | during_sleep :: sched' =>
        sleep_ms 50 >>
        env_actions during_sleep >>
        let* queue := poll self group in
        wait_loop self group sched' queue
    end
  else ret Returned.

Definition wait (self : nat) (group : string) (sched : list (list EnvAction))
    : M WaitResult :=
  let* o := get_self self in
  if decide (tasks o !! group = None) then ret Returned
  else
    let* queue := poll self group in
    wait_loop self group sched queue.

(** *** The attributes of the class

    The methods the class body defines.  A name that is neither one of
    them nor an attribute assigned by [__init__] raises [AttributeError]
    when looked up on an instance. *)
Definition methods : list string :=
  ["__init__"; "reconfigure"; "_init_log"; "submit"; "get_logs"; "get_queue";
   "info"; "time"; "warn"; "critical"; "debug"; "wlog"; "timer"; "wait";
   "clear_logs"].

Definition instance_attributes : list string :=
  ["lock"; "tasks"; "log_file"; "workers"; "print_log"; "debug_mode";
   "use_process_pool"; "simple_log"; "callback"; "keep_in_memory"; "memory";
   "executor"].

Definition has_attribute (name : string) : bool :=
  bool_decide (name ∈ instance_attributes ++ methods).

(** *** The operations of an instance, as one type *)

Inductive Op :=
| OpSubmit (ctx : CallCtx) (work : Outcome Value) (group : string)
| OpGetLogs
| OpGetQueue (group : string)
| OpInfo (ctx : CallCtx) (content : string)
| OpTime (ctx : CallCtx) (content : string)
| OpWarn (ctx : CallCtx) (content : string)
| OpCritical (ctx : CallCtx) (content : string)
| OpDebug (ctx : CallCtx) (content : string)
| OpWlog (ctx : CallCtx) (content tipo : string) (print_log : bool)
| OpTimer (ctx : CallCtx) (func_name elapsed : string) (work : Outcome Value)
| OpWait (group : string) (sched : list (list EnvAction))
| OpClearLogs
| OpReconfigure (a : Args).

(** Forgets the value a call returns. *)
Definition void {A} (m : M A) : M unit := let* _ := m in ret tt.

Definition call (self : nat) (op : Op) : M unit :=
  match op with
  | OpSubmit ctx work group => void (submit self ctx work group)
  | OpGetLogs => void (get_logs self)
  | OpGetQueue group => void (get_queue self group)
  | OpInfo ctx content => info self ctx content
  | OpTime ctx content => time self ctx content
  | OpWarn ctx content => warn self ctx content
  | OpCritical ctx content => critical self ctx content
  | OpDebug ctx content => debug self ctx content
  | OpWlog ctx content tipo print_log => wlog self ctx content tipo print_log
  | OpTimer ctx func_name elapsed work =>
      void (timer self ctx func_name elapsed work)
  | OpWait group sched => void (wait self group sched)
  | OpClearLogs => clear_logs self
  | OpReconfigure a => reconfigure self a
  end.

(** *** Vocabulary of the statements *)

(** The line [wlog] formats for an instance [o]. *)
Definition log_line (o : ControlThreads) (ctx : CallCtx)
    (content tipo : string) : string :=
  if String.eqb tipo "[critical]" then
    (now ctx +:+ "  ") +:+ tipo +:+ " - Thread " +:+ pretty (native_id ctx)
      +:+ " - " +:+ content
  else if String.eqb tipo "[time]" then
    (now ctx +:+ "  ") +:+ tipo +:+ " - " +:+ content
  else if truthy (simple_log o) then
    tipo +:+ " - " +:+ content
  else
    (now ctx +:+ "  ") +:+ tipo +:+ " - " +:+ basename (caller_filename ctx)
      +:+ " - " +:+ caller_function ctx +:+ "() - " +:+ content.

(** The sinks of instance [self], whose attributes are [o], after one
    line: console (when [wlog] is asked to print), memory, file, callback. *)
Definition emit (self : nat) (o : ControlThreads) (line : string)
    (print_log : bool) (w : World) : World :=
  mkWorld
    (if keep_in_memory o
     then <[self := set_memory (memory o ++ [line]) o]> (objs w)
     else objs w)
    (futures w)
    (match log_file o with
     | Some path => <[path := default "" (fs w !! path) +:+ line +:+ newline]> (fs w)
     | None => fs w
     end)
    (if print_log then stdout w ++ [line] else stdout w)
    (match callback o with
     | Some cb => callback_calls w ++ [(cb, line)]
     | None => callback_calls w
     end)
    (slept_ms w)
    (cpu_count w).

(** A group table only grows: every sequence is a prefix of the later one. *)
Definition tasks_grow (t t' : gmap string (list nat)) : Prop :=
  forall g l, t !! g = Some l -> exists l', t' !! g = Some l' /\ l `prefix_of` l'.

(** The process moves on: instances stay, their group tables grow, futures
    stay and a future that is done stays done. *)
Definition evolves (w w' : World) : Prop :=
  (forall a o, objs w !! a = Some o ->
     exists o', objs w' !! a = Some o' /\ tasks_grow (tasks o) (tasks o'))
  /\ (forall fid f, futures w !! fid = Some f ->
        exists f', futures w' !! fid = Some f' /\ (done f = true -> done f' = true)).

(** The future [fid] exists and reports done. *)
Definition reports_done (w : World) (fid : nat) : Prop :=
  exists f, futures w !! fid = Some f /\ done f = true.

(** The message [worker_callbacks] hands to [critical] for exception [e]. *)
Definition failure_message (e : PyErr) : string :=
  exc_type e +:+ ": " +:+ exc_msg e +:+ " -> " +:+ trace_str_of (exc_traceback e).

(** The critical line for a message, on the clock and thread of [ctx]. *)
Definition critical_line (ctx : CallCtx) (msg : string) : string :=
  (now ctx +:+ "  ") +:+ "[critical]" +:+ " - Thread " +:+ pretty (native_id ctx)
    +:+ " - " +:+ msg.

(** A running future whose call raised [e], once the worker has stored
    the outcome. *)
Definition failed (f : Future) (e : PyErr) : Future :=
  mkFuture (fut_work f) (fut_remote f) FINISHED None
    (Some (received (fut_remote f) e)) (fut_callbacks f).

(** The attributes [__init__] leaves on an object, on a host with [cpus]
    logical CPUs, with [ex] as executor. *)
Definition max_workers_of (a : Args) (cpus : Z) : Z :=
  default (default_max_workers cpus) (a_max_workers a).

Definition configured (a : Args) (cpus : Z) (ex : Executor) : ControlThreads :=
  mkControlThreads {["default" := []]} (a_log_file a) (max_workers_of a cpus)
    (a_print_log a) (a_debug a) (a_use_process_pool a)
    (PyTuple [a_simple_log a]) (a_callback a) (a_keep_in_memory a) [] ex.

(** The files once [_init_log] has run for the log file [p]. *)
Definition touched (p : option string) (files : gmap string string)
    : gmap string string :=
  match p with
  | Some path =>
      match files !! path with
      | Some _ => files
      | None => <[path := ""]> files
      end
  | None => files
  end.

(** The log file that the arguments name, if they name one, is a file of
    the process already, so that opening it to append finds it. *)
Definition log_file_exists (a : Args) (w : World) : Prop :=
  match a_log_file a with
  | Some p => is_Some (fs w !! p)
  | None => True
  end.

(** *** Histories of a process *)

(** What happens in a process after the module is loaded: a call on an
    instance, the construction of another instance, a step of a worker
    or of another thread. *)
Inductive Event :=
| Call (self : nat) (op : Op)
| Construct (a : Args)
| Env (a : EnvAction).

Definition event (ev : Event) : M unit :=
  match ev with
  | Call self op => call self op
  | Construct a => void (new a)
  | Env a => env_action a
  end.

(** The events in order; an exception ends one call, not the process. *)
Fixpoint run (evs : list Event) (w : World) : option World :=
  match evs with
  | [] => Some w
  | ev :: evs' =>
      match event ev w with
      | Some (w', _) => run evs' w'
      | None => None
      end
  end.

(** *** Waiting while other threads use the instances

    [wait] once more, now with any event as a step of the schedule: during
    a sleep the other threads of the process may call any operation on any
    instance, [reconfigure] of the waiting instance included, construct
    instances, or run tasks.  What an event in another thread raises stays
    in that thread, and the time it sleeps is not slept by the waiting
    thread. *)
Definition elsewhere (ev : Event) : M unit :=
  fun w =>
    match event ev w with
    | Some (w', _) => Some (set_slept_ms (slept_ms w) w', Ok tt)
    | None => None
    end.

Fixpoint all_elsewhere (evs : list Event) : M unit :=
  match evs with
  | [] => ret tt
  | ev :: evs' => elsewhere ev >> all_elsewhere evs'
  end.

Fixpoint wait_loop_among (self : nat) (group : string)
    (sched : list (list Event)) (queue : list bool) : M WaitResult :=
  if decide (false ∈ queue) then
    match sched with
    | [] => ret StillWaiting
    | during_sleep :: sched' =>
        sleep_ms 50 >>
        all_elsewhere during_sleep >>
        let* queue := poll self group in
        wait_loop_among self group sched' queue
    end
  else ret Returned.

Definition wait_among (self : nat) (group : string) (sched : list (list Event))
    : M WaitResult :=
  let* o := get_self self in
  if decide (tasks o !! group = None) then ret Returned
  else
    let* queue := poll self group in
    wait_loop_among self group sched queue.

(** A schedule of steps of workers and other threads, as a schedule of
    events. *)
Definition as_events (sched : list (list EnvAction)) : list (list Event) :=
  map (map Env) sched.

(** Which submissions a step makes, up to a predicate [allowed] on the
    instance and the group: the steps that only submit where allowed. *)
Definition env_allowed (allowed : nat -> string -> Prop) (a : EnvAction) : Prop :=
  match a with
  | OtherSubmits self _ _ group => allowed self group
  | _ => True
  end.

Definition sched_allowed (allowed : nat -> string -> Prop)
    (sched : list (list EnvAction)) : Prop :=
  Forall (Forall (env_allowed allowed)) sched.

Definition op_allowed (allowed : nat -> string -> Prop) (self : nat) (op : Op)
    : Prop :=
  match op with
  | OpSubmit _ _ group => allowed self group
  | OpWait _ sched => sched_allowed allowed sched
  | _ => True
  end.

Definition event_allowed (allowed : nat -> string -> Prop) (ev : Event) : Prop :=
  match ev with
  | Call self op => op_allowed allowed self op
  | Construct _ => True
  | Env a => env_allowed allowed a
  end.

Definition is_reconfigure (op : Op) : Prop :=
  match op with
  | OpReconfigure _ => True
  | _ => False
  end.

(** Every submission but one to group [G] of instance [self]. *)
Definition not_to (self : nat) (G : string) (a : nat) (g : string) : Prop :=
  ~ (a = self /\ g = G).

(** No submission at all. *)
Definition nowhere (a : nat) (g : string) : Prop := False.

(** Anywhere. *)
Definition anywhere (a : nat) (g : string) : Prop := True.

(** Group [G] of instance [self], once absent, is still absent. *)
Definition still_absent (self : nat) (G : string) (w w' : World) : Prop :=
  forall o, objs w !! self = Some o -> tasks o !! G = None ->
    exists o', objs w' !! self = Some o' /\ tasks o' !! G = None.

(** Every instance is still there with the same group table. *)
Definition same_tables (w w' : World) : Prop :=
  forall a o, objs w !! a = Some o ->
    exists o', objs w' !! a = Some o' /\ tasks o' = tasks o.

(** The calling thread has not slept. *)
Definition same_slept (w w' : World) : Prop := slept_ms w' = slept_ms w.

(** Every run of [m] that returns relates the state before to the state
    after by [R]. *)
Definition keeps (R : World -> World -> Prop) {A} (m : M A) : Prop :=
  forall w w' r, m w = Some (w', r) -> R w w'.

(** The state [submit] leaves on a live executor. *)
Definition submitted (self : nat) (o : ControlThreads) (work : Outcome Value)
    (g : string) (w : World) : World :=
  mkWorld
    (<[self := set_tasks
                 (<[g := default [] (tasks o !! g) ++ [length (futures w)]]> (tasks o))
                 o]> (objs w))
    (futures w ++ [mkFuture work (ex_process (executor o)) PENDING None None
                     [worker_callbacks_fn]])
    (fs w) (stdout w) (callback_calls w) (slept_ms w) (cpu_count w).

(** A process that has just started on a host with [cpus] logical CPUs
    and files [files]. *)
Definition host (cpus : Z) (files : gmap string string) : World :=
  mkWorld ∅ [] files [] [] 0 cpus.

(** The entries of a trace one after the other, numbered from [key]. *)
Fixpoint trace_cat (key : nat) (trace : list Frame) : string :=
  match trace with
  | [] => ""
  | i :: rest => trace_entry key i +:+ trace_cat (S key) rest
  end.

(** *** Vocabulary of further statements *)

(** A logging call: the caller's context, the message and the level tag. *)
Definition LogEntry : Type := CallCtx * string * string.

Definition log_events (self : nat) (entries : list LogEntry) : list Event :=
  (fun e : LogEntry => Call self (OpWlog e.1.1 e.1.2 e.2 true)) <$> entries.

Definition lines_of (o : ControlThreads) (entries : list LogEntry) : list string :=
  (fun e : LogEntry => log_line o e.1.1 e.1.2 e.2) <$> entries.

(** Every handle recorded in a group table is a future of the process. *)
Definition handles_exist (w : World) : Prop :=
  forall a o g l fid,
    objs w !! a = Some o -> tasks o !! g = Some l -> fid ∈ l ->
    is_Some (futures w !! fid).

Definition keeps_handles (w w' : World) : Prop :=
  handles_exist w -> handles_exist w'.

(** Instance [self] stays, its group table grows, and futures move on. *)
Definition advances (self : nat) (w w' : World) : Prop :=
  (forall o, objs w !! self = Some o ->
     exists o', objs w' !! self = Some o' /\ tasks_grow (tasks o) (tasks o'))
  /\ (forall fid f, futures w !! fid = Some f ->
        exists f', futures w' !! fid = Some f' /\ (done f = true -> done f' = true)).




(** [ev] is not a call of [reconfigure] on [self]. *)
Definition not_reconfigure_of (self : nat) (ev : Event) : Prop :=
  match ev with
  | Call a (OpReconfigure _) => a <> self
  | _ => True
  end.


(** Future [fid], once not done, is still not done. *)
Definition still_pending (fid : nat) (w w' : World) : Prop :=
  forall f, futures w !! fid = Some f -> done f = false ->
    exists f', futures w' !! fid = Some f' /\ done f' = false.

(** No worker ends the call of [fid]. *)
Definition never_finishes (fid : nat) (a : EnvAction) : Prop :=
  match a with
  | WorkerFinishes fid' _ => fid' <> fid
  | _ => True
  end.

(** No worker ends the call of [fid] in the course of the event. *)
Definition never_ends (fid : nat) (ev : Event) : Prop :=
  match ev with
  | Env a => never_finishes fid a
  | Call _ (OpWait _ sched) => Forall (Forall (never_finishes fid)) sched
  | _ => True
  end.

(** The schedule of a wait on [self] in which no other thread reconfigures
    [self]. *)
Definition no_reconfigure_of (self : nat) (sched : list (list Event)) : Prop :=
  Forall (Forall (not_reconfigure_of self)) sched.

(** A running future whose call returned [v], once the worker has stored
    the outcome. *)
Definition returned (f : Future) (v : Value) : Future :=
  mkFuture (fut_work f) (fut_remote f) FINISHED (Some v) None (fut_callbacks f).

(** *** Sample inputs *)

Module Sample.

Definition ctx0 : CallCtx := mkCtx "03/11/2026 10:00:00" 4242 "/srv/app/bar.py" "foo".
Definition ctx1 : CallCtx := mkCtx "03/11/2026 10:00:01" 4243 "/srv/app/bar.py" "foo".

(** An exception raised two frames deep. *)
Definition boom : PyErr :=
  mkErr "ValueError" "bad input"
    [mkFrame "thread.py" "run" 58; mkFrame "job.py" "task" 3].

(** The module-level instance on a host with eight logical CPUs. *)
Definition control0 : ControlThreads :=
  configured control_args 8 (mkExecutor false 6 false).

(** The process once the module is loaded there. *)
Definition loaded : World :=
  mkWorld {[control := control0]} [] ∅ [] [] 0 8.

(** A second instance, with a log file, a memory and a callback. *)
Definition other_args : Args :=
  mkArgs (Some "i.log") false false (Some 4) false true false (Some 7%nat).

Definition other : nat := 1%nat.

Definition other0 : ControlThreads :=
  configured other_args 8 (mkExecutor false 4 false).

Definition with_other : World :=
  mkWorld {[control := control0; other := other0]} [] {["i.log" := ""]} [] [] 0 8.

(** A failing call submitted to [control] under group [g], taken by a
    worker. *)
Definition boom_running : Future :=
  mkFuture (Raise boom) false RUNNING None None [worker_callbacks_fn].

Definition running : World :=
  mkWorld {[control := set_tasks {["default" := []; "g" := [0%nat]]} control0]}
    [boom_running] ∅ [] [] 0 8.

(** Two calls submitted to [control] under group [g], still pending. *)
Definition two_pending : World :=
  mkWorld
    {[control := set_tasks {["default" := []; "g" := [0%nat; 1%nat]]} control0]}
    [mkFuture (Ok (VInt 4)) false PENDING None None [worker_callbacks_fn];
     mkFuture (Raise boom) false PENDING None None [worker_callbacks_fn]]
    ∅ [] [] 0 8.

Definition sched0 : list (list EnvAction) :=
  [[WorkerStarts 0; WorkerStarts 1];
   [WorkerFinishes 0 ctx1];
   [WorkerFinishes 1 ctx1; OtherSubmits control ctx1 (Ok VNone) "h"]].

(** The second instance over a log file that already holds a line. *)
Definition with_lines : World :=
  mkWorld {[control := control0; other := other0]} []
    {["i.log" := "first" +:+ newline]} [] [] 0 8.

Definition entries0 : list LogEntry :=
  [(ctx0, "one", "[info]"); (ctx1, "two", "[critical]")].

(** Arguments with a worker count the executor rejects. *)
Definition zero_workers : Args :=
  mkArgs (Some "i.log") true false (Some 0) false false false None.


Definition history1 : list Event :=
  [Env (WorkerStarts 0); Env (WorkerFinishes 0 ctx1)].

(** A third configuration: a pool of two worker processes. *)
Definition process_args : Args :=
  mkArgs None true false (Some 2) true false false None.

Definition with_process : World :=
  mkWorld {[control := control0;
            other := configured process_args 8 (mkExecutor true 2 false)]}
    [] ∅ [] [] 0 8.

(** An exception raised two frames deep in a worker process. *)
Definition crash : PyErr :=
  mkErr "ValueError" "bad input"
    [mkFrame "process.py" "_process_worker" 246; mkFrame "job.py" "task" 3].

(** One call submitted to [control] under the default group, still
    pending. *)
Definition pending_default : World :=
  mkWorld {[control := set_tasks {["default" := [0%nat]]} control0]}
    [mkFuture (Ok (VInt 4)) false PENDING None None [worker_callbacks_fn]]
    ∅ [] [] 0 8.

(** What happens during three sleeps: workers run the two calls, while
    other threads log, construct an instance and submit. *)
Definition sched2 : list (list Event) :=
  [[Env (WorkerStarts 0); Env (WorkerStarts 1)];
   [Env (WorkerFinishes 0 ctx1); Call control (OpInfo ctx1 "busy")];
   [Env (WorkerFinishes 1 ctx1); Construct other_args;
    Call control (OpSubmit ctx1 (Ok VNone) "h")]].

(** Two sleeps in which no worker ends the second call. *)
Definition sched3 : list (list Event) :=
  [[Env (WorkerStarts 0); Env (WorkerStarts 1);
    Call control (OpWait "g" [[WorkerFinishes 0 ctx1]])];
   [Call control (OpGetQueue "g"); Construct other_args;
    Call other (OpReconfigure zero_workers)]].

End Sample.

End LogPool.

(** ** The legacy module, [src/log.py] *)

Module Legacy.

(** The attributes [__init__] assigns.  The class extends
    [ThreadPoolExecutor], whose own state plays no part in the file
    operations below. *)
Record ControlThreads := mkControlThreads {
  tasks : gmap string (list nat);
  log_file : option string;
  workers : Z;
  print_log : bool;
  debug : bool
}.

(** *** The shell behind [os.system]

    The files are the regular files of the working directory, each named
    by one plain word; the directory has no subdirectory.  A command line
    is understood when it is made of such words and spaces, and its first
    word is [cp]. *)

Definition name_char (c : ascii) : bool :=
  let n := nat_of_ascii c in
  ((48 <=? n) && (n <=? 57) || (65 <=? n) && (n <=? 90)
   || (97 <=? n) && (n <=? 122) || (n =? 95) || (n =? 46) || (n =? 45))%nat.

Fixpoint all_chars (p : ascii -> bool) (s : string) : bool :=
  match s with
  | "" => true
  | String c s' => p c && all_chars p s'
  end.

(** A file name: letters, digits, underscore, dot and dash, not starting
    with a dash, and neither of the directories [.] and [..]. *)
Definition file_name (s : string) : bool :=
  match s with
  | "" => false
  | String c _ =>
      negb (Ascii.eqb c "-") && all_chars name_char s
      && negb (String.eqb s ".") && negb (String.eqb s "..")
  end.

(** Splitting a command line into words at the spaces. *)
Fixpoint split_words (cur s : string) : list string :=
  match s with
  | "" => match cur with "" => [] | _ => [cur] end
  | String c s' =>
      if Ascii.eqb c " " then
        match cur with
        | "" => split_words "" s'
        | _ => cur :: split_words "" s'
        end
      else split_words (cur +:+ String c "") s'
  end.

(** [cp source dest] between two files of the directory: it fails when
    the source is missing and when both name the same file. *)
Definition cp (source dest : string) (files : gmap string string)
    : gmap string string * Z :=
  match files !! source with
  | None => (files, 256)
  | Some text =>
      if decide (source = dest) then (files, 256)
      else (<[dest := text]> files, 0)
  end.

(** [os.system(command)]: the files afterwards and the wait status.
    [cp] with two operands copies the first to the second.  With fewer
    it has no destination, and with three or more the last must be a
    directory, which no name is here: it reports the error, copies nothing
    and exits with status 1.  [None] is a command line outside the
    fragment described above. *)
Definition os_system (command : string) (files : gmap string string)
    : option (gmap string string * Z) :=
  match split_words "" command with
  | prog :: operands =>
      if String.eqb prog "cp" && forallb file_name operands then
        match operands with
        | [source; dest] => Some (cp source dest files)
        | _ => Some (files, 256)
        end
      else None
  | [] => None
  end.

(** How an f-string prints [self.log_file]. *)
Definition str_of_path (p : option string) : string :=
  match p with
  | Some s => s
  | None => "None"
  end.

(** *** The file operations of the class *)

Definition init_log (self : ControlThreads) (files : gmap string string)
    : gmap string string * Outcome unit :=
  match log_file self with
  | Some path =>
      (match files !! path with
       | Some _ => files
       | None => <[path := ""]> files
       end, Ok tt)
  | None =>
      (files, Raise (TypeError "expected str, bytes or os.PathLike object, not NoneType"))
  end.

Definition clear_logs (self : ControlThreads) (files : gmap string string)
    : gmap string string * Outcome unit :=
  match log_file self with
  | Some path => (<[path := ""]> files, Ok tt)
  | None =>
      (files, Raise (TypeError "expected str, bytes or os.PathLike object, not NoneType"))
  end.

(** [finishLog(self, filename)]: the shell copies, whatever its status
    [clear_logs] follows. *)
Definition finishLog (self : ControlThreads) (filename : string)
    (files : gmap string string) : option (gmap string string * Outcome unit) :=
  match os_system ("cp " +:+ str_of_path (log_file self) +:+ " " +:+ filename) files with
  | Some (files', _) => Some (clear_logs self files')
  | None => None
  end.

(** *** The logger of the legacy class

    [wlog(self, content, tipo, print_log=True)] on the files and the
    console.  There is no simplified format, memory or callback here. *)
Definition wlog (self : ControlThreads) (ctx : CallCtx) (content tipo : string)
    (print_log : bool) (files : gmap string string) (out : list string)
    : gmap string string * list string :=
  let function := caller_function ctx in
  let filename := caller_filename ctx in
  let thread_id := native_id ctx in
  let log_message :=
    if String.eqb tipo "[critical]" then
      now ctx +:+ "  " +:+ tipo +:+ " - Thread " +:+ pretty thread_id +:+ " - "
        +:+ content
    else if String.eqb tipo "[time]" then
      now ctx +:+ "  " +:+ tipo +:+ " - " +:+ content
    else
      now ctx +:+ "  " +:+ tipo +:+ " - " +:+ basename filename +:+ " - "
        +:+ function +:+ "() - " +:+ content in
  (match log_file self with
   | Some path => <[path := default "" (files !! path) +:+ log_message +:+ newline]> files
   | None => files
   end,
   if print_log then out ++ [log_message] else out).

Definition info (self : ControlThreads) (ctx : CallCtx) (content : string) :=
  wlog self ctx content "[info]" true.

Definition time (self : ControlThreads) (ctx : CallCtx) (content : string) :=
  wlog self ctx content "[time]" true.

Definition warn (self : ControlThreads) (ctx : CallCtx) (content : string) :=
  wlog self ctx content "[warning]" true.

Definition critical (self : ControlThreads) (ctx : CallCtx) (content : string) :=
  wlog self ctx content "[critical]" true.

(** [get_logs]: the lines of the log file. *)
Definition get_logs (self : ControlThreads) (files : gmap string string)
    : Outcome (list string) :=
  match log_file self with
  | None => Raise (Exception_ "No log file was defined")
  | Some path =>
      match files !! path with
      | Some text => Ok (readlines_go "" text)
      | None => Raise (mkErr "FileNotFoundError" path [])
      end
  end.

(** The line the legacy [wlog] formats. *)
Definition log_line (ctx : CallCtx) (content tipo : string) : string :=
  if String.eqb tipo "[critical]" then
    now ctx +:+ "  " +:+ tipo +:+ " - Thread " +:+ pretty (native_id ctx) +:+ " - "
      +:+ content
  else if String.eqb tipo "[time]" then
    now ctx +:+ "  " +:+ tipo +:+ " - " +:+ content
  else
    now ctx +:+ "  " +:+ tipo +:+ " - " +:+ basename (caller_filename ctx) +:+ " - "
      +:+ caller_function ctx +:+ "() - " +:+ content.

(** The methods the legacy class body defines. *)
Definition methods : list string :=
  ["__init__"; "reconfigure"; "init_log"; "submit"; "get_logs"; "get_queue";
   "info"; "time"; "warn"; "critical"; "debug"; "wlog"; "timer"; "wait";
   "clear_logs"; "finishLog"].

(** Sample instances: one with a log file, one without. *)
Definition sample : ControlThreads :=
  mkControlThreads {["default" := []]} (Some "run.log") 6 true false.

Definition sample_no_log : ControlThreads :=
  mkControlThreads {["default" := []]} None 6 true false.

End Legacy.

(** * Properties *)

Import LogPool.

(** ** Reasoning about calls *)

Lemma bind_inv {A B} (m : M A) (k : A -> M B) w w' r :
  bind m k w = Some (w', r) ->
  (exists w1 a, m w = Some (w1, Ok a) /\ k a w1 = Some (w', r))
  \/ (exists e, m w = Some (w', Raise e) /\ r = Raise e).
Proof.
  unfold bind. destruct (m w) as [[w1 [a|e]]|] eqn:E; intros H.
  - left. eauto.
  - right. inversion H; subst. eauto.
  - discriminate.
Qed.

Lemma bind_ok {A B} (m : M A) (k : A -> M B) w w1 a :
  m w = Some (w1, Ok a) -> bind m k w = k a w1.
Proof. unfold bind. intros ->. reflexivity. Qed.

Lemma get_self_ok self w o :
  objs w !! self = Some o -> get_self self w = Some (w, Ok o).
Proof. unfold get_self. intros ->. reflexivity. Qed.

Lemma modify_ok self f w o :
  objs w !! self = Some o ->
  modify self f w = Some (set_objs (<[self := f o]> (objs w)) w, Ok tt).
Proof. unfold modify. intros ->. reflexivity. Qed.

Lemma get_future_ok fid w f :
  futures w !! fid = Some f -> get_future fid w = Some (w, Ok f).
Proof. unfold get_future. intros ->. reflexivity. Qed.

Lemma modify_future_ok fid g w f :
  futures w !! fid = Some f ->
  modify_future fid g w = Some (set_futures (<[fid := g f]> (futures w)) w, Ok tt).
Proof. unfold modify_future. intros ->. reflexivity. Qed.

(** ** What one logging call does *)

(** [wlog] returns, and its effect is [emit] of the formatted line to the
    sinks of [self]. *)
Lemma wlog_eq self ctx content tipo print_log w o :
  objs w !! self = Some o ->
  wlog self ctx content tipo print_log w
  = Some (emit self o (log_line o ctx content tipo) print_log w, Ok tt).
Proof.
  intros Ho. unfold wlog. rewrite (bind_ok _ _ _ _ _ (get_self_ok _ _ _ Ho)).
  fold (log_line o ctx content tipo).
  generalize (log_line o ctx content tipo) as line. intros line.
  unfold emit, bind, print, update, ret, modify, append_file, call_callback.
  destruct w as [ob fu files out calls sl cpus]; simpl in *.
  destruct print_log, (keep_in_memory o) eqn:Ek, (log_file o) eqn:El,
    (callback o) eqn:Ec; simpl; rewrite ?Ho; simpl; reflexivity.
Qed.

(** ** What [submit] does *)

Lemma lookup_snoc_new {A} (l : list A) (x : A) : (l ++ [x]) !! length l = Some x.
Proof. rewrite lookup_app_r by lia. by rewrite Nat.sub_diag. Qed.

Lemma insert_snoc_new {A} (l : list A) (x y : A) :
  <[length l := y]> (l ++ [x]) = l ++ [y].
Proof. rewrite insert_app_r_alt by lia. by rewrite Nat.sub_diag. Qed.

(** On a live executor [submit] queues one pending future that carries the
    done-callback, appends it to the group (a new group starts empty) and
    returns [None]. *)
Lemma submit_eq self ctx work g w o :
  objs w !! self = Some o ->
  ex_shutdown (executor o) = false ->
  submit self ctx work g w = Some (submitted self o work g w, Ok VNone).
Proof.
  intros Ho Hlive. unfold submit, submitted.
  rewrite (bind_ok _ _ _ _ _ (get_self_ok _ _ _ Ho)).
  unfold executor_submit. rewrite Hlive.
  destruct w as [ob fu files out calls sl cpus]; simpl in *.
  unfold bind at 1. unfold bind at 1. simpl.
  unfold bind at 1. unfold add_done_callback, bind at 1, get_future. simpl.
  rewrite lookup_snoc_new. simpl.
  unfold modify_future. simpl. rewrite lookup_snoc_new, insert_snoc_new. simpl.
  unfold bind at 1. unfold get_self at 1. simpl. rewrite Ho.
  destruct (tasks o !! g) as [l|] eqn:Eg; simpl.
  - unfold bind at 1. simpl. unfold bind at 1, get_self. simpl. rewrite Ho, Eg.
    unfold bind, modify, ret. simpl. rewrite Ho. reflexivity.
  - unfold bind at 1, modify at 1. simpl. rewrite Ho.
    unfold bind at 1, get_self. simpl. rewrite lookup_insert_eq. simpl.
    rewrite lookup_insert_eq.
    unfold bind, modify, ret. simpl. rewrite lookup_insert_eq.
    unfold set_objs, set_tasks. simpl.
    rewrite !insert_insert_eq. reflexivity.
Qed.

(** After [shutdown] the executor refuses, and nothing changes. *)
Lemma submit_shutdown self ctx work g w o :
  objs w !! self = Some o ->
  ex_shutdown (executor o) = true ->
  submit self ctx work g w
  = Some (w, Raise (RuntimeError "cannot schedule new futures after shutdown")).
Proof.
  intros Ho Hdead. unfold submit.
  rewrite (bind_ok _ _ _ _ _ (get_self_ok _ _ _ Ho)).
  unfold executor_submit. rewrite Hdead. reflexivity.
Qed.

(** ** What a worker does with a failing call *)

Lemma worker_callbacks_eq fid ctx w f e c :
  futures w !! fid = Some f ->
  fut_state f = FINISHED ->
  fut_exception f = Some e ->
  objs w !! control = Some c ->
  worker_callbacks fid ctx w
  = Some (emit control c (critical_line ctx (failure_message e)) true w, Ok tt).
Proof.
  intros Hf Hst He Hc. unfold worker_callbacks, bind at 1, exception.
  rewrite Hf, Hst, He. unfold critical. rewrite (wlog_eq _ _ _ _ _ _ _ Hc).
  reflexivity.
Qed.

Lemma worker_starts_eq fid w f :
  futures w !! fid = Some f ->
  fut_state f = PENDING ->
  worker_starts fid w
  = Some (set_futures
            (<[fid := mkFuture (fut_work f) (fut_remote f) RUNNING (fut_result f)
                        (fut_exception f) (fut_callbacks f)]> (futures w)) w,
          Ok tt).
Proof.
  intros Hf Hst. unfold worker_starts.
  rewrite (bind_ok _ _ _ _ _ (get_future_ok _ _ _ Hf)), Hst.
  unfold modify_future. rewrite Hf. reflexivity.
Qed.

Lemma worker_finishes_failed fid ctx w f e c :
  futures w !! fid = Some f ->
  fut_state f = RUNNING ->
  fut_work f = Raise e ->
  fut_callbacks f = [worker_callbacks_fn] ->
  objs w !! control = Some c ->
  worker_finishes fid ctx w
  = Some (emit control c
            (critical_line ctx (failure_message (received (fut_remote f) e))) true
            (set_futures (<[fid := failed f e]> (futures w)) w),
          Ok tt).
Proof.
  intros Hf Hst Hwork Hcbs Hc. unfold worker_finishes, failed.
  rewrite (bind_ok _ _ _ _ _ (get_future_ok _ _ _ Hf)), Hst.
  rewrite (bind_ok _ _ _ _ _ (modify_future_ok _ _ _ _ Hf)), Hwork, Hcbs.
  simpl. unfold bind at 1, swallow.
  assert (Hlt : (fid < length (futures w))%nat) by (eapply lookup_lt_Some; eauto).
  erewrite worker_callbacks_eq; [reflexivity | | | | exact Hc]; simpl.
  - apply list_lookup_insert_eq, Hlt.
  - reflexivity.
  - reflexivity.
Qed.

Lemma worker_finishes_returned fid ctx w f v :
  futures w !! fid = Some f ->
  fut_state f = RUNNING ->
  fut_work f = Ok v ->
  fut_callbacks f = [worker_callbacks_fn] ->
  worker_finishes fid ctx w
  = Some (set_futures (<[fid := returned f v]> (futures w)) w, Ok tt).
Proof.
  intros Hf Hst Hwork Hcbs. unfold worker_finishes, returned.
  rewrite (bind_ok _ _ _ _ _ (get_future_ok _ _ _ Hf)), Hst.
  rewrite (bind_ok _ _ _ _ _ (modify_future_ok _ _ _ _ Hf)), Hwork, Hcbs.
  assert (Hlt : (fid < length (futures w))%nat) by (eapply lookup_lt_Some; eauto).
  simpl. unfold bind at 1, swallow, worker_callbacks, bind at 1, exception. simpl.
  rewrite list_lookup_insert_eq by done. reflexivity.
Qed.

(** A call that returns, submitted on a live executor, runs to its end:
    the handle is then done and holds the value. *)
Lemma returning_task_runs self o ctx ctx' v g w :
  objs w !! self = Some o ->
  ex_shutdown (executor o) = false ->
  exists w1 w2 w3 f,
    submit self ctx (Ok v) g w = Some (w1, Ok VNone)
    /\ worker_starts (length (futures w)) w1 = Some (w2, Ok tt)
    /\ worker_finishes (length (futures w)) ctx' w2 = Some (w3, Ok tt)
    /\ futures w3 !! length (futures w) = Some f
    /\ done f = true /\ fut_result f = Some v /\ fut_exception f = None.
Proof.
  intros Ho Hlive. set (fid := length (futures w)).
  set (f0 := mkFuture (Ok v) (ex_process (executor o)) PENDING None None
               [worker_callbacks_fn]).
  set (f1 := mkFuture (Ok v) (ex_process (executor o)) RUNNING None None
               [worker_callbacks_fn]).
  set (w1 := submitted self o (Ok v) g w).
  assert (H0 : futures w1 !! fid = Some f0) by apply lookup_snoc_new.
  set (w2 := set_futures (<[fid := f1]> (futures w1)) w1).
  assert (Hlt : (fid < length (futures w1))%nat) by (eapply lookup_lt_Some; eauto).
  assert (H1 : futures w2 !! fid = Some f1) by (by apply list_lookup_insert_eq).
  assert (Hlt2 : (fid < length (futures w2))%nat) by (eapply lookup_lt_Some; eauto).
  exists w1, w2, (set_futures (<[fid := returned f1 v]> (futures w2)) w2),
    (returned f1 v).
  split; [apply (submit_eq _ _ _ _ _ _ Ho Hlive)|].
  split; [apply (worker_starts_eq _ _ _ H0); reflexivity|].
  split; [apply (worker_finishes_returned _ _ _ _ _ H1); reflexivity|].
  split; [simpl; by apply list_lookup_insert_eq|]. done.
Qed.

(** ** What construction does *)

(** [__init__] assigns every attribute; the executor is assigned last, and
    only when the worker count is positive. *)
Lemma init_eq self a w o :
  objs w !! self = Some o ->
  __init__ self a w
  = Some (mkWorld
            (<[self := configured a (cpu_count w)
                         (if decide (max_workers_of a (cpu_count w) <= 0)
                          then executor o
                          else mkExecutor (a_use_process_pool a)
                                 (max_workers_of a (cpu_count w)) false)]>
               (objs w))
            (futures w) (touched (a_log_file a) (fs w)) (stdout w)
            (callback_calls w) (slept_ms w) (cpu_count w),
          if decide (max_workers_of a (cpu_count w) <= 0)
          then Raise (ValueError "max_workers must be greater than 0")
          else Ok tt).
Proof.
  intros Ho. destruct w as [ob fu files out calls sl cpus]. simpl in *.
  unfold __init__, new_executor, max_workers_of.
  unfold bind at 1, get_world. simpl.
  set (mw := default (default_max_workers cpus) (a_max_workers a)).
  unfold bind at 1, modify at 1. simpl. rewrite Ho.
  unfold bind at 1, modify at 1. simpl. rewrite lookup_insert_eq.
  assert (Hlog :
    forall ob1 o1, ob1 !! self = Some o1 -> log_file o1 = a_log_file a ->
      match a_log_file a with
      | Some _ => _init_log self
      | None => ret tt
      end (mkWorld ob1 fu files out calls sl cpus)
      = Some (mkWorld ob1 fu (touched (a_log_file a) files) out calls sl cpus, Ok tt)).
  { intros ob1 o1 H1 Hl. destruct (a_log_file a) as [p|] eqn:Ea; [|reflexivity].
    unfold _init_log, bind, get_self. simpl. rewrite H1, Hl.
    unfold touch, update, touched. simpl. destruct (files !! p); reflexivity. }
  unfold bind at 1. unfold set_objs. simpl.
  erewrite Hlog; [| apply lookup_insert_eq | reflexivity].
  repeat (unfold bind at 1, modify at 1; simpl; rewrite lookup_insert_eq;
          unfold set_objs; simpl).
  destruct (decide (mw <= 0)); simpl;
    unfold configured, max_workers_of; fold mw;
    rewrite !insert_insert_eq; reflexivity.
Qed.

(** ** Relations that every step keeps

    A relation [R] between states that is a preorder and holds across the
    three elementary effects (a line sent to the sinks, a future moving
    on, a submission where [allowed]) holds across every call built from
    them. *)

Section Keeps.

Variable R : World -> World -> Prop.
Variable allowed : nat -> string -> Prop.

Hypothesis R_refl : forall w, R w w.
Hypothesis R_trans : forall a b c, R a b -> R b c -> R a c.
Hypothesis R_emit : forall self o line pl w,
  objs w !! self = Some o -> R w (emit self o line pl w).
Hypothesis R_future : forall fid f f' w,
  futures w !! fid = Some f -> (done f = true -> done f' = true) ->
  R w (set_futures (<[fid := f']> (futures w)) w).
Hypothesis R_submit : forall self o work g w,
  objs w !! self = Some o -> allowed self g -> R w (submitted self o work g w).

Lemma keeps_bind {A B} (m : M A) (k : A -> M B) :
  keeps R m -> (forall a, keeps R (k a)) -> keeps R (bind m k).
Proof.
  intros Hm Hk w w' r H. apply bind_inv in H as [(w1 & a & H1 & H2)|(e & H1 & _)].
  - eapply R_trans; [eapply Hm | eapply Hk]; eauto.
  - eapply Hm; eauto.
Qed.

Lemma keeps_ret {A} (a : A) : keeps R (ret a).
Proof. intros w w' r H. inversion H; subst. apply R_refl. Qed.

Lemma keeps_raise {A} (e : PyErr) : keeps R (raise (A:=A) e).
Proof. intros w w' r H. inversion H; subst. apply R_refl. Qed.

Lemma keeps_lift {A} (o : Outcome A) : keeps R (lift o).
Proof. intros w w' r H. inversion H; subst. apply R_refl. Qed.

Lemma keeps_get_self self : keeps R (get_self self).
Proof.
  intros w w' r H. unfold get_self in H.
  destruct (objs w !! self); inversion H; subst. apply R_refl.
Qed.

Lemma keeps_get_future fid : keeps R (get_future fid).
Proof.
  intros w w' r H. unfold get_future in H.
  destruct (futures w !! fid); inversion H; subst. apply R_refl.
Qed.

Lemma keeps_swallow {A} (m : M A) : keeps R m -> keeps R (swallow m).
Proof.
  intros Hm w w' r H. unfold swallow in H.
  destruct (m w) as [[w1 r1]|] eqn:E; inversion H; subst. eapply Hm; eauto.
Qed.

Lemma keeps_wlog self ctx content tipo pl : keeps R (wlog self ctx content tipo pl).
Proof.
  intros w w' r H. destruct (objs w !! self) as [o|] eqn:Ho.
  - rewrite (wlog_eq _ _ _ _ _ _ _ Ho) in H. inversion H; subst. by apply R_emit.
  - unfold wlog, bind, get_self in H. rewrite Ho in H. discriminate.
Qed.

Lemma keeps_exception fid : keeps R (exception fid).
Proof.
  intros w w' r H. unfold exception in H.
  destruct (futures w !! fid) as [f|]; [|discriminate].
  destruct (fut_state f); inversion H; subst. apply R_refl.
Qed.

Lemma keeps_worker_callbacks fid ctx : keeps R (worker_callbacks fid ctx).
Proof.
  unfold worker_callbacks. apply keeps_bind; [apply keeps_exception|].
  intros [e|]; [apply keeps_wlog | apply keeps_ret].
Qed.

Lemma keeps_invoke_callbacks cbs fid ctx : keeps R (invoke_callbacks cbs fid ctx).
Proof.
  induction cbs as [|cb cbs IH]; simpl; [apply keeps_ret|].
  apply keeps_bind; [|intros _; exact IH].
  destruct cb. apply keeps_swallow, keeps_worker_callbacks.
Qed.

Lemma keeps_worker_starts fid : keeps R (worker_starts fid).
Proof.
  intros w w' r H. unfold worker_starts, bind, get_future, modify_future in H.
  destruct (futures w !! fid) as [f|] eqn:Hf; [|discriminate].
  destruct (fut_state f) eqn:Hst; simpl in H; rewrite ?Hf in H;
    inversion H; subst; try apply R_refl.
  eapply R_future; eauto. unfold done. rewrite Hst. discriminate.
Qed.

Lemma keeps_worker_finishes fid ctx : keeps R (worker_finishes fid ctx).
Proof.
  intros w w' r H. unfold worker_finishes in H.
  destruct (futures w !! fid) as [f|] eqn:Hf.
  - rewrite (bind_ok _ _ _ _ _ (get_future_ok _ _ _ Hf)) in H.
    destruct (fut_state f) eqn:Hst; try (inversion H; subst; apply R_refl).
    rewrite (bind_ok _ _ _ _ _ (modify_future_ok _ _ _ _ Hf)) in H.
    eapply R_trans; [|eapply keeps_invoke_callbacks; exact H].
    eapply R_future; eauto. unfold done at 1. rewrite Hst. discriminate.
  - unfold bind, get_future in H. rewrite Hf in H. discriminate.
Qed.

Lemma keeps_submit self ctx work g :
  allowed self g -> keeps R (submit self ctx work g).
Proof.
  intros Hal w w' r H. destruct (objs w !! self) as [o|] eqn:Ho.
  - destruct (ex_shutdown (executor o)) eqn:Hsh.
    + rewrite (submit_shutdown _ _ _ _ _ _ Ho Hsh) in H. inversion H; subst.
      apply R_refl.
    + rewrite (submit_eq _ _ _ _ _ _ Ho Hsh) in H. inversion H; subst.
      by apply R_submit.
  - unfold submit, bind, get_self in H. rewrite Ho in H. discriminate.
Qed.

Lemma keeps_env_action a : env_allowed allowed a -> keeps R (env_action a).
Proof.
  destruct a; simpl; intros Hal; apply keeps_swallow.
  - apply keeps_worker_starts.
  - apply keeps_worker_finishes.
  - by apply keeps_submit.
  - apply keeps_wlog.
Qed.

Lemma keeps_env_actions l :
  Forall (env_allowed allowed) l -> keeps R (env_actions l).
Proof.
  induction 1 as [|a l Ha _ IH]; simpl; [apply keeps_ret|].
  apply keeps_bind; [by apply keeps_env_action | intros _; exact IH].
Qed.

(** Polling a group reads the state and leaves it as it is. *)
Lemma done_list_state l w w' r : done_list l w = Some (w', r) -> w' = w.
Proof.
  revert w w' r. induction l as [|i l IH]; simpl; intros w w' r H.
  - by inversion H.
  - unfold bind at 1, get_future in H.
    destruct (futures w !! i) as [f|]; [|discriminate].
    apply bind_inv in H as [(w1 & a & H1 & H2)|(e & H1 & _)].
    + inversion H2; subst. eauto.
    + eauto.
Qed.

Lemma poll_state self g w w' r : poll self g w = Some (w', r) -> w' = w.
Proof.
  unfold poll, bind, get_self. destruct (objs w !! self) as [o|]; [|discriminate].
  destruct (tasks o !! g) as [l|].
  - apply done_list_state.
  - intros H. by inversion H.
Qed.

Lemma keeps_poll self g : keeps R (poll self g).
Proof. intros w w' r H. apply poll_state in H as ->. apply R_refl. Qed.

Hypothesis R_sleep : forall ms w, R w (set_slept_ms ms w).
Hypothesis R_files : forall files w, R w (set_fs files w).

Lemma keeps_wait_loop self g sched :
  sched_allowed allowed sched -> forall queue, keeps R (wait_loop self g sched queue).
Proof.
  induction 1 as [|l sched Hl _ IH]; intros queue; simpl;
    destruct (decide (false ∈ queue)); try apply keeps_ret.
  apply keeps_bind; [|intros _].
  { intros w w' r H. inversion H; subst. apply R_sleep. }
  apply keeps_bind; [by apply keeps_env_actions | intros _].
  apply keeps_bind; [apply keeps_poll | exact IH].
Qed.

Lemma keeps_wait self g sched :
  sched_allowed allowed sched -> keeps R (wait self g sched).
Proof.
  intros Hs. unfold wait. apply keeps_bind; [apply keeps_get_self|].
  intros o. destruct (decide (tasks o !! g = None)); [apply keeps_ret|].
  apply keeps_bind; [apply keeps_poll | by apply keeps_wait_loop].
Qed.

Lemma keeps_get_logs self : keeps R (get_logs self).
Proof.
  unfold get_logs. apply keeps_bind; [apply keeps_get_self|].
  intros o. destruct (log_file o) as [p|]; [|apply keeps_raise].
  apply keeps_bind.
  - intros w w' r H. inversion H; subst. apply R_refl.
  - intros w0. destruct (fs w0 !! p); [apply keeps_ret | apply keeps_raise].
Qed.

Lemma keeps_clear_logs self : keeps R (clear_logs self).
Proof.
  unfold clear_logs. apply keeps_bind; [apply keeps_get_self|].
  intros o. destruct (log_file o) as [p|]; [|apply keeps_raise].
  intros w w' r H. inversion H; subst. apply R_files.
Qed.

Lemma keeps_void {A} (m : M A) : keeps R m -> keeps R (void m).
Proof. intros Hm. apply keeps_bind; [exact Hm | intros _; apply keeps_ret]. Qed.

(** Every call but [reconfigure] keeps [R], when it submits only where
    allowed. *)
Lemma keeps_call self op :
  ~ is_reconfigure op -> op_allowed allowed self op -> keeps R (call self op).
Proof.
  intros Hnr Hal. destruct op; simpl in *; try apply keeps_wlog.
  - by apply keeps_void, keeps_submit.
  - apply keeps_void, keeps_get_logs.
  - apply keeps_void, keeps_poll.
  - unfold debug. apply keeps_bind; [apply keeps_get_self|].
    intros o. destruct (debug_mode o); [apply keeps_wlog | apply keeps_ret].
  - apply keeps_void. unfold timer. apply keeps_bind; [apply keeps_lift|].
    intros v. apply keeps_bind; [apply keeps_wlog | intros _; apply keeps_ret].
  - by apply keeps_void, keeps_wait.
  - apply keeps_clear_logs.
  - tauto.
Qed.

End Keeps.

(** ** The process only moves on *)

Lemma tasks_grow_refl t : tasks_grow t t.
Proof. intros g l H. eauto. Qed.

Lemma tasks_grow_trans t1 t2 t3 :
  tasks_grow t1 t2 -> tasks_grow t2 t3 -> tasks_grow t1 t3.
Proof.
  intros H12 H23 g l H. destruct (H12 g l H) as (l2 & H2 & P2).
  destruct (H23 g l2 H2) as (l3 & H3 & P3). exists l3. split; [done|].
  by etrans.
Qed.

Lemma tasks_grow_append t g fid :
  tasks_grow t (<[g := default [] (t !! g) ++ [fid]]> t).
Proof.
  intros g' l H. destruct (decide (g = g')) as [->|Hne].
  - rewrite lookup_insert_eq, H. simpl. eexists. split; [done|].
    by apply prefix_app_r.
  - rewrite lookup_insert_ne by done. eauto.
Qed.

Lemma evolves_refl w : evolves w w.
Proof. split; intros; eauto using tasks_grow_refl. Qed.

Lemma evolves_trans w1 w2 w3 : evolves w1 w2 -> evolves w2 w3 -> evolves w1 w3.
Proof.
  intros [Ho12 Hf12] [Ho23 Hf23]. split.
  - intros a o H. destruct (Ho12 a o H) as (o2 & H2 & G2).
    destruct (Ho23 a o2 H2) as (o3 & H3 & G3). exists o3.
    eauto using tasks_grow_trans.
  - intros fid f H. destruct (Hf12 fid f H) as (f2 & H2 & D2).
    destruct (Hf23 fid f2 H2) as (f3 & H3 & D3). eauto.
Qed.

Lemma evolves_emit self o line pl w :
  objs w !! self = Some o -> evolves w (emit self o line pl w).
Proof.
  intros Ho. split; simpl; [|eauto].
  intros a o1 H. destruct (keep_in_memory o); [|eauto using tasks_grow_refl].
  destruct (decide (self = a)) as [->|Hne].
  - rewrite lookup_insert_eq. eexists. split; [done|].
    assert (o1 = o) as -> by congruence. apply tasks_grow_refl.
  - rewrite lookup_insert_ne by done. eauto using tasks_grow_refl.
Qed.

Lemma evolves_future fid f f' w :
  futures w !! fid = Some f -> (done f = true -> done f' = true) ->
  evolves w (set_futures (<[fid := f']> (futures w)) w).
Proof.
  intros Hf Hd. split; simpl; [eauto using tasks_grow_refl|].
  intros fid1 f1 H. destruct (decide (fid = fid1)) as [->|Hne].
  - rewrite list_lookup_insert_eq by (eapply lookup_lt_Some; eauto).
    eexists. split; [done|]. assert (f1 = f) as -> by congruence. done.
  - rewrite list_lookup_insert_ne by done. eauto.
Qed.

Lemma evolves_submit self o work g w :
  objs w !! self = Some o -> anywhere self g ->
  evolves w (submitted self o work g w).
Proof.
  intros Ho _. split; simpl.
  - intros a o1 H. destruct (decide (self = a)) as [->|Hne].
    + rewrite lookup_insert_eq. eexists. split; [done|]. simpl.
      assert (o1 = o) as -> by congruence. apply tasks_grow_append.
    + rewrite lookup_insert_ne by done. eauto using tasks_grow_refl.
  - intros fid f H. exists f. split; [|done].
    rewrite lookup_app_l; [done|]. eapply lookup_lt_Some; eauto.
Qed.

Lemma evolves_sleep ms w : evolves w (set_slept_ms ms w).
Proof. split; simpl; eauto using tasks_grow_refl. Qed.

Lemma evolves_files files w : evolves w (set_fs files w).
Proof. split; simpl; eauto using tasks_grow_refl. Qed.

Lemma sched_anywhere sched : sched_allowed anywhere sched.
Proof.
  unfold sched_allowed. apply Forall_forall. intros l _. apply Forall_forall.
  intros a _. destruct a; exact I.
Qed.

Lemma op_anywhere self op : op_allowed anywhere self op.
Proof. destruct op; simpl; try exact I. apply sched_anywhere. Qed.

Lemma evolves_call self op : ~ is_reconfigure op -> keeps evolves (call self op).
Proof.
  intros Hnr.
  apply (keeps_call evolves anywhere evolves_refl evolves_trans
           evolves_emit evolves_future evolves_submit evolves_sleep
           evolves_files); [done | apply op_anywhere].
Qed.

(** ** Snapshots of a group *)

Lemma same_slept_env_actions l : keeps same_slept (env_actions l).
Proof.
  apply (keeps_env_actions same_slept anywhere); unfold same_slept; simpl; try done.
  - intros a b c H1 H2. congruence.
  - apply Forall_forall. intros a _. destruct a; exact I.
Qed.

(** A snapshot without [False] means every future of the list is done. *)
Lemma done_list_all l w w' q :
  done_list l w = Some (w', Ok q) -> false ∉ q ->
  forall fid, fid ∈ l -> reports_done w fid.
Proof.
  revert q. induction l as [|i l IH]; simpl; intros q H Hq fid Hin.
  - by apply elem_of_nil in Hin.
  - unfold bind at 1, get_future in H.
    destruct (futures w !! i) as [f|] eqn:Hf; [|discriminate].
    apply bind_inv in H as [(w1 & q1 & H1 & H2)|(e & _ & ?)]; [|discriminate].
    inversion H2; subst. pose proof (done_list_state _ _ _ _ H1) as ->.
    apply elem_of_cons in Hin as [->|Hin].
    + exists f. split; [done|]. destruct (done f) eqn:Hd; [done|].
      exfalso. apply Hq. apply elem_of_cons. by left.
    + eapply IH; eauto. intros Hfalse. apply Hq. apply elem_of_cons. by right.
Qed.

Lemma poll_all self g w w' q :
  poll self g w = Some (w', Ok q) -> false ∉ q ->
  exists o l, objs w !! self = Some o /\ tasks o !! g = Some l
    /\ forall fid, fid ∈ l -> reports_done w fid.
Proof.
  unfold poll, bind, get_self. destruct (objs w !! self) as [o|]; [|discriminate].
  destruct (tasks o !! g) as [l|] eqn:Hg; [|discriminate].
  intros H Hq. exists o, l. eauto using done_list_all.
Qed.

(** A snapshot of futures that are all done has no [False]. *)
Lemma done_list_ready l w :
  (forall fid, fid ∈ l -> reports_done w fid) ->
  exists q, done_list l w = Some (w, Ok q) /\ false ∉ q.
Proof.
  induction l as [|i l IH]; intros Hall; simpl.
  - exists []. split; [reflexivity|]. apply not_elem_of_nil.
  - destruct (Hall i) as (f & Hf & Hd); [apply elem_of_cons; by left|].
    destruct IH as (q & Hq & Hnf).
    { intros fid Hin. apply Hall. apply elem_of_cons. by right. }
    exists (true :: q). split.
    + rewrite (bind_ok _ _ _ _ _ (get_future_ok _ _ _ Hf)).
      rewrite (bind_ok _ _ _ _ _ Hq). by rewrite Hd.
    + intros Hin. apply elem_of_cons in Hin as [?|?]; [discriminate | done].
Qed.

(** ** Construction and reconfiguration, in one step *)

Lemma fresh_unused (w : World) : objs w !! fresh (dom (objs w)) = None.
Proof. apply not_elem_of_dom, is_fresh. Qed.

(** A positive worker count gives a new, fully configured instance. *)
Lemma new_ok a w :
  0 < max_workers_of a (cpu_count w) ->
  new a w
  = Some (mkWorld
            (<[fresh (dom (objs w)) :=
                 configured a (cpu_count w)
                   (mkExecutor (a_use_process_pool a)
                      (max_workers_of a (cpu_count w)) false)]> (objs w))
            (futures w) (touched (a_log_file a) (fs w)) (stdout w)
            (callback_calls w) (slept_ms w) (cpu_count w),
          Ok (fresh (dom (objs w)))).
Proof.
  intros Hpos. unfold new.
  erewrite init_eq by (simpl; apply lookup_insert_eq). simpl.
  destruct (decide (max_workers_of a (cpu_count w) <= 0)); [lia|].
  by rewrite insert_insert_eq.
Qed.

(** A worker count that is not positive makes the constructor raise: no
    instance is created (the log file, if any, has been touched). *)
Lemma new_fails a w :
  max_workers_of a (cpu_count w) <= 0 ->
  new a w
  = Some (mkWorld (objs w) (futures w) (touched (a_log_file a) (fs w))
            (stdout w) (callback_calls w) (slept_ms w) (cpu_count w),
          Raise (ValueError "max_workers must be greater than 0")).
Proof.
  intros Hle. unfold new.
  erewrite init_eq by (simpl; apply lookup_insert_eq). simpl.
  destruct (decide (max_workers_of a (cpu_count w) <= 0)); [|lia].
  unfold set_objs. simpl.
  rewrite insert_insert_eq, delete_insert_id by apply fresh_unused. done.
Qed.

(** [reconfigure] leaves the group table with the empty default group
    alone, whether the new executor could be built or not. *)
Lemma reconfigure_eq self a w o :
  objs w !! self = Some o ->
  exists ex r,
    reconfigure self a w
    = Some (mkWorld (<[self := configured a (cpu_count w) ex]> (objs w))
              (futures w) (touched (a_log_file a) (fs w)) (stdout w)
              (callback_calls w) (slept_ms w) (cpu_count w), r).
Proof.
  intros Ho. unfold reconfigure.
  rewrite (bind_ok _ _ _ _ _ (modify_ok _ _ _ _ Ho)).
  erewrite init_eq by (simpl; apply lookup_insert_eq). simpl.
  rewrite insert_insert_eq. eauto.
Qed.

(** ** The default worker count *)

(** C7, as amended.  When no worker count is given, the pool gets the
    host's logical CPU count minus two, and no floor is applied: on a host
    with three or more logical CPUs construction succeeds with that count,
    on a host with two or fewer the executor rejects the count and no
    instance is created. *)
Theorem default_worker_count_no_floor a w :
  a_max_workers a = None ->
  (3 <= cpu_count w ->
   exists w' self o,
     new a w = Some (w', Ok self) /\ objs w' !! self = Some o
     /\ workers o = cpu_count w - 2
     /\ executor o = mkExecutor (a_use_process_pool a) (cpu_count w - 2) false)
  /\ (cpu_count w <= 2 ->
      exists w',
        new a w = Some (w', Raise (ValueError "max_workers must be greater than 0"))
        /\ objs w' = objs w).
Proof.
  intros Hnone.
  assert (Hmw : max_workers_of a (cpu_count w) = cpu_count w - 2).
  { unfold max_workers_of, default_max_workers. by rewrite Hnone. }
  split; intros Hcpu.
  - rewrite new_ok by lia. do 3 eexists. split; [reflexivity|]. simpl.
    rewrite lookup_insert_eq. split; [reflexivity|]. simpl.
    rewrite Hmw. done.
  - rewrite new_fails by lia. eexists. split; [reflexivity|]. done.
Qed.

(** C7, as stated, fails: on a host with two logical CPUs the default
    construction raises, so the count is not floored at 1. *)
Lemma default_worker_count_two_cpus :
  new default_args (host 2 ∅)
  = Some (host 2 ∅, Raise (ValueError "max_workers must be greater than 0"))
  /\ ~ (exists w' self o,
          new default_args (host 2 ∅) = Some (w', Ok self)
          /\ objs w' !! self = Some o /\ workers o = Z.max 1 (2 - 2)).
Proof.
  assert (H : new default_args (host 2 ∅)
              = Some (host 2 ∅, Raise (ValueError "max_workers must be greater than 0"))).
  { rewrite new_fails by (vm_compute; discriminate). reflexivity. }
  split; [exact H|]. intros (w' & self & o & H' & _). rewrite H in H'. discriminate.
Qed.

(** ** What [submit] returns *)

(** C1, on the code.  On a live executor [submit] schedules the call as a
    new pending future carrying the done-callback and appends that future
    to the sequence of the named group, which it creates when absent; but
    it returns [None], not the handle. *)
Theorem submit_returns_none self ctx work g w o :
  objs w !! self = Some o ->
  ex_shutdown (executor o) = false ->
  exists w' o',
    submit self ctx work g w = Some (w', Ok VNone)
    /\ futures w' !! length (futures w)
       = Some (mkFuture work (ex_process (executor o)) PENDING None None
                 [worker_callbacks_fn])
    /\ objs w' !! self = Some o'
    /\ tasks o' !! g = Some (default [] (tasks o !! g) ++ [length (futures w)]).
Proof.
  intros Ho Hlive. rewrite (submit_eq _ _ _ _ _ _ Ho Hlive).
  do 2 eexists. split; [reflexivity|]. unfold submitted. simpl.
  split; [apply lookup_snoc_new|].
  split; [apply lookup_insert_eq|]. simpl. apply lookup_insert_eq.
Qed.

(** ** The format and the sinks of a line *)

(** An instance that [__init__] has configured holds a one-element tuple
    as [simple_log], which is true whatever the flag was. *)
Lemma configured_simple_log_truthy a cpus ex :
  truthy (simple_log (configured a cpus ex)) = true.
Proof. reflexivity. Qed.

Lemma new_configured a w w' self :
  new a w = Some (w', Ok self) ->
  exists ex, objs w' !! self = Some (configured a (cpu_count w) ex)
    /\ stdout w' = stdout w.
Proof.
  intros H. destruct (decide (max_workers_of a (cpu_count w) <= 0)).
  - rewrite new_fails in H by done. discriminate.
  - rewrite new_ok in H by lia. inversion H; subst. simpl.
    rewrite lookup_insert_eq. eauto.
Qed.

(** C2, on the code.  On an instance constructed with the simplified
    format flag false, a line at a level other than critical and time is
    the level tag and the message alone: no timestamp, file or function. *)
Theorem simple_flag_false_still_simplified a w w1 self ctx content tipo :
  a_simple_log a = false ->
  new a w = Some (w1, Ok self) ->
  tipo <> "[critical]" -> tipo <> "[time]" ->
  exists w2,
    wlog self ctx content tipo true w1 = Some (w2, Ok tt)
    /\ stdout w2 = stdout w1 ++ [tipo +:+ " - " +:+ content].
Proof.
  intros _ Hnew Hc Ht. destruct (new_configured _ _ _ _ Hnew) as (ex & Ho & _).
  rewrite (wlog_eq _ _ _ _ _ _ _ Ho). eexists. split; [reflexivity|]. simpl.
  unfold log_line. apply String.eqb_neq in Hc, Ht. rewrite Hc, Ht. done.
Qed.

(** C3, on the code.  On an instance constructed with the console flag
    false, every level method still prints its line: [wlog] tests its own
    parameter, which the level methods leave at its default. *)
Theorem print_flag_false_still_prints a w w1 self ctx content :
  a_print_log a = false ->
  new a w = Some (w1, Ok self) ->
  exists o, objs w1 !! self = Some o /\ print_log o = false
  /\ (exists w2, info self ctx content w1 = Some (w2, Ok tt)
        /\ stdout w2 = stdout w1 ++ [log_line o ctx content "[info]"])
  /\ (exists w2, warn self ctx content w1 = Some (w2, Ok tt)
        /\ stdout w2 = stdout w1 ++ [log_line o ctx content "[warning]"])
  /\ (exists w2, time self ctx content w1 = Some (w2, Ok tt)
        /\ stdout w2 = stdout w1 ++ [log_line o ctx content "[time]"])
  /\ (exists w2, critical self ctx content w1 = Some (w2, Ok tt)
        /\ stdout w2 = stdout w1 ++ [log_line o ctx content "[critical]"]).
Proof.
  intros Hflag Hnew. destruct (new_configured _ _ _ _ Hnew) as (ex & Ho & _).
  eexists. split; [exact Ho|]. split; [exact Hflag|].
  unfold info, warn, time, critical.
  repeat split; rewrite (wlog_eq _ _ _ _ _ _ _ Ho); eexists; split;
    reflexivity.
Qed.

(** ** Groups no one has submitted to *)

Section Absent.

Variable self : nat.
Variable G : string.

Lemma still_absent_refl w : still_absent self G w w.
Proof. intros o Ho Hg. eauto. Qed.

Lemma still_absent_trans w1 w2 w3 :
  still_absent self G w1 w2 -> still_absent self G w2 w3 ->
  still_absent self G w1 w3.
Proof.
  intros H12 H23 o Ho Hg. destruct (H12 o Ho Hg) as (o2 & Ho2 & Hg2). eauto.
Qed.

Lemma still_absent_emit a o line pl w :
  objs w !! a = Some o -> still_absent self G w (emit a o line pl w).
Proof.
  intros Ha o1 Ho Hg. simpl. destruct (keep_in_memory o); [|eauto].
  destruct (decide (a = self)) as [->|Hne].
  - rewrite lookup_insert_eq. eexists. split; [done|]. simpl. congruence.
  - rewrite lookup_insert_ne by done. eauto.
Qed.

Lemma still_absent_future fid f f' w :
  futures w !! fid = Some f -> (done f = true -> done f' = true) ->
  still_absent self G w (set_futures (<[fid := f']> (futures w)) w).
Proof. intros _ _ o Ho Hg. simpl. eauto. Qed.

Lemma still_absent_submit a o work g w :
  objs w !! a = Some o -> not_to self G a g ->
  still_absent self G w (submitted a o work g w).
Proof.
  intros Ha Hal o1 Ho Hg. simpl. destruct (decide (a = self)) as [->|Hne].
  - rewrite lookup_insert_eq. eexists. split; [done|]. simpl.
    assert (o1 = o) as -> by congruence.
    rewrite lookup_insert_ne; [done|]. intros ->. apply Hal. done.
  - rewrite lookup_insert_ne by done. eauto.
Qed.

Lemma still_absent_objs w w' :
  objs w' !! self = objs w !! self -> still_absent self G w w'.
Proof. intros Heq o Ho Hg. rewrite Heq. eauto. Qed.

Lemma still_absent_call a op :
  ~ is_reconfigure op -> op_allowed (not_to self G) a op ->
  keeps (still_absent self G) (call a op).
Proof.
  apply (keeps_call (still_absent self G) (not_to self G) still_absent_refl
           still_absent_trans still_absent_emit still_absent_future
           still_absent_submit).
  - intros ms w. by apply still_absent_objs.
  - intros files w. by apply still_absent_objs.
Qed.

Hypothesis G_not_default : G <> "default".

Lemma still_absent_reconfigure a args :
  keeps (still_absent self G) (reconfigure a args).
Proof.
  intros w w' r H. destruct (objs w !! a) as [o|] eqn:Ha.
  - destruct (reconfigure_eq a args w o Ha) as (ex & r' & Heq).
    rewrite Heq in H. inversion H; subst. intros o1 Ho Hg. simpl.
    destruct (decide (a = self)) as [->|Hne].
    + rewrite lookup_insert_eq. eexists. split; [done|]. simpl.
      by apply lookup_singleton_ne.
    + rewrite lookup_insert_ne by done. eauto.
  - unfold reconfigure, bind, modify in H. rewrite Ha in H. discriminate.
Qed.

Lemma still_absent_new args : keeps (still_absent self G) (new args).
Proof.
  intros w w' r H. destruct (decide (max_workers_of args (cpu_count w) <= 0)).
  - rewrite new_fails in H by done. inversion H; subst.
    by apply still_absent_objs.
  - rewrite new_ok in H by lia. inversion H; subst. intros o Ho Hg. simpl.
    rewrite lookup_insert_ne; [eauto|]. intros Heq.
    pose proof (fresh_unused w) as Hf. rewrite Heq in Hf. congruence.
Qed.

Lemma still_absent_event ev :
  event_allowed (not_to self G) ev -> keeps (still_absent self G) (event ev).
Proof.
  intros Hal. destruct ev as [a op|args|a]; simpl in *.
  - destruct op; try (apply still_absent_call; [simpl; tauto | exact Hal]).
    apply still_absent_reconfigure.
  - intros w w' r H. unfold void in H.
    apply bind_inv in H as [(w1 & x & H1 & H2)|(e & H1 & _)].
    + inversion H2; subst. eapply still_absent_new; eauto.
    + eapply still_absent_new; eauto.
  - apply (keeps_env_action (still_absent self G) (not_to self G)
             still_absent_refl still_absent_trans still_absent_emit
             still_absent_future still_absent_submit). exact Hal.
Qed.

Lemma still_absent_run evs : forall w w',
  Forall (event_allowed (not_to self G)) evs ->
  run evs w = Some w' -> still_absent self G w w'.
Proof.
  induction evs as [|ev evs IH]; simpl; intros w w' Hall H.
  - inversion H; subst. apply still_absent_refl.
  - inversion Hall as [|? ? Hev Hevs]; subst.
    destruct (event ev w) as [[w1 r]|] eqn:E; [|discriminate].
    eapply still_absent_trans; [eapply still_absent_event; eauto | eauto].
Qed.

End Absent.

(** C6, as amended.  Take an instance just constructed and any history of
    the process in which nothing is submitted to group [G] of that
    instance, [G] not being the default group.  Then [wait(G)] returns at
    once and changes nothing, while [get_queue(G)] raises [KeyError]. *)
Theorem unknown_group_wait_returns_get_queue_raises
    a w0 w1 self G evs w sched :
  G <> "default" ->
  new a w0 = Some (w1, Ok self) ->
  Forall (event_allowed (not_to self G)) evs ->
  run evs w1 = Some w ->
  wait self G sched w = Some (w, Ok Returned)
  /\ get_queue self G w = Some (w, Raise (KeyError G)).
Proof.
  intros HG Hnew Hevs Hrun.
  destruct (new_configured _ _ _ _ Hnew) as (ex & Ho & _).
  destruct (still_absent_run self G HG evs w1 w Hevs Hrun _ Ho) as (o & Ho' & Hg).
  { simpl. by apply lookup_singleton_ne. }
  split.
  - unfold wait. rewrite (bind_ok _ _ _ _ _ (get_self_ok _ _ _ Ho')).
    rewrite decide_True by done. reflexivity.
  - unfold get_queue, poll.
    rewrite (bind_ok _ _ _ _ _ (get_self_ok _ _ _ Ho')), Hg. reflexivity.
Qed.

(** C6, as stated, fails for the default group, which exists from
    construction: on an instance that was never submitted to,
    [get_queue("default")] returns the empty list. *)
Lemma default_group_never_used_is_known :
  exists w,
    new default_args (host 8 ∅) = Some (w, Ok control)
    /\ run [] w = Some w
    /\ get_queue control "default" w = Some (w, Ok [])
    /\ get_queue control "default" w <> Some (w, Raise (KeyError "default")).
Proof.
  eexists. split; [vm_compute; reflexivity|]. split; [reflexivity|].
  split; [vm_compute; reflexivity|]. vm_compute. discriminate.
Qed.

(** ** The group table *)

Lemma same_tables_refl w : same_tables w w.
Proof. intros a o H. eauto. Qed.

Lemma same_tables_trans w1 w2 w3 :
  same_tables w1 w2 -> same_tables w2 w3 -> same_tables w1 w3.
Proof.
  intros H12 H23 a o H. destruct (H12 a o H) as (o2 & H2 & E2).
  destruct (H23 a o2 H2) as (o3 & H3 & E3). exists o3. split; congruence.
Qed.

Lemma same_tables_emit self o line pl w :
  objs w !! self = Some o -> same_tables w (emit self o line pl w).
Proof.
  intros Ho a o1 H. simpl. destruct (keep_in_memory o); [|eauto].
  destruct (decide (self = a)) as [->|Hne].
  - rewrite lookup_insert_eq. eexists. split; [done|]. simpl. congruence.
  - rewrite lookup_insert_ne by done. eauto.
Qed.

Lemma same_tables_objs w w' : objs w' = objs w -> same_tables w w'.
Proof. intros Heq a o H. rewrite Heq. eauto. Qed.

Lemma same_tables_call self op :
  ~ is_reconfigure op -> op_allowed nowhere self op ->
  keeps same_tables (call self op).
Proof.
  apply (keeps_call same_tables nowhere same_tables_refl same_tables_trans
           same_tables_emit).
  - intros fid f f' w _ _. by apply same_tables_objs.
  - intros a o work g w _ [].
  - intros ms w. by apply same_tables_objs.
  - intros files w. by apply same_tables_objs.
Qed.

(** C8, as amended.  A new instance has the empty default group and no
    other.  For a call [op] on an instance whose table has the default
    group: afterwards the default group is still there, also after
    [reconfigure]; unless the call is [reconfigure], every sequence of the
    table is a prefix of what it becomes, so nothing is removed or
    reordered; a successful [submit] to [g] changes the table only at [g],
    where the new future comes after the earlier ones (alone when [g] was
    absent); a call that makes no submission and is not [reconfigure]
    leaves the table as it is, so only submissions create groups; and
    [reconfigure] resets the table to the empty default group. *)
Theorem group_table_grows_until_reconfigure :
  (forall a w w1 self,
     new a w = Some (w1, Ok self) ->
     exists o, objs w1 !! self = Some o /\ tasks o = {["default" := []]})
  /\ (forall self op w w' r o,
        objs w !! self = Some o ->
        is_Some (tasks o !! "default") ->
        call self op w = Some (w', r) ->
        exists o',
          objs w' !! self = Some o'
          /\ is_Some (tasks o' !! "default")
          /\ (~ is_reconfigure op -> tasks_grow (tasks o) (tasks o'))
          /\ (forall ctx work g, op = OpSubmit ctx work g -> r = Ok tt ->
                tasks o'
                = <[g := default [] (tasks o !! g) ++ [length (futures w)]]> (tasks o))
          /\ (~ is_reconfigure op -> op_allowed nowhere self op ->
              tasks o' = tasks o)
          /\ (is_reconfigure op -> tasks o' = {["default" := []]})).
Proof.
  split.
  { intros a w w1 self Hnew.
    destruct (new_configured _ _ _ _ Hnew) as (ex & Ho & _). eauto. }
  intros self op w w' r o.
  intros Ho Hd H.
  assert (is_reconfigure op \/ ~ is_reconfigure op) as [Hr|Hnr]
    by (destruct op; simpl; tauto).
  - destruct op; simpl in Hr; try tauto. simpl in H.
    destruct (reconfigure_eq self a w o Ho) as (ex & r' & Heq).
    rewrite Heq in H. inversion H; subst. simpl. rewrite lookup_insert_eq.
    eexists. split; [done|]. simpl.
    split; [rewrite lookup_singleton_eq; eauto|].
    repeat split; try tauto. intros; discriminate.
  - pose proof (evolves_call self op Hnr _ _ _ H) as [Hobjs _].
    destruct (Hobjs _ _ Ho) as (o' & Ho' & Hgrow).
    exists o'. split; [done|].
    split. { destruct Hd as [l Hl]. destruct (Hgrow _ _ Hl) as (l' & -> & _). eauto. }
    split; [done|]. split; [|split; [|tauto]].
    + intros ctx work g -> Hok. simpl in H. unfold void in H.
      destruct (ex_shutdown (executor o)) eqn:Hsh.
      * unfold bind in H. rewrite (submit_shutdown _ _ _ _ _ _ Ho Hsh) in H.
        inversion H; subst. discriminate.
      * apply bind_inv in H as [(w1 & v & H1 & H2)|(e & _ & ?)]; [|congruence].
        rewrite (submit_eq _ _ _ _ _ _ Ho Hsh) in H1. inversion H1; subst.
        inversion H2; subst. simpl in Ho'. rewrite lookup_insert_eq in Ho'.
        by inversion Ho'.
    + intros _ Hal. destruct (same_tables_call self op Hnr Hal _ _ _ H _ _ Ho)
        as (o2 & Ho2 & Heq). congruence.
Qed.

(** ** Failing tasks *)

Lemma append_assoc (a b c : string) : (a +:+ b) +:+ c = a +:+ b +:+ c.
Proof.
  induction a as [|x a IH]; [reflexivity|].
  change (String x ((a +:+ b) +:+ c) = String x (a +:+ b +:+ c)). by rewrite IH.
Qed.

Lemma append_empty_r (a : string) : a +:+ "" = a.
Proof.
  induction a as [|x a IH]; [reflexivity|].
  change (String x (a +:+ "") = String x a). by rewrite IH.
Qed.

Lemma contains_here x post : contains x (x +:+ post).
Proof. exists "", post. reflexivity. Qed.

Lemma contains_end x : contains x x.
Proof. exists "", "". simpl. by rewrite append_empty_r. Qed.

Lemma contains_skip x pre s : contains x s -> contains x (pre +:+ s).
Proof.
  intros (p & q & ->). exists (pre +:+ p), q. by rewrite append_assoc.
Qed.

Lemma contains_within x y s : contains x y -> contains y s -> contains x s.
Proof.
  intros (p & q & ->) (p' & q' & ->). exists (p' +:+ p), (q +:+ q').
  by rewrite !append_assoc.
Qed.

Ltac find_in_line :=
  repeat first [ apply contains_here | apply contains_end | apply contains_skip ].

(** The loop over [enumerate(trace)] writes the entries in order. *)
Lemma trace_loop acc key trace :
  fold_left (fun a ki => a +:+ trace_entry ki.1 ki.2)
    (zip (seq key (length trace)) trace) acc
  = acc +:+ trace_cat key trace.
Proof.
  revert acc key. induction trace as [|i rest IH]; intros acc key.
  - simpl. by rewrite append_empty_r.
  - cbn [length seq zip zip_with fold_left trace_cat]. rewrite IH.
    cbn [fst snd]. by rewrite append_assoc.
Qed.

Lemma trace_str_of_cat trace : trace_str_of trace = trace_cat 0 trace.
Proof. unfold trace_str_of, enumerate. by rewrite trace_loop. Qed.

Lemma trace_cat_entry trace : forall key k fr,
  trace !! k = Some fr ->
  contains (trace_entry (key + k) fr) (trace_cat key trace).
Proof.
  induction trace as [|i rest IH]; intros key k fr H; [done|].
  destruct k as [|k]; simpl in *.
  - inversion H; subst. rewrite Nat.add_0_r. apply contains_here.
  - apply contains_skip. replace (key + S k)%nat with (S key + k)%nat by lia.
    by apply IH.
Qed.

(** Deciding [contains]. *)
Lemma starts_with_here p post : starts_with p (p +:+ post) = true.
Proof.
  induction p as [|a p IH]; [reflexivity|].
  change (String a p +:+ post) with (String a (p +:+ post)).
  cbn [starts_with]. by rewrite Ascii.eqb_refl, IH.
Qed.

Lemma occurs_eq sub s :
  occurs sub s
  = starts_with sub s || match s with "" => false | String _ s' => occurs sub s' end.
Proof. by destruct s. Qed.

Lemma contains_occurs sub s : contains sub s -> occurs sub s = true.
Proof.
  intros (pre & post & ->). induction pre as [|a pre IH].
  - rewrite occurs_eq. change ("" +:+ sub +:+ post) with (sub +:+ post).
    by rewrite starts_with_here.
  - change (String a pre +:+ sub +:+ post) with (String a (pre +:+ sub +:+ post)).
    rewrite occurs_eq, IH. apply orb_true_r.
Qed.

(** C4, as amended.  Submit a call that raises [e] through an instance
    with a live thread pool, and let a worker take it and end it.  The
    handle is then done and its [exception()] is [e], the error raised.
    Exactly one line has been emitted, the critical one, to the sinks of the
    module-level [control]: the console, and its memory, file and callback
    where it has them; the line holds the type name, the message and, in
    order, one bracketed entry per frame of the traceback.  Every other
    instance, every future submitted before, and the executor and group
    table of every instance are as [submit] left them; and every live pool
    still takes a call and runs it to its end. *)
Theorem failing_task_reported_once self ctx ctx' e g w o c :
  objs w !! self = Some o ->
  ex_shutdown (executor o) = false ->
  ex_process (executor o) = false ->
  objs w !! control = Some c ->
  let fid := length (futures w) in
  let line := critical_line ctx' (failure_message e) in
  exists w1 w2 w3 c3,
    submit self ctx (Raise e) g w = Some (w1, Ok VNone)
    /\ worker_starts fid w1 = Some (w2, Ok tt)
    /\ worker_finishes fid ctx' w2 = Some (w3, Ok tt)
    /\ exception fid w3 = Some (w3, Ok (Some e))
    /\ reports_done w3 fid
    /\ stdout w3 = stdout w ++ [line]
    /\ objs w3 !! control = Some c3
    /\ memory c3 = (if keep_in_memory c then memory c ++ [line] else memory c)
    /\ fs w3
       = match log_file c with
         | Some p => <[p := default "" (fs w !! p) +:+ line +:+ newline]> (fs w)
         | None => fs w
         end
    /\ callback_calls w3
       = match callback c with
         | Some cb => callback_calls w ++ [(cb, line)]
         | None => callback_calls w
         end
    /\ contains "[critical]" line
    /\ contains (exc_type e) line
    /\ contains (exc_msg e) line
    /\ contains (" -> " +:+ trace_cat 0 (exc_traceback e)) line
    /\ (forall k fr, exc_traceback e !! k = Some fr ->
          contains (trace_entry k fr) line)
    /\ (forall a, a <> control -> objs w3 !! a = objs w1 !! a)
    /\ (forall a oa, objs w1 !! a = Some oa ->
          exists oa', objs w3 !! a = Some oa'
            /\ executor oa' = executor oa /\ tasks oa' = tasks oa)
    /\ (forall fid', (fid' < fid)%nat -> futures w3 !! fid' = futures w !! fid')
    /\ length (futures w3) = S fid
    /\ (forall a oa ctx2 ctx3 v g2,
          objs w3 !! a = Some oa -> ex_shutdown (executor oa) = false ->
          exists w4 w5 w6 f,
            submit a ctx2 (Ok v) g2 w3 = Some (w4, Ok VNone)
            /\ worker_starts (S fid) w4 = Some (w5, Ok tt)
            /\ worker_finishes (S fid) ctx3 w5 = Some (w6, Ok tt)
            /\ futures w6 !! S fid = Some f
            /\ done f = true /\ fut_result f = Some v).
Proof.
  intros Ho Hlive Hthread Hc fid line.
  set (f0 := mkFuture (Raise e) (ex_process (executor o)) PENDING None None
               [worker_callbacks_fn]).
  set (f1 := mkFuture (Raise e) (ex_process (executor o)) RUNNING None None
               [worker_callbacks_fn]).
  set (w1 := submitted self o (Raise e) g w).
  assert (H0 : futures w1 !! fid = Some f0) by apply lookup_snoc_new.
  set (w2 := set_futures (<[fid := f1]> (futures w1)) w1).
  assert (Hlt : (fid < length (futures w1))%nat) by (eapply lookup_lt_Some; eauto).
  assert (H1 : futures w2 !! fid = Some f1) by (by apply list_lookup_insert_eq).
  assert (Hrecv : received (fut_remote f1) e = e).
  { unfold f1. simpl. by rewrite Hthread. }
  assert (Hc1 : exists c1, objs w2 !! control = Some c1
            /\ keep_in_memory c1 = keep_in_memory c /\ memory c1 = memory c
            /\ log_file c1 = log_file c /\ callback c1 = callback c).
  { simpl. destruct (decide (self = control)) as [->|Hne].
    - rewrite lookup_insert_eq. eexists. split; [done|].
      assert (o = c) as -> by congruence. done.
    - rewrite lookup_insert_ne by done. by exists c. }
  destruct Hc1 as (c1 & Hc1 & Hk & Hm & Hl & Hcb).
  set (w3 := emit control c1 line true
               (set_futures (<[fid := failed f1 e]> (futures w2)) w2)).
  assert (H3 : worker_finishes fid ctx' w2 = Some (w3, Ok tt)).
  { rewrite (worker_finishes_failed fid ctx' w2 f1 e c1 H1) by done.
    by rewrite Hrecv. }
  assert (Hlen2 : length (futures w2) = S fid).
  { simpl. rewrite length_insert, length_app. simpl. unfold fid. lia. }
  assert (Hlt2 : (fid < length (futures w2))%nat) by (rewrite Hlen2; lia).
  assert (Hobjs : forall a oa, objs w1 !! a = Some oa ->
            exists oa', objs w3 !! a = Some oa'
              /\ executor oa' = executor oa /\ tasks oa' = tasks oa).
  { intros a oa H. unfold w3. cbn [emit objs]. change (objs w2) with (objs w1) in *.
    destruct (keep_in_memory c1); [|eauto].
    destruct (decide (control = a)) as [<-|Hne].
    - rewrite lookup_insert_eq. eexists. split; [done|].
      assert (oa = c1) as -> by congruence. done.
    - rewrite lookup_insert_ne by done. eauto. }
  exists w1, w2, w3.
  exists (if keep_in_memory c1 then set_memory (memory c1 ++ [line]) c1 else c1).
  split; [apply (submit_eq _ _ _ _ _ _ Ho Hlive)|].
  split; [apply (worker_starts_eq _ _ _ H0); reflexivity|].
  split; [exact H3|].
  split.
  { unfold exception, w3. cbn [emit futures set_futures].
    rewrite list_lookup_insert_eq by exact Hlt2.
    unfold failed. simpl. by rewrite Hthread. }
  split.
  { eexists. unfold w3. cbn [emit futures set_futures].
    split; [apply list_lookup_insert_eq; exact Hlt2 | reflexivity]. }
  split; [reflexivity|].
  split.
  { unfold w3. cbn [emit objs]. destruct (keep_in_memory c1);
      [apply lookup_insert_eq | exact Hc1]. }
  split. { rewrite <- Hk, <- Hm. by destruct (keep_in_memory c1). }
  split. { unfold w3. cbn [emit fs]. rewrite Hl. reflexivity. }
  split. { unfold w3. cbn [emit callback_calls]. rewrite Hcb. reflexivity. }
  split. { unfold line, critical_line. find_in_line. }
  split. { unfold line, critical_line, failure_message. find_in_line. }
  split. { unfold line, critical_line, failure_message. find_in_line. }
  split.
  { unfold line, critical_line, failure_message. rewrite trace_str_of_cat.
    find_in_line. }
  split.
  { intros k fr Hk'. unfold line, critical_line, failure_message.
    rewrite trace_str_of_cat.
    eapply contains_within; [apply (trace_cat_entry _ 0%nat _ _ Hk')|].
    find_in_line. }
  split.
  { intros a Ha. unfold w3. cbn [emit objs]. change (objs w2) with (objs w1).
    destruct (keep_in_memory c1); [|done]. by rewrite lookup_insert_ne. }
  split; [exact Hobjs|].
  split.
  { intros fid' Hlt'. unfold w3. cbn [emit futures set_futures].
    rewrite list_lookup_insert_ne by lia. unfold w2. cbn [futures set_futures].
    rewrite list_lookup_insert_ne by lia. simpl. by rewrite lookup_app_l. }
  assert (Hlen3 : length (futures w3) = S fid).
  { unfold w3. cbn [emit futures set_futures]. by rewrite length_insert. }
  split; [exact Hlen3|].
  intros a oa ctx2 ctx3 v g2 Ha Hla.
  destruct (returning_task_runs a oa ctx2 ctx3 v g2 w3 Ha Hla)
    as (w4 & w5 & w6 & f & E4 & E5 & E6 & Hf & Hd & Hr & _).
  rewrite Hlen3 in *. eauto 10.
Qed.

(** C10.  Let [I] be an instance other than the module-level [control],
    with a live executor, and submit through [I] a call that raises.  When
    a worker has run it, the critical line has gone to the sinks of
    [control], as [control] is configured: the console, the memory of
    [control] if it keeps one, its file and its callback if it has them.
    [I] itself is exactly as [submit] left it, its memory included; and
    when [control] has no log file and no callback, as the module creates
    it, no file and no callback receives the line. *)
Theorem failure_trace_goes_through_control I ctx ctx' e g w c i :
  I <> control ->
  objs w !! control = Some c ->
  objs w !! I = Some i ->
  ex_shutdown (executor i) = false ->
  let fid := length (futures w) in
  let line :=
    critical_line ctx' (failure_message (received (ex_process (executor i)) e)) in
  exists w1 w2 w3 i1,
    submit I ctx (Raise e) g w = Some (w1, Ok VNone)
    /\ worker_starts fid w1 = Some (w2, Ok tt)
    /\ worker_finishes fid ctx' w2 = Some (w3, Ok tt)
    /\ objs w1 !! I = Some i1 /\ objs w3 !! I = Some i1
    /\ memory i1 = memory i
    /\ objs w3 !! control
       = Some (if keep_in_memory c then set_memory (memory c ++ [line]) c else c)
    /\ stdout w3 = stdout w ++ [line]
    /\ fs w3
       = match log_file c with
         | Some p => <[p := default "" (fs w !! p) +:+ line +:+ newline]> (fs w)
         | None => fs w
         end
    /\ callback_calls w3
       = match callback c with
         | Some cb => callback_calls w ++ [(cb, line)]
         | None => callback_calls w
         end
    /\ (log_file c = None -> fs w3 = fs w)
    /\ (callback c = None -> callback_calls w3 = callback_calls w).
Proof.
  intros Hne Hc Hi Hlive fid line.
  set (f0 := mkFuture (Raise e) (ex_process (executor i)) PENDING None None
               [worker_callbacks_fn]).
  set (f1 := mkFuture (Raise e) (ex_process (executor i)) RUNNING None None
               [worker_callbacks_fn]).
  set (w1 := submitted I i (Raise e) g w).
  assert (H0 : futures w1 !! fid = Some f0) by apply lookup_snoc_new.
  set (w2 := set_futures (<[fid := f1]> (futures w1)) w1).
  assert (Hlt : (fid < length (futures w1))%nat) by (eapply lookup_lt_Some; eauto).
  assert (H1 : futures w2 !! fid = Some f1) by (by apply list_lookup_insert_eq).
  assert (Hc2 : objs w2 !! control = Some c).
  { simpl. by rewrite lookup_insert_ne. }
  exists w1, w2. do 2 eexists.
  split; [apply (submit_eq _ _ _ _ _ _ Hi Hlive)|].
  split; [apply (worker_starts_eq _ _ _ H0); reflexivity|].
  split.
  { apply (worker_finishes_failed fid ctx' w2 f1 e c H1); done. }
  simpl. split; [apply lookup_insert_eq|].
  split.
  { destruct (keep_in_memory c).
    - rewrite lookup_insert_ne by done. apply lookup_insert_eq.
    - apply lookup_insert_eq. }
  split; [reflexivity|].
  split.
  { destruct (keep_in_memory c).
    - apply lookup_insert_eq.
    - by rewrite lookup_insert_ne. }
  split; [reflexivity|]. split; [reflexivity|]. split; [reflexivity|].
  split; intros ->; reflexivity.
Qed.

(** ** Rotating the log file (legacy module) *)

Lemma name_char_not_space c : Legacy.name_char c = true -> Ascii.eqb c " " = false.
Proof.
  intros H. destruct (Ascii.eqb c " ") eqn:E; [|done].
  apply Ascii.eqb_eq in E. subst c. vm_compute in H. discriminate.
Qed.

(** A word without spaces goes whole into the current word. *)
Lemma split_words_name a : forall cur s,
  Legacy.all_chars Legacy.name_char a = true ->
  Legacy.split_words cur (a +:+ s) = Legacy.split_words (cur +:+ a) s.
Proof.
  induction a as [|c a IH]; intros cur s H.
  - by rewrite append_empty_r.
  - simpl in H. apply andb_true_iff in H as [Hc Ha].
    change (String c a +:+ s) with (String c (a +:+ s)).
    cbn [Legacy.split_words]. rewrite (name_char_not_space _ Hc), IH by done.
    rewrite append_assoc. reflexivity.
Qed.

Lemma file_name_chars s :
  Legacy.file_name s = true ->
  s <> "" /\ Legacy.all_chars Legacy.name_char s = true.
Proof.
  destruct s as [|c s]; [discriminate|]. unfold Legacy.file_name.
  intros H. apply andb_true_iff in H as [H _]. apply andb_true_iff in H as [H _].
  apply andb_true_iff in H as [_ H]. done.
Qed.

(** The command line of [finishLog] is read as [cp], the log file and the
    destination. *)
Lemma split_cp_command p dst :
  Legacy.file_name p = true -> Legacy.file_name dst = true ->
  Legacy.split_words "" ("cp " +:+ p +:+ " " +:+ dst) = ["cp"; p; dst].
Proof.
  intros Hp Hd. destruct (file_name_chars _ Hp) as [Hp0 Hpc].
  destruct (file_name_chars _ Hd) as [Hd0 Hdc].
  change ("cp " +:+ p +:+ " " +:+ dst)
    with (String "c" (String "p" (String " " (p +:+ String " " dst)))).
  cbn [Legacy.split_words]. simpl Ascii.eqb. cbv iota.
  change ("" +:+ String "c" "") with "c".
  change ("c" +:+ String "p" "") with "cp".
  rewrite split_words_name by done. change ("" +:+ p) with p.
  cbn [Legacy.split_words]. simpl Ascii.eqb. cbv iota.
  destruct p as [|c p]; [done|].
  rewrite <- (append_empty_r dst) at 1. rewrite split_words_name by done.
  change ("" +:+ dst) with dst. simpl. destruct dst; done.
Qed.

(** With a destination of two words the command line has three operands. *)
Lemma split_cp_command_two p d1 d2 :
  Legacy.file_name p = true -> Legacy.file_name d1 = true ->
  Legacy.file_name d2 = true ->
  Legacy.split_words "" ("cp " +:+ p +:+ " " +:+ d1 +:+ " " +:+ d2)
  = ["cp"; p; d1; d2].
Proof.
  intros Hp H1 H2. destruct (file_name_chars _ Hp) as [Hp0 Hpc].
  destruct (file_name_chars _ H1) as [H10 H1c].
  destruct (file_name_chars _ H2) as [H20 H2c].
  change ("cp " +:+ p +:+ " " +:+ d1 +:+ " " +:+ d2)
    with (String "c" (String "p" (String " "
            (p +:+ String " " (d1 +:+ String " " d2))))).
  cbn [Legacy.split_words]. simpl Ascii.eqb. cbv iota.
  change ("" +:+ String "c" "") with "c".
  change ("c" +:+ String "p" "") with "cp".
  rewrite split_words_name by done. change ("" +:+ p) with p.
  cbn [Legacy.split_words]. simpl Ascii.eqb. cbv iota.
  destruct p as [|c p]; [done|].
  rewrite split_words_name by done. change ("" +:+ d1) with d1.
  cbn [Legacy.split_words]. simpl Ascii.eqb. cbv iota.
  destruct d1 as [|c1 d1]; [done|].
  rewrite <- (append_empty_r d2) at 1. rewrite split_words_name by done.
  change ("" +:+ d2) with d2. simpl. destruct d2; done.
Qed.

(** For plain names [finishLog] is the copy followed by [clear_logs],
    whatever the copy did. *)
Lemma finishLog_eq self dst files :
  Legacy.file_name (Legacy.str_of_path (Legacy.log_file self)) = true ->
  Legacy.file_name dst = true ->
  Legacy.finishLog self dst files
  = Some (Legacy.clear_logs self
            (Legacy.cp (Legacy.str_of_path (Legacy.log_file self)) dst files).1).
Proof.
  intros Hp Hd. unfold Legacy.finishLog, Legacy.os_system.
  rewrite (split_cp_command _ _ Hp Hd). cbn [forallb]. rewrite Hp, Hd.
  change (String.eqb "cp" "cp" && (true && (true && true))) with true. cbv iota.
  by destruct (Legacy.cp _ dst files).
Qed.

Lemma finishLog_plain self p dst text files :
  Legacy.log_file self = Some p ->
  Legacy.file_name p = true ->
  Legacy.file_name dst = true ->
  dst <> p ->
  files !! p = Some text ->
  Legacy.finishLog self dst files
  = Some (<[p := ""]> (<[dst := text]> files), Ok tt).
Proof.
  intros Hlog Hp Hd Hne Hfile. rewrite finishLog_eq by (by rewrite ?Hlog).
  rewrite Hlog. cbn [Legacy.str_of_path]. unfold Legacy.cp, Legacy.clear_logs.
  rewrite Hlog, Hfile. by rewrite decide_False.
Qed.

(** With a destination of two words [cp] copies nothing, and [clear_logs]
    follows. *)
Lemma finishLog_two_words self p d1 d2 files :
  Legacy.log_file self = Some p ->
  Legacy.file_name p = true ->
  Legacy.file_name d1 = true -> Legacy.file_name d2 = true ->
  Legacy.finishLog self (d1 +:+ " " +:+ d2) files = Some (<[p := ""]> files, Ok tt).
Proof.
  intros Hlog Hp H1 H2. unfold Legacy.finishLog, Legacy.os_system.
  rewrite Hlog. cbn [Legacy.str_of_path].
  rewrite (split_cp_command_two _ _ _ Hp H1 H2). cbn [forallb]. rewrite Hp, H1, H2.
  change (String.eqb "cp" "cp" && (true && (true && (true && true)))) with true.
  cbv iota. unfold Legacy.clear_logs. by rewrite Hlog.
Qed.

(** The package class documents [finishLog] in its docstring but has no
    such attribute; the legacy class defines it. *)
Lemma finishLog_only_in_legacy :
  has_attribute "finishLog" = false /\ "finishLog" ∈ Legacy.methods.
Proof. split; [reflexivity|]. unfold Legacy.methods. repeat constructor. Qed.

(** C9, on the code.  The package class lists [finishLog] in its docstring
    but defines no attribute of that name, so there the call raises
    [AttributeError] and nothing is copied or cleared.  The legacy class
    defines it.  With the log file [p] holding [text]: a destination that
    is another plain file name receives [text] and the log file is
    emptied, all other files staying as they are; but the status of the
    copy is never looked at, so for a destination of two words, which [cp]
    refuses, and for the log file itself as destination, the log file is
    emptied all the same and no file has received [text]. *)
Theorem finishLog_missing_in_package_unchecked_in_legacy self p text files :
  Legacy.log_file self = Some p ->
  Legacy.file_name p = true ->
  files !! p = Some text ->
  has_attribute "finishLog" = false
  /\ "finishLog" ∈ Legacy.methods
  /\ (forall dst, Legacy.file_name dst = true -> dst <> p ->
        exists files',
          Legacy.finishLog self dst files = Some (files', Ok tt)
          /\ files' !! dst = Some text
          /\ files' !! p = Some ""
          /\ forall q, q <> dst -> q <> p -> files' !! q = files !! q)
  /\ (forall d1 d2, Legacy.file_name d1 = true -> Legacy.file_name d2 = true ->
        exists files',
          Legacy.finishLog self (d1 +:+ " " +:+ d2) files = Some (files', Ok tt)
          /\ files' !! p = Some ""
          /\ forall q, q <> p -> files' !! q = files !! q)
  /\ (exists files',
        Legacy.finishLog self p files = Some (files', Ok tt)
        /\ files' !! p = Some ""
        /\ forall q, q <> p -> files' !! q = files !! q).
Proof.
  intros Hlog Hp Hfile. destruct finishLog_only_in_legacy as [Hno Hleg].
  split; [exact Hno|]. split; [exact Hleg|].
  assert (Hcleared : (<[p := ""]> files) !! p = Some ""
                     /\ forall q, q <> p -> (<[p := ""]> files) !! q = files !! q).
  { split; [apply lookup_insert_eq|]. intros q Hq. by rewrite lookup_insert_ne. }
  split; [|split].
  - intros dst Hd Hne. eexists.
    split; [apply (finishLog_plain _ _ _ _ _ Hlog Hp Hd Hne Hfile)|].
    split; [by rewrite lookup_insert_ne, lookup_insert_eq|].
    split; [apply lookup_insert_eq|].
    intros q Hq1 Hq2. by rewrite !lookup_insert_ne.
  - intros d1 d2 H1 H2. eexists.
    split; [apply (finishLog_two_words _ _ _ _ _ Hlog Hp H1 H2)|]. exact Hcleared.
  - eexists. split; [|exact Hcleared].
    rewrite finishLog_eq by (by rewrite ?Hlog).
    rewrite Hlog. cbn [Legacy.str_of_path]. unfold Legacy.cp, Legacy.clear_logs.
    rewrite Hlog, Hfile. by rewrite decide_True.
Qed.

(** * The properties at sample inputs *)

Import Sample.

Lemma loaded_is_import : load_module 8 ∅ = Some (loaded, Ok control).
Proof. vm_compute. reflexivity. Qed.

Lemma with_other_is_new : new other_args loaded = Some (with_other, Ok other).
Proof. vm_compute. reflexivity. Qed.

Lemma running_is_submitted :
  exists w1,
    submit control ctx0 (Raise boom) "g" loaded = Some (w1, Ok VNone)
    /\ worker_starts 0 w1 = Some (running, Ok tt).
Proof. eexists. split; vm_compute; reflexivity. Qed.

Lemma two_pending_is_submitted :
  exists w1,
    submit control ctx0 (Ok (VInt 4)) "g" loaded = Some (w1, Ok VNone)
    /\ submit control ctx0 (Raise boom) "g" w1 = Some (two_pending, Ok VNone).
Proof. eexists. split; vm_compute; reflexivity. Qed.

Lemma submit_returns_none_witness :
  objs loaded !! control = Some control0
  /\ ex_shutdown (executor control0) = false
  /\ exists w' o',
       submit control ctx0 (Ok (VInt 4)) "g" loaded = Some (w', Ok VNone)
       /\ futures w' !! length (futures loaded)
          = Some (mkFuture (Ok (VInt 4)) (ex_process (executor control0)) PENDING
                    None None [worker_callbacks_fn])
       /\ objs w' !! control = Some o'
       /\ tasks o' !! "g"
          = Some (default [] (tasks control0 !! "g") ++ [length (futures loaded)]).
Proof.
  split; [vm_compute; reflexivity|]. split; [reflexivity|].
  apply (submit_returns_none control ctx0 (Ok (VInt 4)) "g" loaded control0).
  - vm_compute; reflexivity.
  - reflexivity.
Defined.

Lemma simple_flag_false_still_simplified_witness :
  a_simple_log control_args = false
  /\ new control_args (host 8 ∅) = Some (loaded, Ok control)
  /\ "[info]" <> "[critical]" /\ "[info]" <> "[time]"
  /\ exists w2,
       wlog control ctx0 "hello" "[info]" true loaded = Some (w2, Ok tt)
       /\ stdout w2 = stdout loaded ++ ["[info]" +:+ " - " +:+ "hello"].
Proof.
  split; [reflexivity|]. split; [vm_compute; reflexivity|].
  split; [discriminate|]. split; [discriminate|].
  apply (simple_flag_false_still_simplified control_args (host 8 ∅) loaded control
           ctx0 "hello" "[info]").
  - reflexivity.
  - vm_compute; reflexivity.
  - discriminate.
  - discriminate.
Defined.

Lemma print_flag_false_still_prints_witness :
  a_print_log other_args = false
  /\ new other_args loaded = Some (with_other, Ok other)
  /\ exists o, objs with_other !! other = Some o /\ print_log o = false
     /\ (exists w2, info other ctx0 "hello" with_other = Some (w2, Ok tt)
           /\ stdout w2 = stdout with_other ++ [log_line o ctx0 "hello" "[info]"])
     /\ (exists w2, warn other ctx0 "hello" with_other = Some (w2, Ok tt)
           /\ stdout w2 = stdout with_other ++ [log_line o ctx0 "hello" "[warning]"])
     /\ (exists w2, time other ctx0 "hello" with_other = Some (w2, Ok tt)
           /\ stdout w2 = stdout with_other ++ [log_line o ctx0 "hello" "[time]"])
     /\ (exists w2, critical other ctx0 "hello" with_other = Some (w2, Ok tt)
           /\ stdout w2 = stdout with_other ++ [log_line o ctx0 "hello" "[critical]"]).
Proof.
  split; [reflexivity|]. split; [vm_compute; reflexivity|].
  apply (print_flag_false_still_prints other_args loaded with_other other ctx0 "hello").
  - reflexivity.
  - vm_compute; reflexivity.
Defined.

(** C4, as stated, fails for a pool of worker processes: the exception
    comes back from the worker without its traceback, so the critical line
    ends after the arrow and holds no trace entry, though the call raised
    two frames deep. *)
Lemma process_pool_failure_has_no_trace :
  exists w1 w2 w3 line,
    new process_args loaded = Some (with_process, Ok other)
    /\ submit other ctx0 (Raise crash) "g" with_process = Some (w1, Ok VNone)
    /\ worker_starts 0 w1 = Some (w2, Ok tt)
    /\ worker_finishes 0 ctx1 w2 = Some (w3, Ok tt)
    /\ length (exc_traceback crash) = 2%nat
    /\ stdout w3 = [line]
    /\ line = "03/11/2026 10:00:01  [critical] - Thread 4243 - ValueError: bad input -> "
    /\ ~ contains "[Trace" line
    /\ ~ (forall k fr, exc_traceback crash !! k = Some fr ->
            contains (trace_entry k fr) line).
Proof.
  do 4 eexists. split; [vm_compute; reflexivity|].
  split; [vm_compute; reflexivity|]. split; [vm_compute; reflexivity|].
  split; [vm_compute; reflexivity|]. split; [reflexivity|].
  split; [vm_compute; reflexivity|]. split; [reflexivity|].
  split.
  - intros H. apply contains_occurs in H. vm_compute in H. discriminate.
  - intros H. specialize (H 0%nat _ eq_refl). apply contains_occurs in H.
    vm_compute in H. discriminate.
Qed.

Lemma failing_task_reported_once_witness :
  objs loaded !! control = Some control0
  /\ ex_shutdown (executor control0) = false
  /\ ex_process (executor control0) = false
  /\ exists w1 w2 w3,
       submit control ctx0 (Raise boom) "g" loaded = Some (w1, Ok VNone)
       /\ worker_starts 0 w1 = Some (w2, Ok tt)
       /\ worker_finishes 0 ctx1 w2 = Some (w3, Ok tt)
       /\ exception 0 w3 = Some (w3, Ok (Some boom))
       /\ stdout w3
          = ["03/11/2026 10:00:01  [critical] - Thread 4243 - ValueError: bad input -> [Trace 0: thread.py - run() - line 58][Trace 1: job.py - task() - line 3]"]
       /\ exists w4 w5 w6 f,
            submit control ctx0 (Ok (VInt 4)) "g" w3 = Some (w4, Ok VNone)
            /\ worker_starts 1 w4 = Some (w5, Ok tt)
            /\ worker_finishes 1 ctx1 w5 = Some (w6, Ok tt)
            /\ futures w6 !! 1%nat = Some f
            /\ done f = true /\ fut_result f = Some (VInt 4).
Proof.
  split; [vm_compute; reflexivity|]. split; [reflexivity|]. split; [reflexivity|].
  destruct (failing_task_reported_once control ctx0 ctx1 boom "g" loaded control0
              control0)
    as (w1 & w2 & w3 & c3 & H1 & H2 & H3 & Hexc & _ & Hout & Hc3 & _ & _ & _ & _
        & _ & _ & _ & _ & _ & _ & _ & _ & Hnext).
  - vm_compute; reflexivity.
  - reflexivity.
  - reflexivity.
  - vm_compute; reflexivity.
  - exists w1, w2, w3. split; [exact H1|]. split; [exact H2|]. split; [exact H3|].
    split; [exact Hexc|]. split; [exact Hout|].
    apply (Hnext control c3 ctx0 ctx1 (VInt 4) "g" Hc3).
    assert (E1 : w1 = submitted control control0 (Raise boom) "g" loaded).
    { pose proof (submit_eq control ctx0 (Raise boom) "g" loaded control0) as E.
      rewrite E in H1 by (vm_compute; reflexivity). by injection H1 as <-. }
    subst w1. vm_compute in H2. injection H2 as <-.
    vm_compute in H3. injection H3 as <-. vm_compute in Hc3. injection Hc3 as <-.
    reflexivity.
Defined.

Lemma unknown_group_witness :
  "never" <> "default"
  /\ new control_args (host 8 ∅) = Some (loaded, Ok control)
  /\ Forall (event_allowed (not_to control "never"))
       [Call control (OpSubmit ctx0 (Raise boom) "g"); Env (WorkerStarts 0)]
  /\ run [Call control (OpSubmit ctx0 (Raise boom) "g"); Env (WorkerStarts 0)] loaded
     = Some running
  /\ wait control "never" sched0 running = Some (running, Ok Returned)
  /\ get_queue control "never" running = Some (running, Raise (KeyError "never")).
Proof.
  assert (Hevs : Forall (event_allowed (not_to control "never"))
            [Call control (OpSubmit ctx0 (Raise boom) "g"); Env (WorkerStarts 0)]).
  { repeat constructor. intros [_ H]. discriminate H. }
  split; [discriminate|]. split; [vm_compute; reflexivity|].
  split; [exact Hevs|]. split; [vm_compute; reflexivity|].
  apply (unknown_group_wait_returns_get_queue_raises control_args (host 8 ∅)
           loaded control "never"
           [Call control (OpSubmit ctx0 (Raise boom) "g"); Env (WorkerStarts 0)]
           running sched0).
  - discriminate.
  - vm_compute; reflexivity.
  - exact Hevs.
  - vm_compute; reflexivity.
Defined.

Lemma default_worker_count_witness :
  a_max_workers default_args = None
  /\ 3 <= cpu_count (host 8 ∅)
  /\ exists w' self o,
       new default_args (host 8 ∅) = Some (w', Ok self)
       /\ objs w' !! self = Some o
       /\ workers o = cpu_count (host 8 ∅) - 2
       /\ executor o
          = mkExecutor (a_use_process_pool default_args) (cpu_count (host 8 ∅) - 2)
              false.
Proof.
  split; [reflexivity|]. split; [vm_compute; discriminate|].
  apply (default_worker_count_no_floor default_args (host 8 ∅)).
  - reflexivity.
  - vm_compute; discriminate.
Defined.

(** C8, as stated, fails for [reconfigure]: after a submission to the
    default group it leaves that group empty, so the sequence has lost an
    entry. *)
Lemma reconfigure_empties_groups :
  exists w2 w3 o2 o3,
    call control (OpSubmit ctx0 (Ok VNone) "default") loaded = Some (w2, Ok tt)
    /\ call control (OpReconfigure default_args) w2 = Some (w3, Ok tt)
    /\ objs w2 !! control = Some o2 /\ tasks o2 !! "default" = Some [0%nat]
    /\ objs w3 !! control = Some o3 /\ tasks o3 !! "default" = Some []
    /\ ~ tasks_grow (tasks o2) (tasks o3).
Proof.
  do 4 eexists.
  split; [vm_compute; reflexivity|]. split; [vm_compute; reflexivity|].
  split; [vm_compute; reflexivity|]. split; [vm_compute; reflexivity|].
  split; [vm_compute; reflexivity|]. split; [vm_compute; reflexivity|].
  intros Hgrow. destruct (Hgrow "default" [0%nat]) as (l' & Hl' & [k Hk]).
  - vm_compute; reflexivity.
  - vm_compute in Hl'. injection Hl' as <-. discriminate Hk.
Qed.

Lemma group_table_witness :
  objs two_pending !! control
  = Some (set_tasks {["default" := []; "g" := [0%nat; 1%nat]]} control0)
  /\ is_Some (tasks (set_tasks {["default" := []; "g" := [0%nat; 1%nat]]} control0)
                !! "default")
  /\ exists w' o',
       call control (OpSubmit ctx0 (Ok VNone) "g") two_pending = Some (w', Ok tt)
       /\ objs w' !! control = Some o'
       /\ tasks o' = {["default" := []; "g" := [0%nat; 1%nat; 2%nat]]}.
Proof.
  assert (Ho : objs two_pending !! control
               = Some (set_tasks {["default" := []; "g" := [0%nat; 1%nat]]} control0))
    by (vm_compute; reflexivity).
  assert (Hd : is_Some (tasks (set_tasks {["default" := []; "g" := [0%nat; 1%nat]]}
                                 control0) !! "default"))
    by (exists []; vm_compute; reflexivity).
  split; [exact Ho|]. split; [exact Hd|].
  destruct (call control (OpSubmit ctx0 (Ok VNone) "g") two_pending)
    as [[w' r]|] eqn:E; [|vm_compute in E; discriminate].
  assert (Hr : r = Ok tt) by (vm_compute in E; congruence). subst r.
  destruct (proj2 group_table_grows_until_reconfigure control
              (OpSubmit ctx0 (Ok VNone) "g") two_pending w' (Ok tt) _ Ho Hd E)
    as (o' & Ho' & _ & _ & Hsub & _).
  exists w', o'. split; [reflexivity|]. split; [exact Ho'|].
  rewrite (Hsub ctx0 (Ok VNone) "g" eq_refl eq_refl). vm_compute. reflexivity.
Defined.

Lemma finishLog_witness :
  Legacy.log_file Legacy.sample = Some "run.log"
  /\ Legacy.file_name "run.log" = true
  /\ ({["run.log" := "line 1"; "notes" := "n"]} : gmap string string) !! "run.log"
     = Some "line 1"
  /\ has_attribute "finishLog" = false
  /\ (exists files',
        Legacy.finishLog Legacy.sample "day1.log"
          {["run.log" := "line 1"; "notes" := "n"]}
        = Some (files', Ok tt)
        /\ files' !! "day1.log" = Some "line 1"
        /\ files' !! "run.log" = Some "")
  /\ (exists files',
        Legacy.finishLog Legacy.sample ("old" +:+ " " +:+ "logs.txt")
          {["run.log" := "line 1"; "notes" := "n"]}
        = Some (files', Ok tt)
        /\ files' !! "run.log" = Some ""
        /\ files' !! "old logs.txt" = None
        /\ files' !! "old" = None
        /\ files' !! "logs.txt" = None
        /\ files' !! "notes" = Some "n").
Proof.
  split; [reflexivity|]. split; [reflexivity|]. split; [vm_compute; reflexivity|].
  destruct (finishLog_missing_in_package_unchecked_in_legacy Legacy.sample "run.log"
              "line 1" {["run.log" := "line 1"; "notes" := "n"]})
    as (Hno & _ & Hplain & Htwo & _).
  - reflexivity.
  - reflexivity.
  - vm_compute; reflexivity.
  - split; [exact Hno|]. split.
    + destruct (Hplain "day1.log") as (files' & H1 & H2 & H3 & _);
        [reflexivity | discriminate |].
      exists files'. split; [exact H1|]. split; [exact H2 | exact H3].
    + destruct (Htwo "old" "logs.txt") as (files' & H1 & H2 & H3);
        [reflexivity | reflexivity |].
      exists files'. split; [exact H1|]. split; [exact H2|].
      split; [rewrite H3 by discriminate; vm_compute; reflexivity|].
      split; [rewrite H3 by discriminate; vm_compute; reflexivity|].
      split; [rewrite H3 by discriminate; vm_compute; reflexivity|].
      rewrite H3 by discriminate. vm_compute. reflexivity.
Defined.

Lemma failure_trace_goes_through_control_witness :
  other <> control
  /\ objs with_other !! control = Some control0
  /\ objs with_other !! other = Some other0
  /\ ex_shutdown (executor other0) = false
  /\ exists w1 w2 w3 i1,
       submit other ctx0 (Raise boom) "g" with_other = Some (w1, Ok VNone)
       /\ worker_starts 0 w1 = Some (w2, Ok tt)
       /\ worker_finishes 0 ctx1 w2 = Some (w3, Ok tt)
       /\ objs w3 !! other = Some i1
       /\ memory i1 = []
       /\ fs w3 = {["i.log" := ""]}
       /\ callback_calls w3 = []
       /\ stdout w3
          = ["03/11/2026 10:00:01  [critical] - Thread 4243 - ValueError: bad input -> [Trace 0: thread.py - run() - line 58][Trace 1: job.py - task() - line 3]"].
Proof.
  split; [discriminate|]. split; [vm_compute; reflexivity|].
  split; [vm_compute; reflexivity|]. split; [reflexivity|].
  destruct (failure_trace_goes_through_control other ctx0 ctx1 boom "g" with_other
              control0 other0)
    as (w1 & w2 & w3 & i1 & H1 & H2 & H3 & _ & Hi & Hmem & _ & Hout & _ & _ & Hfs & Hcb).
  - discriminate.
  - vm_compute; reflexivity.
  - vm_compute; reflexivity.
  - reflexivity.
  - exists w1, w2, w3, i1. split; [exact H1|]. split; [exact H2|].
    split; [exact H3|]. split; [exact Hi|]. split; [exact Hmem|].
    split; [exact (Hfs eq_refl)|]. split; [exact (Hcb eq_refl)|]. exact Hout.
Defined.

(** * Further properties of the code *)

(** ** Reading the log file back *)

Lemma rev_app_spec s : forall acc, String.rev_app s acc = String.rev s +:+ acc.
Proof.
  unfold String.rev. induction s as [|a s IH]; intros acc; [reflexivity|].
  cbn [String.rev_app]. rewrite (IH (String a acc)), (IH (String a "")).
  by rewrite append_assoc.
Qed.

Lemma rev_cons a s : String.rev (String a s) = String.rev s +:+ String a "".
Proof. unfold String.rev at 1. cbn [String.rev_app]. apply rev_app_spec. Qed.

(** One line without line break, followed by its line feed, is one entry. *)
Lemma readlines_line line : forall cur rest,
  no_line_break line = true ->
  readlines_go cur (line +:+ newline +:+ rest)
  = (String.rev cur +:+ line +:+ newline) :: readlines_go "" rest.
Proof.
  induction line as [|c line IH]; intros cur rest H.
  - change ("" +:+ newline +:+ rest) with (String (ascii_of_nat 10) rest).
    cbn [readlines_go]. rewrite Ascii.eqb_refl, rev_cons. reflexivity.
  - unfold no_line_break in H. cbn [every_char] in H.
    apply andb_true_iff in H as [Hc Hl]. apply andb_true_iff in Hc as [Hlf Hcr].
    apply negb_true_iff in Hlf, Hcr.
    change (String c line +:+ newline +:+ rest)
      with (String c (line +:+ newline +:+ rest)).
    cbn [readlines_go]. rewrite Hlf, Hcr, IH by exact Hl.
    rewrite rev_cons, append_assoc. reflexivity.
Qed.

(** Whole lines are read independently of what follows them, also when a
    carriage return comes before the closing line feed. *)
Lemma readlines_whole t : forall cur more,
  readlines_go cur (t +:+ newline +:+ more)
  = readlines_go cur (t +:+ newline) ++ readlines_go "" more.
Proof.
  induction t as [|c t IH]; intros cur more.
  - change ("" +:+ newline +:+ more) with (String (ascii_of_nat 10) more).
    change ("" +:+ newline) with (String (ascii_of_nat 10) "").
    cbn [readlines_go]. rewrite Ascii.eqb_refl. reflexivity.
  - change (String c t +:+ newline +:+ more)
      with (String c (t +:+ newline +:+ more)).
    change (String c t +:+ newline) with (String c (t +:+ newline)).
    cbn [readlines_go]. destruct (Ascii.eqb c (ascii_of_nat 10)).
    { rewrite IH. reflexivity. }
    destruct (Ascii.eqb c (ascii_of_nat 13)); [|apply IH].
    destruct t as [|c' t].
    + change ("" +:+ newline +:+ more) with (String (ascii_of_nat 10) more).
      change ("" +:+ newline) with (String (ascii_of_nat 10) "").
      cbn [readlines_go]. rewrite Ascii.eqb_refl. reflexivity.
    + specialize (IH "" more).
      change (String c' t +:+ newline +:+ more)
        with (String c' (t +:+ newline +:+ more)) in *.
      change (String c' t +:+ newline) with (String c' (t +:+ newline)) in *.
      cbv iota. destruct (Ascii.eqb c' (ascii_of_nat 10)) eqn:E.
      * cbn [readlines_go] in IH. rewrite E in IH. simpl in IH.
        injection IH as IH. rewrite IH. reflexivity.
      * rewrite IH. reflexivity.
Qed.

Lemma readlines_append text line :
  whole_lines text -> no_line_break line = true ->
  readlines_go "" (text +:+ line +:+ newline)
  = readlines_go "" text ++ [line +:+ newline].
Proof.
  intros [->|[t ->]] Hl.
  - change ("" +:+ line +:+ newline) with (line +:+ newline +:+ "").
    rewrite <- (append_empty_r newline) at 1.
    rewrite readlines_line by done. reflexivity.
  - rewrite append_assoc, readlines_whole.
    rewrite <- (append_empty_r newline) at 2.
    rewrite readlines_line by done. reflexivity.
Qed.

(** X1.  Write, then read.  On an instance whose log file holds whole
    lines, a logged line that has neither a line feed nor a carriage
    return in it comes back from [get_logs] as the last entry, after the
    entries that were there, with its line feed; and the file again holds
    whole lines. *)
Theorem logged_line_is_read_back self o p text ctx content tipo print_log w :
  objs w !! self = Some o ->
  log_file o = Some p ->
  fs w !! p = Some text ->
  whole_lines text ->
  no_line_break (log_line o ctx content tipo) = true ->
  exists w' text',
    wlog self ctx content tipo print_log w = Some (w', Ok tt)
    /\ get_logs self w = Some (w, Ok (readlines_go "" text))
    /\ get_logs self w'
       = Some (w', Ok (readlines_go "" text
                         ++ [log_line o ctx content tipo +:+ newline]))
    /\ fs w' !! p = Some text' /\ whole_lines text'.
Proof.
  intros Ho Hp Htext Hwhole Hline.
  set (line := log_line o ctx content tipo) in *.
  exists (emit self o line print_log w), (text +:+ line +:+ newline).
  split; [apply (wlog_eq _ _ _ _ _ _ _ Ho)|].
  assert (Hread : forall w0 o0, objs w0 !! self = Some o0 -> log_file o0 = Some p ->
            forall t, fs w0 !! p = Some t ->
            get_logs self w0 = Some (w0, Ok (readlines_go "" t))).
  { intros w0 o0 H0 Hp0 t Ht. unfold get_logs.
    rewrite (bind_ok _ _ _ _ _ (get_self_ok _ _ _ H0)), Hp0.
    unfold bind, get_world. by rewrite Ht. }
  assert (Hfile : fs (emit self o line print_log w) !! p
                  = Some (text +:+ line +:+ newline)).
  { simpl. rewrite Hp, lookup_insert_eq, Htext. reflexivity. }
  split; [by apply (Hread w o)|].
  split.
  - rewrite <- readlines_append by done.
    destruct (keep_in_memory o) eqn:Hk.
    + apply (Hread _ (set_memory (memory o ++ [line]) o)); try done.
      simpl. rewrite Hk. apply lookup_insert_eq.
    + apply (Hread _ o); try done. simpl. by rewrite Hk.
  - split; [exact Hfile|]. right. exists (text +:+ line).
    by rewrite append_assoc.
Qed.

(** X2.  Clear, then read.  On an instance with a log file, [clear_logs]
    returns, [get_logs] then returns no line, and only the log file has
    changed. *)
Theorem cleared_log_reads_empty self o p w :
  objs w !! self = Some o ->
  log_file o = Some p ->
  exists w',
    clear_logs self w = Some (w', Ok tt)
    /\ get_logs self w' = Some (w', Ok [])
    /\ fs w' !! p = Some ""
    /\ (forall q, q <> p -> fs w' !! q = fs w !! q)
    /\ objs w' = objs w /\ stdout w' = stdout w /\ futures w' = futures w.
Proof.
  intros Ho Hp. exists (set_fs (<[p := ""]> (fs w)) w).
  split.
  { unfold clear_logs. by rewrite (bind_ok _ _ _ _ _ (get_self_ok _ _ _ Ho)), Hp. }
  split.
  { unfold get_logs.
    rewrite (bind_ok _ _ _ _ _
               (get_self_ok self (set_fs (<[p := ""]> (fs w)) w) o Ho)), Hp.
    unfold bind, get_world. simpl. by rewrite lookup_insert_eq. }
  split; [apply lookup_insert_eq|].
  split; [intros q Hq; simpl; by rewrite lookup_insert_ne|]. done.
Qed.

(** X3.  Without a log file.  On an instance constructed without a log
    file, construction touches no file, [get_logs] raises the exception
    "No log file was defined", [clear_logs] raises a [TypeError] from
    [open], both leave the process as it is, and logging writes no file. *)
Theorem no_log_file_configured a w w1 self ctx content tipo print_log :
  a_log_file a = None ->
  new a w = Some (w1, Ok self) ->
  fs w1 = fs w
  /\ get_logs self w1 = Some (w1, Raise (Exception_ "No log file was defined"))
  /\ clear_logs self w1
     = Some (w1, Raise (TypeError "expected str, bytes or os.PathLike object, not NoneType"))
  /\ exists w2,
       wlog self ctx content tipo print_log w1 = Some (w2, Ok tt) /\ fs w2 = fs w1.
Proof.
  intros Hnone Hnew. destruct (decide (max_workers_of a (cpu_count w) <= 0)).
  { rewrite new_fails in Hnew by done. discriminate. }
  rewrite new_ok in Hnew by lia. inversion Hnew; subst. clear Hnew.
  match goal with |- fs ?W = _ /\ _ => set (w1 := W) end.
  assert (Ho : objs w1 !! fresh (dom (objs w))
               = Some (configured a (cpu_count w)
                         (mkExecutor (a_use_process_pool a)
                            (max_workers_of a (cpu_count w)) false)))
    by apply lookup_insert_eq.
  split; [simpl; by rewrite Hnone|].
  split.
  { unfold get_logs. rewrite (bind_ok _ _ _ _ _ (get_self_ok _ _ _ Ho)).
    simpl. by rewrite Hnone. }
  split.
  { unfold clear_logs. rewrite (bind_ok _ _ _ _ _ (get_self_ok _ _ _ Ho)).
    simpl. by rewrite Hnone. }
  eexists. split; [apply (wlog_eq _ _ _ _ _ _ _ Ho)|].
  simpl. by rewrite Hnone.
Qed.

(** ** Debug messages, timed calls, and the order of the sinks *)

(** X4.  [debug] follows the flag given at construction: with the flag
    off it returns and changes nothing; with the flag on it sends the line
    tagged [debug] to the sinks, and that line is the tag and the message
    alone. *)
Theorem debug_follows_constructor_flag a w w1 self ctx content :
  new a w = Some (w1, Ok self) ->
  exists o,
    objs w1 !! self = Some o
    /\ debug self ctx content w1
       = Some (if a_debug a
               then emit self o ("[debug]" +:+ " - " +:+ content) true w1
               else w1, Ok tt).
Proof.
  intros Hnew. destruct (new_configured _ _ _ _ Hnew) as (ex & Ho & _).
  eexists. split; [exact Ho|]. unfold debug.
  rewrite (bind_ok _ _ _ _ _ (get_self_ok _ _ _ Ho)). simpl.
  destruct (a_debug a); [|reflexivity].
  rewrite (wlog_eq _ _ _ _ _ _ _ Ho). reflexivity.
Qed.

(** X5.  The wrapper of [timer]: when the wrapped call raises, the
    exception goes to the caller and nothing is logged; when it returns a
    value, the wrapper returns that value after one line at the time
    level, made of the timestamp, the tag, the function name and the
    elapsed time, whatever the format flags of the instance. *)
Theorem timer_logs_after_normal_return self o ctx func_name elapsed work w :
  objs w !! self = Some o ->
  timer self ctx func_name elapsed work w
  = match work with
    | Raise e => Some (w, Raise e)
    | Ok v =>
        Some (emit self o
                (now ctx +:+ "  [time] - " +:+ func_name +:+ "() executed in "
                   +:+ elapsed +:+ "s") true w, Ok v)
    end.
Proof.
  intros Ho. unfold timer, lift. destruct work as [v|e]; [|reflexivity].
  unfold bind at 1. unfold time. unfold bind at 1.
  rewrite (wlog_eq _ _ _ _ _ _ _ Ho). unfold log_line. simpl.
  rewrite append_assoc. reflexivity.
Qed.

Lemma emit_self_after self o line pl w :
  objs w !! self = Some o ->
  objs (emit self o line pl w) !! self
  = Some (if keep_in_memory o then set_memory (memory o ++ [line]) o else o).
Proof.
  intros Ho. simpl. destruct (keep_in_memory o); [apply lookup_insert_eq | done].
Qed.

(** X6.  Order of emission.  After any sequence of logging calls on one
    instance, each sink that is switched on holds the formatted lines of
    those calls, once each and in call order, after what it held before:
    the console, the memory (only when the instance keeps one), the log
    file with one line feed per line (only when configured) and the
    calls made to the callback (only when configured).  Every other file
    and every future is untouched. *)
Theorem sinks_hold_lines_in_call_order self entries : forall w o,
  objs w !! self = Some o ->
  exists w',
    run (log_events self entries) w = Some w'
    /\ stdout w' = stdout w ++ lines_of o entries
    /\ objs w' !! self
       = Some (if keep_in_memory o
               then set_memory (memory o ++ lines_of o entries) o
               else o)
    /\ (forall p, log_file o = Some p ->
          default "" (fs w' !! p)
          = default "" (fs w !! p) +:+ file_text (lines_of o entries))
    /\ (forall q, log_file o <> Some q -> fs w' !! q = fs w !! q)
    /\ callback_calls w'
       = callback_calls w
         ++ match callback o with
            | Some cb => (fun l => (cb, l)) <$> lines_of o entries
            | None => []
            end
    /\ futures w' = futures w.
Proof.
  induction entries as [|[[ctx content] tipo] entries IH]; intros w o Ho.
  - exists w. simpl.
    split; [done|]. split; [by rewrite app_nil_r|].
    split. { rewrite Ho. destruct (keep_in_memory o); [|done].
             rewrite app_nil_r. by destruct o. }
    split. { intros p _. by rewrite append_empty_r. }
    split; [done|].
    split; [destruct (callback o); by rewrite app_nil_r | done].
  - set (line := log_line o ctx content tipo).
    set (o1 := if keep_in_memory o then set_memory (memory o ++ [line]) o else o).
    pose proof (emit_self_after self o line true w Ho) as Ho1. fold o1 in Ho1.
    destruct (IH _ _ Ho1) as (w' & Hrun & Hout & Hobj & Hfile & Hother & Hcb & Hfut).
    assert (Hsame : lines_of o1 entries = lines_of o entries
                    /\ keep_in_memory o1 = keep_in_memory o
                    /\ log_file o1 = log_file o /\ callback o1 = callback o).
    { unfold o1. destruct (keep_in_memory o) eqn:E; simpl; rewrite ?E; done. }
    destruct Hsame as (Hlines & Hk & Hlf & Hc).
    rewrite Hlines, Hk, Hc in *.
    exists w'. split.
    { cbn [log_events fmap list_fmap run event call fst snd].
      rewrite (wlog_eq _ _ _ _ _ _ _ Ho). exact Hrun. }
    split. { rewrite Hout. simpl. by rewrite <- app_assoc. }
    split.
    { rewrite Hobj. unfold o1. destruct (keep_in_memory o) eqn:Hkeep; [|done].
      simpl. unfold set_memory. simpl. by rewrite <- app_assoc. }
    split.
    { intros p Hp. rewrite (Hfile p) by (by rewrite Hlf). simpl.
      rewrite Hp, lookup_insert_eq. simpl. fold line.
      by rewrite !append_assoc. }
    split.
    { intros q Hq. rewrite (Hother q) by (by rewrite Hlf). simpl.
      destruct (log_file o) as [p|]; [|done].
      rewrite lookup_insert_ne; [done|]. congruence. }
    split; [|by rewrite Hfut].
    rewrite Hcb. simpl. destruct (callback o); simpl; [|by rewrite !app_nil_r].
    by rewrite <- app_assoc.
Qed.

(** ** A task that returns *)


(** ** Reconfiguration and construction *)

Lemma reconfigure_ok self a w o :
  objs w !! self = Some o ->
  0 < max_workers_of a (cpu_count w) ->
  reconfigure self a w
  = Some (mkWorld
            (<[self := configured a (cpu_count w)
                         (mkExecutor (a_use_process_pool a)
                            (max_workers_of a (cpu_count w)) false)]> (objs w))
            (futures w) (touched (a_log_file a) (fs w)) (stdout w)
            (callback_calls w) (slept_ms w) (cpu_count w), Ok tt).
Proof.
  intros Ho Hpos. unfold reconfigure.
  rewrite (bind_ok _ _ _ _ _ (modify_ok _ _ _ _ Ho)).
  erewrite init_eq by (simpl; apply lookup_insert_eq). simpl.
  destruct (decide (max_workers_of a (cpu_count w) <= 0)); [lia|].
  by rewrite insert_insert_eq.
Qed.

Lemma reconfigure_fails self a w o :
  objs w !! self = Some o ->
  max_workers_of a (cpu_count w) <= 0 ->
  reconfigure self a w
  = Some (mkWorld
            (<[self := configured a (cpu_count w)
                         (mkExecutor (ex_process (executor o))
                            (ex_max_workers (executor o)) true)]> (objs w))
            (futures w) (touched (a_log_file a) (fs w)) (stdout w)
            (callback_calls w) (slept_ms w) (cpu_count w),
          Raise (ValueError "max_workers must be greater than 0")).
Proof.
  intros Ho Hle. unfold reconfigure.
  rewrite (bind_ok _ _ _ _ _ (modify_ok _ _ _ _ Ho)).
  erewrite init_eq by (simpl; apply lookup_insert_eq). simpl.
  destruct (decide (max_workers_of a (cpu_count w) <= 0)); [|lia].
  by rewrite insert_insert_eq.
Qed.

Lemma touched_existing a w :
  log_file_exists a w -> touched (a_log_file a) (fs w) = fs w.
Proof.
  unfold log_file_exists, touched. destruct (a_log_file a) as [p|]; [|done].
  by intros [t ->].
Qed.

(** X8.  A [reconfigure] to a thread pool with a positive worker count,
    whose log file, if it names one, exists already, succeeds: the
    instance gets the new configuration with a fresh live executor, an
    empty memory and the empty default group; futures submitted before
    are not cancelled or awaited, they stay in the process as they were;
    files, console and other instances are untouched; and the instance
    accepts submissions again, numbering on from the futures of the
    process. *)
Theorem reconfigure_replaces_state_keeps_futures self a w o ctx work g :
  objs w !! self = Some o ->
  a_use_process_pool a = false ->
  0 < max_workers_of a (cpu_count w) ->
  log_file_exists a w ->
  exists w' o',
    reconfigure self a w = Some (w', Ok tt)
    /\ objs w' !! self = Some o'
    /\ o' = configured a (cpu_count w)
              (mkExecutor false (max_workers_of a (cpu_count w)) false)
    /\ memory o' = [] /\ tasks o' = {["default" := []]}
    /\ futures w' = futures w
    /\ fs w' = fs w
    /\ stdout w' = stdout w
    /\ (forall b, b <> self -> objs w' !! b = objs w !! b)
    /\ exists w'' o'',
         submit self ctx work g w' = Some (w'', Ok VNone)
         /\ objs w'' !! self = Some o''
         /\ tasks o'' !! g = Some [length (futures w)].
Proof.
  intros Ho Hthread Hpos Hlog. rewrite (reconfigure_ok _ _ _ _ Ho Hpos).
  rewrite Hthread, (touched_existing _ _ Hlog).
  do 2 eexists. split; [reflexivity|]. simpl.
  split; [apply lookup_insert_eq|]. split; [reflexivity|].
  split; [reflexivity|]. split; [reflexivity|]. split; [reflexivity|].
  split; [reflexivity|]. split; [reflexivity|].
  split; [intros b Hb; by rewrite lookup_insert_ne|].
  match goal with |- context [submit _ _ _ _ ?W] => set (w' := W) end.
  assert (Ho' : objs w' !! self
                = Some (configured a (cpu_count w)
                          (mkExecutor false (max_workers_of a (cpu_count w)) false)))
    by apply lookup_insert_eq.
  rewrite (submit_eq _ _ _ _ _ _ Ho' eq_refl).
  do 2 eexists. split; [reflexivity|]. simpl.
  split; [apply lookup_insert_eq|]. simpl.
  destruct (decide (g = "default")) as [->|Hg].
  - by rewrite lookup_insert_eq, lookup_singleton_eq.
  - by rewrite lookup_insert_eq, lookup_singleton_ne.
Qed.

(** X9.  A [reconfigure] whose worker count is not positive, and whose log
    file, if it names one, exists already, raises the [ValueError] of the
    executor after the old executor was shut down and the attributes were
    replaced: the group table is reset, the instance keeps the executor
    that was shut down, and from then on every [submit] on the instance
    raises [RuntimeError] and records nothing. *)
Theorem failed_reconfigure_leaves_pool_shut self a w o ctx work g :
  objs w !! self = Some o ->
  max_workers_of a (cpu_count w) <= 0 ->
  log_file_exists a w ->
  exists w' o',
    reconfigure self a w
    = Some (w', Raise (ValueError "max_workers must be greater than 0"))
    /\ objs w' !! self = Some o'
    /\ tasks o' = {["default" := []]}
    /\ executor o'
       = mkExecutor (ex_process (executor o)) (ex_max_workers (executor o)) true
    /\ futures w' = futures w
    /\ fs w' = fs w
    /\ submit self ctx work g w'
       = Some (w', Raise (RuntimeError "cannot schedule new futures after shutdown")).
Proof.
  intros Ho Hle Hlog. rewrite (reconfigure_fails _ _ _ _ Ho Hle).
  rewrite (touched_existing _ _ Hlog).
  do 2 eexists. split; [reflexivity|]. simpl.
  split; [apply lookup_insert_eq|]. split; [reflexivity|].
  split; [reflexivity|]. split; [reflexivity|]. split; [reflexivity|].
  eapply submit_shutdown; [simpl; apply lookup_insert_eq | reflexivity].
Qed.

(** X10.  Construction and an existing log file.  A constructor given the
    path of a log file that exists already opens it to append and closes
    it: the file keeps its contents, and no file, line of the console or
    future changes, whether the constructor then returns or raises for
    the worker count. *)
Theorem constructor_keeps_existing_log a w p text :
  a_log_file a = Some p ->
  fs w !! p = Some text ->
  exists w' r,
    new a w = Some (w', r)
    /\ fs w' !! p = Some text
    /\ fs w' = fs w
    /\ stdout w' = stdout w /\ futures w' = futures w.
Proof.
  intros Hp Htext.
  assert (Hfs : touched (a_log_file a) (fs w) = fs w).
  { apply touched_existing. unfold log_file_exists. rewrite Hp. eauto. }
  destruct (decide (max_workers_of a (cpu_count w) <= 0)).
  - rewrite new_fails by done. do 2 eexists. split; [reflexivity|]. simpl.
    by rewrite Hfs.
  - rewrite new_ok by lia. do 2 eexists. split; [reflexivity|]. simpl.
    by rewrite Hfs.
Qed.

Lemma fresh_empty : fresh (dom (∅ : gmap nat ControlThreads)) = control.
Proof. reflexivity. Qed.

(** X11.  Loading the module.  On a host with three or more logical CPUs
    the module creates [control] as the first object: a thread pool of the
    CPU count minus two workers, debug on, console on, no log file, no
    memory, no callback, the empty default group; it touches no file.  On
    a host with two or fewer the constructor call at module level raises
    [ValueError], so the import fails and there is no [control]. *)
Theorem import_needs_three_cpus cpus files :
  load_module cpus files
  = if decide (3 <= cpus)
    then Some (mkWorld
                 {[control := mkControlThreads {["default" := []]} None (cpus - 2)
                                true true false (PyTuple [false]) None false []
                                (mkExecutor false (cpus - 2) false)]}
                 [] files [] [] 0 cpus, Ok control)
    else Some (host cpus files,
               Raise (ValueError "max_workers must be greater than 0")).
Proof.
  unfold load_module. destruct (decide (3 <= cpus)).
  - rewrite new_ok by (unfold max_workers_of, default_max_workers; simpl; lia).
    simpl. rewrite fresh_empty. reflexivity.
  - rewrite new_fails by (unfold max_workers_of, default_max_workers; simpl; lia).
    reflexivity.
Qed.

(** ** The handles of a group *)

Lemma keeps_handles_refl w : keeps_handles w w.
Proof. intros H. exact H. Qed.

Lemma keeps_handles_trans w1 w2 w3 :
  keeps_handles w1 w2 -> keeps_handles w2 w3 -> keeps_handles w1 w3.
Proof. unfold keeps_handles. tauto. Qed.

Lemma keeps_handles_emit self o line pl w :
  objs w !! self = Some o -> keeps_handles w (emit self o line pl w).
Proof.
  intros Ho Hw a o1 g l fid. simpl. destruct (keep_in_memory o); [|apply Hw].
  destruct (decide (self = a)) as [->|Hne].
  - rewrite lookup_insert_eq. intros [= <-]. simpl. eapply Hw; eauto.
  - rewrite lookup_insert_ne by done. apply Hw.
Qed.

Lemma keeps_handles_future fid f f' w :
  futures w !! fid = Some f -> (done f = true -> done f' = true) ->
  keeps_handles w (set_futures (<[fid := f']> (futures w)) w).
Proof.
  intros Hf _ Hw a o g l fid1 Ho Hg Hin. simpl.
  destruct (Hw a o g l fid1 Ho Hg Hin) as [f1 H1].
  destruct (decide (fid = fid1)) as [->|Hne].
  - rewrite list_lookup_insert_eq by (eapply lookup_lt_Some; eauto). eauto.
  - rewrite list_lookup_insert_ne by done. eauto.
Qed.

Lemma keeps_handles_submit self o work g w :
  objs w !! self = Some o -> anywhere self g ->
  keeps_handles w (submitted self o work g w).
Proof.
  intros Ho _ Hw a o1 g1 l fid. simpl.
  assert (Hold : forall fid0, is_Some (futures w !! fid0) ->
            is_Some ((futures w ++ [mkFuture work (ex_process (executor o)) PENDING
                                      None None [worker_callbacks_fn]]) !! fid0)).
  { intros fid0 [f0 H0]. exists f0. rewrite lookup_app_l; [done|].
    eapply lookup_lt_Some; eauto. }
  destruct (decide (self = a)) as [->|Hne].
  - rewrite lookup_insert_eq. intros [= <-]. simpl.
    destruct (decide (g = g1)) as [->|Hg].
    + rewrite lookup_insert_eq. intros [= <-] Hin.
      apply elem_of_app in Hin as [Hin|Hin].
      * apply Hold. destruct (tasks o !! g1) as [l0|] eqn:E; simpl in Hin.
        -- eapply Hw; eauto.
        -- by apply elem_of_nil in Hin.
      * apply list_elem_of_singleton in Hin as ->. rewrite lookup_snoc_new. eauto.
    + rewrite lookup_insert_ne by done. intros Hg1 Hin. apply Hold.
      eapply Hw; eauto.
  - rewrite lookup_insert_ne by done. intros H1 Hg1 Hin. apply Hold.
    eapply Hw; eauto.
Qed.

Lemma keeps_handles_same w w' :
  objs w' = objs w -> futures w' = futures w -> keeps_handles w w'.
Proof. intros Ho Hf Hw a o g l fid. rewrite Ho, Hf. apply Hw. Qed.

Lemma keeps_handles_reset self o' w files :
  tasks o' = {["default" := []]} ->
  keeps_handles w
    (mkWorld (<[self := o']> (objs w)) (futures w) files (stdout w)
       (callback_calls w) (slept_ms w) (cpu_count w)).
Proof.
  intros Ht Hw a o g l fid. simpl. destruct (decide (self = a)) as [->|Hne].
  - rewrite lookup_insert_eq. intros [= <-]. rewrite Ht. intros Hg Hin.
    destruct (decide (g = "default")) as [->|Hd].
    + rewrite lookup_singleton_eq in Hg. inversion Hg; subst.
      by apply elem_of_nil in Hin.
    + by rewrite lookup_singleton_ne in Hg.
  - rewrite lookup_insert_ne by done. apply Hw.
Qed.

(** Every event keeps the handles of the group tables among the futures of
    the process. *)
Lemma keeps_handles_event ev : keeps keeps_handles (event ev).
Proof.
  destruct ev as [a op|args|a]; simpl.
  - assert (is_reconfigure op \/ ~ is_reconfigure op) as [Hr|Hnr]
      by (destruct op; simpl; tauto).
    + destruct op; simpl in Hr; try tauto. simpl. intros w w' r H.
      destruct (objs w !! a) as [o|] eqn:Ha.
      * destruct (reconfigure_eq a a0 w o Ha) as (ex & r' & Heq).
        rewrite Heq in H. inversion H; subst. by apply keeps_handles_reset.
      * unfold reconfigure, bind, modify in H. rewrite Ha in H. discriminate.
    + apply (keeps_call keeps_handles anywhere keeps_handles_refl
               keeps_handles_trans keeps_handles_emit keeps_handles_future
               keeps_handles_submit); try done.
      * intros ms w. by apply keeps_handles_same.
      * intros files w. by apply keeps_handles_same.
      * apply op_anywhere.
  - apply keeps_void. { apply keeps_handles_refl. } { apply keeps_handles_trans. }
    intros w w' r H. destruct (decide (max_workers_of args (cpu_count w) <= 0)).
    + rewrite new_fails in H by done. inversion H; subst.
      by apply keeps_handles_same.
    + rewrite new_ok in H by lia. inversion H; subst.
      by apply keeps_handles_reset.
  - apply (keeps_env_action keeps_handles anywhere keeps_handles_refl
             keeps_handles_trans keeps_handles_emit keeps_handles_future
             keeps_handles_submit). destruct a; exact I.
Qed.

Lemma handles_exist_run evs : forall w w',
  handles_exist w -> run evs w = Some w' -> handles_exist w'.
Proof.
  induction evs as [|ev evs IH]; simpl; intros w w' Hw H.
  - by inversion H; subst.
  - destruct (event ev w) as [[w1 r]|] eqn:E; [|discriminate].
    eapply IH; [|exact H]. eapply keeps_handles_event; eauto.
Qed.

Lemma handles_exist_host cpus files : handles_exist (host cpus files).
Proof. intros a o g l fid H. simpl in H. by rewrite lookup_empty in H. Qed.

(** The comprehension over a list of existing futures returns their done
    flags, position by position. *)
Lemma done_list_spec l w :
  (forall fid, fid ∈ l -> is_Some (futures w !! fid)) ->
  exists q,
    done_list l w = Some (w, Ok q)
    /\ length q = length l
    /\ forall k fid, l !! k = Some fid ->
         exists f, futures w !! fid = Some f /\ q !! k = Some (done f).
Proof.
  induction l as [|i l IH]; intros Hall.
  - exists []. split; [reflexivity|]. split; [reflexivity|]. intros k fid H.
    by rewrite lookup_nil in H.
  - destruct (Hall i) as [f Hf]; [apply elem_of_cons; by left|].
    destruct IH as (q & Hq & Hlen & Hk).
    { intros fid Hin. apply Hall. apply elem_of_cons. by right. }
    exists (done f :: q). split.
    { simpl. rewrite (bind_ok _ _ _ _ _ (get_future_ok _ _ _ Hf)).
      by rewrite (bind_ok _ _ _ _ _ Hq). }
    split; [simpl; by rewrite Hlen|].
    intros [|k] fid H; simpl in H.
    + inversion H; subst. eauto.
    + apply Hk, H.
Qed.

(** X12.  In every state a process reaches after it started, [get_queue]
    on a group of the table returns, changes nothing, and gives one flag
    per handle of the group in submission order: the flag at a position is
    whether the handle at that position is done. *)
Theorem get_queue_is_snapshot_in_order cpus files evs w self o G l :
  run evs (host cpus files) = Some w ->
  objs w !! self = Some o ->
  tasks o !! G = Some l ->
  exists q,
    get_queue self G w = Some (w, Ok q)
    /\ length q = length l
    /\ forall k fid, l !! k = Some fid ->
         exists f, futures w !! fid = Some f /\ q !! k = Some (done f).
Proof.
  intros Hrun Ho Hg.
  pose proof (handles_exist_run _ _ _ (handles_exist_host cpus files) Hrun) as Hw.
  destruct (done_list_spec l w) as (q & Hq & Hrest).
  { intros fid Hin. eapply Hw; eauto. }
  exists q. split; [|exact Hrest]. unfold get_queue, poll.
  by rewrite (bind_ok _ _ _ _ _ (get_self_ok _ _ _ Ho)), Hg.
Qed.

(** ** Done flags over time *)

Lemma evolves_advances self w w' : evolves w w' -> advances self w w'.
Proof. intros [Ho Hf]. split; [intros o H; eauto | exact Hf]. Qed.

Lemma advances_refl self w : advances self w w.
Proof. apply evolves_advances, evolves_refl. Qed.

Lemma advances_trans self w1 w2 w3 :
  advances self w1 w2 -> advances self w2 w3 -> advances self w1 w3.
Proof.
  intros [Ho12 Hf12] [Ho23 Hf23]. split.
  - intros o H. destruct (Ho12 o H) as (o2 & H2 & G2).
    destruct (Ho23 o2 H2) as (o3 & H3 & G3). exists o3.
    eauto using tasks_grow_trans.
  - intros fid f H. destruct (Hf12 fid f H) as (f2 & H2 & D2).
    destruct (Hf23 fid f2 H2) as (f3 & H3 & D3). eauto.
Qed.

Lemma advances_frame self w w' :
  objs w' !! self = objs w !! self -> futures w' = futures w ->
  advances self w w'.
Proof.
  intros Ho Hf. split.
  - intros o H. rewrite Ho. eauto using tasks_grow_refl.
  - intros fid f H. rewrite Hf. eauto.
Qed.

(** Every event but a [reconfigure] of [self] lets [self] advance. *)
Lemma advances_event self ev :
  not_reconfigure_of self ev ->
  forall w, is_Some (objs w !! self) ->
  forall w' r, event ev w = Some (w', r) -> advances self w w'.
Proof.
  intros Hnr w [o Ho] w' r H. destruct ev as [a op|args|a]; simpl in *.
  - assert (is_reconfigure op \/ ~ is_reconfigure op) as [Hr|Hnr']
      by (destruct op; simpl; tauto).
    + destruct op; simpl in Hr; try tauto. simpl in H.
      destruct (objs w !! a) as [oa|] eqn:Ha.
      * destruct (reconfigure_eq a a0 w oa Ha) as (ex & r' & Heq).
        rewrite Heq in H. inversion H; subst. apply advances_frame; [|done].
        simpl. by rewrite lookup_insert_ne.
      * unfold reconfigure, bind, modify in H. rewrite Ha in H. discriminate.
    + apply evolves_advances. eapply evolves_call; eauto.
  - unfold void in H.
    assert (Hnew : forall w1 r1, new args w = Some (w1, r1) -> advances self w w1).
    { intros w1 r1 H1. destruct (decide (max_workers_of args (cpu_count w) <= 0)).
      - rewrite new_fails in H1 by done. inversion H1; subst.
        by apply advances_frame.
      - rewrite new_ok in H1 by lia. inversion H1; subst.
        apply advances_frame; [|done]. simpl. rewrite lookup_insert_ne; [done|].
        intros Heq. pose proof (fresh_unused w) as Hf. rewrite Heq in Hf.
        congruence. }
    apply bind_inv in H as [(w1 & x & H1 & H2)|(e & H1 & _)].
    + inversion H2; subst. eauto.
    + eauto.
  - apply evolves_advances.
    eapply (keeps_env_action evolves anywhere evolves_refl evolves_trans
              evolves_emit evolves_future evolves_submit); [|exact H].
    destruct a; exact I.
Qed.

Lemma advances_run self evs : forall w w',
  Forall (not_reconfigure_of self) evs ->
  is_Some (objs w !! self) ->
  run evs w = Some w' -> advances self w w'.
Proof.
  induction evs as [|ev evs IH]; simpl; intros w w' Hall Hs H.
  - inversion H; subst. apply advances_refl.
  - inversion Hall as [|? ? Hev Hevs]; subst.
    destruct (event ev w) as [[w1 r]|] eqn:E; [|discriminate].
    pose proof (advances_event self ev Hev w Hs w1 r E) as Hadv.
    eapply advances_trans; [exact Hadv|]. apply IH; [done| |done].
    destruct Hs as [o Ho]. destruct (proj1 Hadv o Ho) as (o' & Ho' & _). eauto.
Qed.

Lemma poll_inv self g w w' q :
  poll self g w = Some (w', Ok q) ->
  exists o l, objs w !! self = Some o /\ tasks o !! g = Some l
    /\ done_list l w = Some (w', Ok q).
Proof.
  unfold poll, bind, get_self. destruct (objs w !! self) as [o|]; [|discriminate].
  destruct (tasks o !! g) as [l|] eqn:Hg; [|discriminate]. eauto.
Qed.

Lemma done_list_flags l w : forall w' q,
  done_list l w = Some (w', Ok q) ->
  length q = length l
  /\ forall k fid, l !! k = Some fid ->
       exists f, futures w !! fid = Some f /\ q !! k = Some (done f).
Proof.
  induction l as [|i l IH]; simpl; intros w' q H.
  - inversion H; subst. split; [done|]. intros k fid Hk.
    by rewrite lookup_nil in Hk.
  - unfold bind at 1, get_future in H.
    destruct (futures w !! i) as [f|] eqn:Hf; [|discriminate].
    apply bind_inv in H as [(w1 & q1 & H1 & H2)|(e & _ & ?)]; [|discriminate].
    inversion H2; subst. pose proof (done_list_state _ _ _ _ H1) as ->.
    destruct (IH _ _ H1) as [Hlen Hk]. split; [simpl; by rewrite Hlen|].
    intros [|k] fid Hl; simpl in Hl.
    + inversion Hl; subst. eauto.
    + apply Hk, Hl.
Qed.

(** X14.  Over any stretch of a process in which the instance is not
    reconfigured, the answers of [get_queue] for a group only move
    forward: the later answer is at least as long, and a position that
    showed done still shows done. *)
Theorem get_queue_flags_never_go_back self G evs w w' q q' :
  Forall (not_reconfigure_of self) evs ->
  run evs w = Some w' ->
  get_queue self G w = Some (w, Ok q) ->
  get_queue self G w' = Some (w', Ok q') ->
  (length q <= length q')%nat
  /\ forall k, q !! k = Some true -> q' !! k = Some true.
Proof.
  intros Hevs Hrun Hq Hq'. unfold get_queue in *.
  destruct (poll_inv _ _ _ _ _ Hq) as (o & l & Ho & Hl & Hd).
  destruct (poll_inv _ _ _ _ _ Hq') as (o' & l' & Ho' & Hl' & Hd').
  destruct (done_list_flags _ _ _ _ Hd) as [Hlen Hk].
  destruct (done_list_flags _ _ _ _ Hd') as [Hlen' Hk'].
  destruct (advances_run self evs w w' Hevs (ex_intro _ o Ho) Hrun) as [Hobjs Hfut].
  destruct (Hobjs o Ho) as (o2 & Ho2 & Hgrow).
  assert (o2 = o') as -> by congruence.
  destruct (Hgrow _ _ Hl) as (l2 & Hl2 & [ext Hext]).
  assert (l2 = l') as -> by congruence. subst l'.
  split. { rewrite Hlen, Hlen', length_app. lia. }
  intros k Hqk.
  assert (Hlt : (k < length l)%nat).
  { rewrite <- Hlen. eapply lookup_lt_Some; eauto. }
  destruct (lookup_lt_is_Some_2 l k Hlt) as [fid Hfid].
  destruct (Hk _ _ Hfid) as (f & Hf & Hqf).
  assert (done f = true) by congruence.
  destruct (Hfut _ _ Hf) as (f' & Hf' & Hdone).
  destruct (Hk' k fid) as (f2 & Hf2 & Hq2).
  { rewrite lookup_app_l by done. exact Hfid. }
  assert (f2 = f') as -> by congruence. rewrite Hq2. f_equal. auto.
Qed.

(** ** Counting submissions *)

Section Kept.

Variable self : nat.
Variable G : string.









End Kept.


(** ** Waiting among other threads *)

Lemma set_slept_same w : set_slept_ms (slept_ms w) w = w.
Proof. by destruct w. Qed.

Lemma elsewhere_inv ev w w' r :
  elsewhere ev w = Some (w', r) ->
  r = Ok tt
  /\ exists w1 r1, event ev w = Some (w1, r1) /\ w' = set_slept_ms (slept_ms w) w1.
Proof.
  unfold elsewhere. destruct (event ev w) as [[w1 r1]|]; [|discriminate].
  intros H. inversion H; subst. eauto.
Qed.

(** What the other threads do during one sleep never raises into the
    waiting thread and does not add to the time it has slept. *)
Lemma all_elsewhere_slept evs : forall w w' r,
  all_elsewhere evs w = Some (w', r) -> r = Ok tt /\ slept_ms w' = slept_ms w.
Proof.
  induction evs as [|ev evs IH]; simpl; intros w w' r H.
  - by inversion H.
  - apply bind_inv in H as [(w1 & [] & H1 & H2)|(e & H1 & _)].
    + apply elsewhere_inv in H1 as (_ & w0 & r0 & _ & ->).
      destruct (IH _ _ _ H2) as [-> Hs]. split; [done|]. by rewrite Hs.
    + apply elsewhere_inv in H1 as [? _]. discriminate.
Qed.

Lemma advances_some self w w' :
  advances self w w' -> is_Some (objs w !! self) -> is_Some (objs w' !! self).
Proof. intros [Ho _] [o H]. destruct (Ho o H) as (o' & Ho' & _). eauto. Qed.

Lemma advances_elsewhere self ev :
  not_reconfigure_of self ev ->
  forall w, is_Some (objs w !! self) ->
  forall w' r, elsewhere ev w = Some (w', r) -> advances self w w'.
Proof.
  intros Hnr w Hs w' r H. apply elsewhere_inv in H as (_ & w1 & r1 & H & ->).
  eapply advances_trans; [eapply advances_event; eauto|].
  by apply advances_frame.
Qed.

Lemma advances_all_elsewhere self evs : forall w w' r,
  Forall (not_reconfigure_of self) evs ->
  is_Some (objs w !! self) ->
  all_elsewhere evs w = Some (w', r) -> advances self w w'.
Proof.
  induction evs as [|ev evs IH]; simpl; intros w w' r Hall Hs H.
  - inversion H; subst. apply advances_refl.
  - inversion Hall as [|? ? Hev Hevs]; subst.
    apply bind_inv in H as [(w1 & [] & H1 & H2)|(e & H1 & _)].
    + pose proof (advances_elsewhere self ev Hev w Hs _ _ H1) as Hadv.
      eapply advances_trans; [exact Hadv|].
      eapply IH; eauto using advances_some.
    + eapply advances_elsewhere; eauto.
Qed.

(** Unless [self] is reconfigured, its group table has only grown and the
    futures have only moved on when the loop ends, however it ends. *)
Lemma wait_loop_among_advances self g sched : forall queue w w' r,
  no_reconfigure_of self sched ->
  is_Some (objs w !! self) ->
  wait_loop_among self g sched queue w = Some (w', r) -> advances self w w'.
Proof.
  induction sched as [|evs sched IH]; intros queue w w' r Hall Hs H; simpl in H;
    destruct (decide (false ∈ queue)) as [Hin|Hnin];
    try (inversion H; subst; apply advances_refl).
  inversion Hall as [|? ? Hevs Hsched]; subst.
  apply bind_inv in H as [(w1 & [] & H1 & H)|(e & H1 & _)]; [|discriminate].
  inversion H1; subst. clear H1.
  assert (Hsleep : advances self w (set_slept_ms (slept_ms w + 50) w))
    by (by apply advances_frame).
  eapply advances_trans; [exact Hsleep|].
  pose proof (advances_some _ _ _ Hsleep Hs) as Hs1.
  apply bind_inv in H as [(w2 & [] & H2 & H)|(e & H2 & _)];
    [|eapply advances_all_elsewhere; eauto].
  pose proof (advances_all_elsewhere self evs _ _ _ Hevs Hs1 H2) as Hadv.
  eapply advances_trans; [exact Hadv|].
  apply bind_inv in H as [(w3 & q3 & H3 & H)|(e & H3 & _)].
  - pose proof (poll_state _ _ _ _ _ H3) as ->.
    eapply IH; eauto using advances_some.
  - pose proof (poll_state _ _ _ _ _ H3) as ->. apply advances_refl.
Qed.

(** When the loop returns, the futures then in the group are all done. *)
Lemma wait_loop_among_done self g sched : forall queue w w',
  poll self g w = Some (w, Ok queue) ->
  wait_loop_among self g sched queue w = Some (w', Ok Returned) ->
  exists o' l', objs w' !! self = Some o' /\ tasks o' !! g = Some l'
    /\ forall fid, fid ∈ l' -> reports_done w' fid.
Proof.
  induction sched as [|evs sched IH]; intros queue w w' Hpoll H; simpl in H;
    destruct (decide (false ∈ queue)) as [Hin|Hnin].
  - discriminate.
  - inversion H; subst. eapply poll_all; eauto.
  - apply bind_inv in H as [(w1 & [] & H1 & H)|(e & _ & ?)]; [|discriminate].
    apply bind_inv in H as [(w2 & [] & H2 & H)|(e & _ & ?)]; [|discriminate].
    apply bind_inv in H as [(w3 & q3 & H3 & H)|(e & _ & ?)]; [|discriminate].
    pose proof (poll_state _ _ _ _ _ H3) as ->. eapply IH; eauto.
  - inversion H; subst. eapply poll_all; eauto.
Qed.

(** The loop sleeps 50 ms per round, at most once per entry of the
    schedule. *)
Lemma wait_loop_among_slept self g sched : forall queue w w' r,
  wait_loop_among self g sched queue w = Some (w', r) ->
  exists n : nat, (n <= length sched)%nat /\ slept_ms w' = slept_ms w + 50 * Z.of_nat n.
Proof.
  induction sched as [|evs sched IH]; intros queue w w' r H; simpl in H;
    destruct (decide (false ∈ queue)) as [Hin|Hnin];
    try (inversion H; subst; exists 0%nat; simpl; split; lia).
  apply bind_inv in H as [(w1 & [] & H1 & H)|(e & H1 & _)]; [|discriminate].
  inversion H1; subst. clear H1.
  apply bind_inv in H as [(w2 & [] & H2 & H)|(e & H2 & _)];
    [|apply all_elsewhere_slept in H2 as [? _]; discriminate].
  apply all_elsewhere_slept in H2 as [_ H2]. simpl in H2.
  apply bind_inv in H as [(w3 & q3 & H3 & H)|(e & H3 & _)].
  - pose proof (poll_state _ _ _ _ _ H3) as ->.
    destruct (IH _ _ _ _ H) as (n & Hn & Hsl). exists (S n). simpl length.
    split; [lia|]. rewrite Hsl, H2. lia.
  - pose proof (poll_state _ _ _ _ _ H3) as ->. exists 1%nat. simpl length.
    split; [lia|]. rewrite H2. lia.
Qed.

(** A schedule made of steps of workers, submissions and logging calls
    only: [wait_among] is [wait]. *)
Lemma all_elsewhere_env acts w :
  all_elsewhere (map Env acts) w = env_actions acts w.
Proof.
  revert w. induction acts as [|a acts IH]; intros w; [reflexivity|].
  cbn [map all_elsewhere env_actions]. unfold bind, elsewhere.
  cbn [event].
  destruct (env_action a w) as [[w1 r1]|] eqn:E; [|reflexivity].
  assert (Hr : r1 = Ok tt).
  { destruct a; simpl in E; unfold swallow in E;
      repeat match type of E with
             | match ?x with _ => _ end = _ => destruct x as [[? ?]|]
             end; congruence. }
  subst r1.
  assert (Hs : slept_ms w1 = slept_ms w).
  { apply (same_slept_env_actions [a] w w1 (Ok tt)). simpl. unfold bind.
    by rewrite E. }
  rewrite <- Hs, set_slept_same. apply IH.
Qed.

Lemma wait_loop_among_env self g sched : forall queue w,
  wait_loop_among self g (as_events sched) queue w
  = wait_loop self g sched queue w.
Proof.
  induction sched as [|acts sched IH]; intros queue w; [reflexivity|].
  unfold as_events in *. cbn [map wait_loop_among wait_loop].
  destruct (decide (false ∈ queue)) as [Hin|Hnin]; [|reflexivity].
  unfold bind. destruct (sleep_ms 50 w) as [[w1 [[]|e]]|]; try reflexivity.
  rewrite all_elsewhere_env.
  destruct (env_actions acts w1) as [[w2 [[]|e]]|]; try reflexivity.
  destruct (poll self g w2) as [[w3 [q|e]]|]; try reflexivity.
  apply IH.
Qed.

Lemma wait_among_env self g sched w :
  wait_among self g (as_events sched) w = wait self g sched w.
Proof.
  unfold wait_among, wait, bind.
  destruct (get_self self w) as [[w1 [o|e]]|]; try reflexivity.
  destruct (decide (tasks o !! g = None)); [reflexivity|].
  destruct (poll self g w1) as [[w2 [q|e]]|]; try reflexivity.
  apply wait_loop_among_env.
Qed.

(** C5, as amended.  Let other threads do anything during the sleeps of
    [wait(G)] except reconfigure the waiting instance.  Then, when
    [wait(G)] returns, every handle that was in the sequence of [G] when it
    was called reports done, and the caller has slept a whole number of
    50 ms intervals, one per round of the loop.  Whatever the schedule,
    [wait] returns at once, without sleeping or changing anything, on a
    group that was never used (absent, or the empty default group) and
    more generally on a group whose handles are all done already. *)
Theorem wait_returns_group_done self G sched w o :
  objs w !! self = Some o ->
  (no_reconfigure_of self sched ->
   forall w', wait_among self G sched w = Some (w', Ok Returned) ->
     (forall l fid, tasks o !! G = Some l -> fid ∈ l -> reports_done w' fid)
     /\ exists n : nat, (n <= length sched)%nat
          /\ slept_ms w' = slept_ms w + 50 * Z.of_nat n)
  /\ (tasks o !! G = None \/ tasks o !! G = Some [] ->
      wait_among self G sched w = Some (w, Ok Returned))
  /\ (forall l, tasks o !! G = Some l ->
      (forall fid, fid ∈ l -> reports_done w fid) ->
      wait_among self G sched w = Some (w, Ok Returned)).
Proof.
  intros Ho.
  assert (Hready : forall l, tasks o !! G = Some l ->
            (forall fid, fid ∈ l -> reports_done w fid) ->
            wait_among self G sched w = Some (w, Ok Returned)).
  { intros l Hg Hall. unfold wait_among.
    rewrite (bind_ok _ _ _ _ _ (get_self_ok _ _ _ Ho)), Hg.
    rewrite decide_False by discriminate.
    destruct (done_list_ready l w Hall) as (q & Hq & Hnf).
    assert (Hpoll : poll self G w = Some (w, Ok q)).
    { unfold poll. by rewrite (bind_ok _ _ _ _ _ (get_self_ok _ _ _ Ho)), Hg. }
    rewrite (bind_ok _ _ _ _ _ Hpoll).
    destruct sched; simpl; by rewrite decide_False. }
  split; [|split; [|exact Hready]].
  - intros Hsched w' H. unfold wait_among in H.
    rewrite (bind_ok _ _ _ _ _ (get_self_ok _ _ _ Ho)) in H.
    destruct (decide (tasks o !! G = None)) as [Hnone|Hsome].
    { inversion H; subst. split.
      - intros l fid Hl. congruence.
      - exists 0%nat. simpl. split; lia. }
    apply bind_inv in H as [(w1 & q & H1 & H)|(e & _ & ?)]; [|discriminate].
    pose proof (poll_state _ _ _ _ _ H1) as ->. split.
    + intros l fid Hl Hin.
      destruct (wait_loop_among_done _ _ _ _ _ _ H1 H) as (o' & l' & Ho' & Hl' & Hall).
      apply wait_loop_among_advances in H as [Hobjs _]; [|done|eauto].
      destruct (Hobjs _ Ho) as (o2 & Ho2 & Hgrow).
      assert (o2 = o') as -> by congruence.
      destruct (Hgrow _ _ Hl) as (l2 & Hl2 & Hpre).
      assert (l2 = l') as -> by congruence.
      apply Hall. destruct Hpre as [k ->]. apply elem_of_app. by left.
    + eapply wait_loop_among_slept; eauto.
  - intros [Hg|Hg].
    + unfold wait_among. rewrite (bind_ok _ _ _ _ _ (get_self_ok _ _ _ Ho)), Hg.
      reflexivity.
    + apply (Hready [] Hg). intros fid Hin. by apply elem_of_nil in Hin.
Qed.

(** C5, as stated, fails when another thread reconfigures the instance
    during the wait.  One call is pending in the default group;
    [reconfigure] resets the group table during the first sleep; the next
    poll finds the default group empty and [wait] returns, while the
    handle that was in the group at call time is still pending.  On a
    named group the next poll raises [KeyError] instead. *)
Lemma wait_returns_after_reconfigure_with_handle_pending :
  exists o w' f w'',
    objs pending_default !! control = Some o
    /\ tasks o !! "default" = Some [0%nat]
    /\ wait_among control "default" [[Call control (OpReconfigure default_args)]]
         pending_default
       = Some (w', Ok Returned)
    /\ futures w' !! 0%nat = Some f /\ fut_state f = PENDING /\ done f = false
    /\ ~ reports_done w' 0
    /\ wait_among control "g" [[Call control (OpReconfigure default_args)]]
         two_pending
       = Some (w'', Raise (KeyError "g")).
Proof.
  do 4 eexists.
  split; [vm_compute; reflexivity|]. split; [vm_compute; reflexivity|].
  split; [vm_compute; reflexivity|]. split; [vm_compute; reflexivity|].
  split; [reflexivity|]. split; [reflexivity|].
  split; [|vm_compute; reflexivity].
  intros (f & Hf & Hd). vm_compute in Hf. injection Hf as <-. discriminate Hd.
Qed.

Lemma wait_returns_group_done_witness :
  objs two_pending !! control
  = Some (set_tasks {["default" := []; "g" := [0%nat; 1%nat]]} control0)
  /\ no_reconfigure_of control sched2
  /\ exists w',
       wait_among control "g" sched2 two_pending = Some (w', Ok Returned)
       /\ reports_done w' 0 /\ reports_done w' 1
       /\ slept_ms w' = 150
       /\ wait_among control "never" sched2 two_pending
          = Some (two_pending, Ok Returned).
Proof.
  assert (Hsched : no_reconfigure_of control sched2) by (repeat constructor).
  split; [vm_compute; reflexivity|]. split; [exact Hsched|].
  destruct (wait_returns_group_done control "g" sched2 two_pending
              (set_tasks {["default" := []; "g" := [0%nat; 1%nat]]} control0))
    as [Hdone _]; [vm_compute; reflexivity|].
  destruct (wait_returns_group_done control "never" sched2 two_pending
              (set_tasks {["default" := []; "g" := [0%nat; 1%nat]]} control0))
    as (_ & Hnever & _); [vm_compute; reflexivity|].
  destruct (wait_among control "g" sched2 two_pending) as [[w' r]|] eqn:E;
    [|vm_compute in E; discriminate].
  assert (Hr : r = Ok Returned) by (vm_compute in E; congruence).
  subst r. exists w'. split; [reflexivity|].
  destruct (Hdone Hsched w' eq_refl) as [Hall _].
  split; [apply (Hall [0%nat; 1%nat] 0%nat); [reflexivity | repeat constructor]|].
  split; [apply (Hall [0%nat; 1%nat] 1%nat); [reflexivity | repeat constructor]|].
  split; [vm_compute in E; inversion E; reflexivity|].
  apply Hnever. left. reflexivity.
Defined.

(** ** Waiting has no timeout *)

Lemma still_pending_refl fid w : still_pending fid w w.
Proof. intros f Hf Hd. eauto. Qed.

Lemma still_pending_trans fid w1 w2 w3 :
  still_pending fid w1 w2 -> still_pending fid w2 w3 -> still_pending fid w1 w3.
Proof.
  intros H12 H23 f Hf Hd. destruct (H12 f Hf Hd) as (f2 & Hf2 & Hd2). eauto.
Qed.

Lemma still_pending_frame fid w w' :
  futures w' = futures w -> still_pending fid w w'.
Proof. intros Heq f Hf Hd. rewrite Heq. eauto. Qed.

Lemma still_pending_emit fid self o line pl w :
  objs w !! self = Some o -> still_pending fid w (emit self o line pl w).
Proof. intros _. by apply still_pending_frame. Qed.

Lemma still_pending_submit fid self o work g w :
  objs w !! self = Some o -> anywhere self g ->
  still_pending fid w (submitted self o work g w).
Proof.
  intros _ _ f Hf Hd. simpl. exists f. split; [|done].
  rewrite lookup_app_l; [done|]. eapply lookup_lt_Some; eauto.
Qed.

Lemma still_pending_env fid a :
  never_finishes fid a -> keeps (still_pending fid) (env_action a).
Proof.
  intros Hnf. destruct a as [fid'|fid' ctx|self ctx work g|self ctx content tipo];
    simpl in *; apply keeps_swallow.
  - intros w w' r H. unfold worker_starts, bind, get_future, modify_future in H.
    destruct (futures w !! fid') as [f'|] eqn:Hf'; [|discriminate].
    destruct (fut_state f') eqn:Hst; simpl in H; rewrite ?Hf' in H;
      inversion H; subst; try apply still_pending_refl.
    intros f Hf Hd. simpl. destruct (decide (fid' = fid)) as [->|Hne].
    + rewrite list_lookup_insert_eq by (eapply lookup_lt_Some; eauto). eauto.
    + rewrite list_lookup_insert_ne by done. eauto.
  - intros w w' r H. unfold worker_finishes in H.
    destruct (futures w !! fid') as [f'|] eqn:Hf'.
    + rewrite (bind_ok _ _ _ _ _ (get_future_ok _ _ _ Hf')) in H.
      destruct (fut_state f') eqn:Hst;
        try (inversion H; subst; apply still_pending_refl).
      rewrite (bind_ok _ _ _ _ _ (modify_future_ok _ _ _ _ Hf')) in H.
      eapply still_pending_trans;
        [|eapply (keeps_invoke_callbacks (still_pending fid));
          [apply still_pending_refl | apply still_pending_trans
          | apply still_pending_emit | exact H]].
      intros f Hf Hd. simpl. rewrite list_lookup_insert_ne by done. eauto.
    + unfold bind, get_future in H. rewrite Hf' in H. discriminate.
  - apply (keeps_submit (still_pending fid) anywhere);
      [apply still_pending_refl | apply still_pending_submit | exact I].
  - apply (keeps_wlog (still_pending fid)). apply still_pending_emit.
Qed.

Lemma still_pending_env_actions fid l :
  Forall (never_finishes fid) l -> keeps (still_pending fid) (env_actions l).
Proof.
  induction 1 as [|a l Ha _ IH]; simpl.
  - apply keeps_ret, still_pending_refl.
  - apply keeps_bind; [apply still_pending_trans | by apply still_pending_env
                      | intros _; exact IH].
Qed.

Lemma still_pending_wait_loop fid self g sched :
  Forall (Forall (never_finishes fid)) sched ->
  forall queue, keeps (still_pending fid) (wait_loop self g sched queue).
Proof.
  induction 1 as [|acts sched Hacts _ IH]; intros queue; simpl;
    destruct (decide (false ∈ queue));
    try (apply keeps_ret, still_pending_refl).
  apply keeps_bind; [apply still_pending_trans | | intros _].
  { intros w w' r H. inversion H; subst. by apply still_pending_frame. }
  apply keeps_bind; [apply still_pending_trans
                    | by apply still_pending_env_actions | intros _].
  apply keeps_bind; [apply still_pending_trans | | exact IH].
  apply keeps_poll, still_pending_refl.
Qed.

(** An event in which no worker ends the call of [fid] leaves [fid] as
    unfinished as it was. *)
Lemma still_pending_event fid ev :
  never_ends fid ev -> keeps (still_pending fid) (event ev).
Proof.
  intros Hne. destruct ev as [a op|args|act]; simpl in *.
  - destruct op; simpl.
    + apply keeps_void; [apply still_pending_refl | apply still_pending_trans|].
      apply (keeps_submit (still_pending fid) anywhere);
        [apply still_pending_refl | apply still_pending_submit | exact I].
    + apply keeps_void; [apply still_pending_refl | apply still_pending_trans|].
      apply keeps_get_logs; [apply still_pending_refl | apply still_pending_trans].
    + apply keeps_void; [apply still_pending_refl | apply still_pending_trans|].
      apply keeps_poll, still_pending_refl.
    + apply (keeps_wlog (still_pending fid)), still_pending_emit.
    + apply (keeps_wlog (still_pending fid)), still_pending_emit.
    + apply (keeps_wlog (still_pending fid)), still_pending_emit.
    + apply (keeps_wlog (still_pending fid)), still_pending_emit.
    + unfold debug. apply keeps_bind; [apply still_pending_trans | |].
      * apply keeps_get_self, still_pending_refl.
      * intros o. destruct (debug_mode o);
          [apply (keeps_wlog (still_pending fid)), still_pending_emit
          | apply keeps_ret, still_pending_refl].
    + apply (keeps_wlog (still_pending fid)), still_pending_emit.
    + apply keeps_void; [apply still_pending_refl | apply still_pending_trans|].
      unfold timer. apply keeps_bind; [apply still_pending_trans | |].
      * apply keeps_lift, still_pending_refl.
      * intros v. apply keeps_bind; [apply still_pending_trans | |].
        -- apply (keeps_wlog (still_pending fid)), still_pending_emit.
        -- intros _. apply keeps_ret, still_pending_refl.
    + apply keeps_void; [apply still_pending_refl | apply still_pending_trans|].
      unfold wait. apply keeps_bind; [apply still_pending_trans | |].
      * apply keeps_get_self, still_pending_refl.
      * intros o. destruct (decide (tasks o !! group = None));
          [apply keeps_ret, still_pending_refl|].
        apply keeps_bind; [apply still_pending_trans | |].
        -- apply keeps_poll, still_pending_refl.
        -- by apply still_pending_wait_loop.
    + apply keeps_clear_logs; [apply still_pending_refl | apply still_pending_trans|].
      intros files w. by apply still_pending_frame.
    + intros w w' r H. destruct (objs w !! a) as [oa|] eqn:Ha.
      * destruct (reconfigure_eq a a0 w oa Ha) as (ex & r' & Heq).
        rewrite Heq in H. inversion H; subst. by apply still_pending_frame.
      * unfold reconfigure, bind, modify in H. rewrite Ha in H. discriminate.
  - apply keeps_void; [apply still_pending_refl | apply still_pending_trans|].
    intros w w' r H. destruct (decide (max_workers_of args (cpu_count w) <= 0)).
    + rewrite new_fails in H by done. inversion H; subst.
      by apply still_pending_frame.
    + rewrite new_ok in H by lia. inversion H; subst. by apply still_pending_frame.
  - by apply still_pending_env.
Qed.

Lemma still_pending_all_elsewhere fid evs :
  Forall (never_ends fid) evs -> keeps (still_pending fid) (all_elsewhere evs).
Proof.
  induction 1 as [|ev evs Hev _ IH]; simpl.
  - apply keeps_ret, still_pending_refl.
  - apply keeps_bind; [apply still_pending_trans | | intros _; exact IH].
    intros w w' r H. apply elsewhere_inv in H as (_ & w1 & r1 & H & ->).
    eapply still_pending_trans; [eapply still_pending_event; eauto|].
    by apply still_pending_frame.
Qed.

Lemma handles_all_elsewhere evs : keeps keeps_handles (all_elsewhere evs).
Proof.
  induction evs as [|ev evs IH]; simpl.
  - apply keeps_ret, keeps_handles_refl.
  - apply keeps_bind; [apply keeps_handles_trans | | intros _; exact IH].
    intros w w' r H. apply elsewhere_inv in H as (_ & w1 & r1 & H & ->).
    eapply keeps_handles_trans; [eapply keeps_handles_event; eauto|].
    by apply keeps_handles_same.
Qed.

(** A well-formed group with an unfinished handle polls to a list that
    holds [False]. *)
Lemma poll_unfinished self G w o l fid f :
  handles_exist w ->
  objs w !! self = Some o -> tasks o !! G = Some l -> fid ∈ l ->
  futures w !! fid = Some f -> done f = false ->
  exists q, poll self G w = Some (w, Ok q) /\ false ∈ q.
Proof.
  intros Hw Ho Hl Hin Hf Hd.
  destruct (done_list_spec l w) as (q & Hq & _ & Hk).
  { intros fid0 Hin0. eapply Hw; eauto. }
  exists q. split.
  { unfold poll. by rewrite (bind_ok _ _ _ _ _ (get_self_ok _ _ _ Ho)), Hl. }
  apply list_elem_of_lookup in Hin as [k Hkl].
  destruct (Hk _ _ Hkl) as (f' & Hf' & Hqk).
  assert (f' = f) as -> by congruence. rewrite Hd in Hqk.
  apply list_elem_of_lookup. eauto.
Qed.

Lemma wait_loop_among_blocked self G fid sched : forall queue w w' r o l f,
  handles_exist w ->
  objs w !! self = Some o -> tasks o !! G = Some l -> fid ∈ l ->
  futures w !! fid = Some f -> done f = false ->
  false ∈ queue ->
  no_reconfigure_of self sched ->
  Forall (Forall (never_ends fid)) sched ->
  wait_loop_among self G sched queue w = Some (w', r) ->
  r = Ok StillWaiting
  /\ slept_ms w' = slept_ms w + 50 * Z.of_nat (length sched).
Proof.
  induction sched as [|evs sched IH];
    intros queue w w' r o l f Hw Ho Hl Hin Hf Hd Hq Hnr Hall H; simpl in H;
    rewrite decide_True in H by done.
  - inversion H; subst. simpl. split; [done|lia].
  - inversion Hall as [|? ? Hevs Hsched]; subst.
    inversion Hnr as [|? ? Hnr1 Hnr2]; subst.
    apply bind_inv in H as [(w1 & [] & H1 & H)|(e & H1 & _)]; [|discriminate].
    inversion H1; subst. clear H1.
    set (w1 := set_slept_ms (slept_ms w + 50) w) in *.
    apply bind_inv in H as [(w2 & [] & H2 & H)|(e & H2 & _)];
      [|apply all_elsewhere_slept in H2 as [? _]; discriminate].
    pose proof (handles_all_elsewhere evs w1 w2 _ H2 Hw) as Hw2.
    destruct (advances_all_elsewhere self evs w1 w2 _ Hnr1 (ex_intro _ o Ho) H2)
      as [Hobjs _].
    destruct (Hobjs o Ho) as (o2 & Ho2 & Hgrow).
    destruct (Hgrow _ _ Hl) as (l2 & Hl2 & [ext ->]).
    destruct (still_pending_all_elsewhere fid evs Hevs w1 w2 _ H2 f Hf Hd)
      as (f2 & Hf2 & Hd2).
    assert (Hin2 : fid ∈ l ++ ext) by (apply elem_of_app; by left).
    destruct (poll_unfinished self G w2 o2 _ fid f2 Hw2 Ho2 Hl2 Hin2 Hf2 Hd2)
      as (q2 & Hpoll & Hq2).
    rewrite (bind_ok _ _ _ _ _ Hpoll) in H.
    destruct (IH q2 w2 w' r o2 _ f2 Hw2 Ho2 Hl2 Hin2 Hf2 Hd2 Hq2 Hnr2 Hsched H)
      as [Hr Hs].
    split; [exact Hr|]. rewrite Hs.
    apply all_elsewhere_slept in H2 as [_ Hsl].
    rewrite Hsl. simpl length. simpl slept_ms. lia.
Qed.

(** X15.  [wait] has no timeout.  While a handle of the group is not done,
    no worker ends its call and no other thread reconfigures the instance,
    [wait] does not return, whatever else the other threads do: however
    long the observed schedule, the call is still waiting at its end,
    having slept 50 ms for each of its rounds. *)
Theorem wait_blocks_while_handle_unfinished self G sched w o l fid f w' r :
  handles_exist w ->
  objs w !! self = Some o ->
  tasks o !! G = Some l ->
  fid ∈ l ->
  futures w !! fid = Some f ->
  done f = false ->
  no_reconfigure_of self sched ->
  Forall (Forall (never_ends fid)) sched ->
  wait_among self G sched w = Some (w', r) ->
  r = Ok StillWaiting
  /\ slept_ms w' = slept_ms w + 50 * Z.of_nat (length sched).
Proof.
  intros Hw Ho Hl Hin Hf Hd Hnr Hall H. unfold wait_among in H.
  rewrite (bind_ok _ _ _ _ _ (get_self_ok _ _ _ Ho)), Hl in H.
  rewrite decide_False in H by discriminate.
  destruct (poll_unfinished self G w o l fid f Hw Ho Hl Hin Hf Hd)
    as (q & Hpoll & Hq).
  rewrite (bind_ok _ _ _ _ _ Hpoll) in H.
  eapply wait_loop_among_blocked; eauto.
Qed.

(** ** The legacy module: rotation at its edges, and the line format *)

(** X16.  [finishLog] does not look at the status of the copy.  When the
    copy fails, because the destination is the log file itself or because
    the log file is missing, the log file is emptied (or created empty)
    all the same, the call returns normally and no other file changes: in
    the first case the log's contents are lost. *)
Theorem finishLog_clears_after_failed_copy self p dst files :
  Legacy.log_file self = Some p ->
  Legacy.file_name p = true ->
  Legacy.file_name dst = true ->
  dst = p \/ files !! p = None ->
  Legacy.finishLog self dst files = Some (<[p := ""]> files, Ok tt).
Proof.
  intros Hlog Hp Hd Hfail. rewrite finishLog_eq by (by rewrite ?Hlog).
  rewrite Hlog. cbn [Legacy.str_of_path]. unfold Legacy.cp, Legacy.clear_logs.
  rewrite Hlog. destruct (files !! p) as [text|] eqn:E; [|done].
  destruct Hfail as [->|?]; [|done]. by rewrite decide_True.
Qed.

(** X17.  Without a log file, [finishLog] formats the missing path as the
    word [None]: the shell copies a file of that name to the destination
    if there is one, and then [clear_logs] raises [TypeError].  When no
    file is called [None], nothing changes. *)
Theorem finishLog_without_log_file self dst files :
  Legacy.log_file self = None ->
  Legacy.file_name dst = true ->
  Legacy.finishLog self dst files
  = Some (match files !! "None" with
          | Some text => if decide ("None" = dst) then files else <[dst := text]> files
          | None => files
          end,
          Raise (TypeError "expected str, bytes or os.PathLike object, not NoneType")).
Proof.
  intros Hlog Hd. rewrite finishLog_eq by (by rewrite ?Hlog).
  rewrite Hlog. cbn [Legacy.str_of_path]. unfold Legacy.cp, Legacy.clear_logs.
  rewrite Hlog. destruct (files !! "None") as [text|]; [|done].
  by destruct (decide ("None" = dst)).
Qed.

(** X18.  Two rotations.  Rotate to [d1], log one line, rotate to [d2]:
    [d1] holds what the log held at first, [d2] holds the one line with
    its line feed, the log file is empty, and files other than these
    three are as before. *)
Theorem two_rotations_split_the_log self p d1 d2 text ctx content tipo files :
  Legacy.log_file self = Some p ->
  Legacy.file_name p = true ->
  Legacy.file_name d1 = true ->
  Legacy.file_name d2 = true ->
  d1 <> p -> d2 <> p -> d1 <> d2 ->
  files !! p = Some text ->
  exists files1 files2 files3 line,
    Legacy.finishLog self d1 files = Some (files1, Ok tt)
    /\ Legacy.wlog self ctx content tipo true files1 [] = (files2, [line])
    /\ Legacy.finishLog self d2 files2 = Some (files3, Ok tt)
    /\ files3 !! d1 = Some text
    /\ files3 !! d2 = Some (line +:+ newline)
    /\ files3 !! p = Some ""
    /\ forall q, q <> d1 -> q <> d2 -> q <> p -> files3 !! q = files !! q.
Proof.
  intros Hlog Hp Hd1 Hd2 Hn1 Hn2 Hn12 Hfile.
  set (files1 := <[p := ""]> (<[d1 := text]> files)).
  assert (H1p : files1 !! p = Some "") by apply lookup_insert_eq.
  set (line := Legacy.log_line ctx content tipo).
  assert (Hw : Legacy.wlog self ctx content tipo true files1 []
               = (<[p := line +:+ newline]> files1, [line])).
  { unfold Legacy.wlog. rewrite Hlog, H1p. reflexivity. }
  assert (H2p : <[p := line +:+ newline]> files1 !! p = Some (line +:+ newline))
    by apply lookup_insert_eq.
  exists files1, (<[p := line +:+ newline]> files1),
    (<[p := ""]> (<[d2 := line +:+ newline]> (<[p := line +:+ newline]> files1))),
    line.
  split; [by apply finishLog_plain|]. split; [exact Hw|].
  split; [by apply finishLog_plain|].
  unfold files1.
  split.
  { rewrite lookup_insert_ne, lookup_insert_ne, lookup_insert_ne,
      lookup_insert_ne, lookup_insert_eq by done. done. }
  split; [by rewrite lookup_insert_ne, lookup_insert_eq|].
  split; [apply lookup_insert_eq|].
  intros q Hq1 Hq2 Hqp. by rewrite !lookup_insert_ne.
Qed.

Lemma basename_no_slash name : forall acc,
  no_slash name = true -> basename_go acc name = acc.
Proof.
  induction name as [|c name IH]; intros acc H; [reflexivity|].
  unfold no_slash in H. cbn [every_char] in H.
  apply andb_true_iff in H as [Hc Hn]. apply negb_true_iff in Hc.
  cbn [basename_go]. rewrite Hc. by apply IH.
Qed.

(** The base name of a path is what follows its last slash. *)
Lemma basename_of_path dir name :
  no_slash name = true -> basename (dir +:+ "/" +:+ name) = name.
Proof.
  intros Hn. unfold basename.
  generalize (dir +:+ "/" +:+ name) at 1. induction dir as [|c dir IH]; intros acc.
  - change ("" +:+ "/" +:+ name) with (String "/" name).
    cbn [basename_go]. rewrite Ascii.eqb_refl. by apply basename_no_slash.
  - change (String c dir +:+ "/" +:+ name) with (String c (dir +:+ "/" +:+ name)).
    cbn [basename_go]. destruct (Ascii.eqb c "/"); apply IH.
Qed.

(** X19.  The line format of the legacy logger.  A message at a level
    other than critical and time, logged from function [function] of the
    file [name] in directory [dir], is the timestamp, two spaces, the
    tag, the file's base name, the function name with parentheses and the
    message, in that order; it is printed, and appended with a line feed
    to the log file when there is one.  No other file changes. *)
Theorem legacy_line_names_file_and_function self now0 tid dir name function
    content tipo files out :
  no_slash name = true ->
  tipo <> "[critical]" -> tipo <> "[time]" ->
  let ctx := mkCtx now0 tid (dir +:+ "/" +:+ name) function in
  let line :=
    now0 +:+ "  " +:+ tipo +:+ " - " +:+ name +:+ " - " +:+ function
      +:+ "() - " +:+ content in
  Legacy.wlog self ctx content tipo true files out
  = (match Legacy.log_file self with
     | Some p => <[p := default "" (files !! p) +:+ line +:+ newline]> files
     | None => files
     end, out ++ [line]).
Proof.
  intros Hn Hc Ht ctx line. unfold Legacy.wlog.
  apply String.eqb_neq in Hc, Ht. rewrite Hc, Ht.
  cbn [caller_filename caller_function now native_id ctx].
  rewrite (basename_of_path dir name Hn). reflexivity.
Qed.

(** * The further properties at sample inputs *)

Lemma logged_line_is_read_back_witness :
  objs with_lines !! other = Some other0
  /\ log_file other0 = Some "i.log"
  /\ fs with_lines !! "i.log" = Some ("first" +:+ newline)
  /\ whole_lines ("first" +:+ newline)
  /\ no_line_break (log_line other0 ctx0 "hello" "[info]") = true
  /\ exists w' text',
       wlog other ctx0 "hello" "[info]" true with_lines = Some (w', Ok tt)
       /\ get_logs other with_lines
          = Some (with_lines, Ok (readlines_go "" ("first" +:+ newline)))
       /\ get_logs other w'
          = Some (w', Ok (readlines_go "" ("first" +:+ newline)
                            ++ [log_line other0 ctx0 "hello" "[info]" +:+ newline]))
       /\ fs w' !! "i.log" = Some text' /\ whole_lines text'.
Proof.
  assert (Hwhole : whole_lines ("first" +:+ newline))
    by (right; exists "first"; reflexivity).
  split; [vm_compute; reflexivity|]. split; [reflexivity|].
  split; [vm_compute; reflexivity|]. split; [exact Hwhole|].
  split; [vm_compute; reflexivity|].
  apply (logged_line_is_read_back other other0 "i.log" ("first" +:+ newline) ctx0
           "hello" "[info]" true with_lines).
  - vm_compute; reflexivity.
  - reflexivity.
  - vm_compute; reflexivity.
  - exact Hwhole.
  - vm_compute; reflexivity.
Defined.

Lemma cleared_log_reads_empty_witness :
  objs with_lines !! other = Some other0
  /\ log_file other0 = Some "i.log"
  /\ exists w',
       clear_logs other with_lines = Some (w', Ok tt)
       /\ get_logs other w' = Some (w', Ok [])
       /\ fs w' !! "i.log" = Some "".
Proof.
  split; [vm_compute; reflexivity|]. split; [reflexivity|].
  destruct (cleared_log_reads_empty other other0 "i.log" with_lines)
    as (w' & H1 & H2 & H3 & _).
  - vm_compute; reflexivity.
  - reflexivity.
  - exists w'. split; [exact H1|]. split; [exact H2|]. exact H3.
Defined.

Lemma no_log_file_configured_witness :
  a_log_file control_args = None
  /\ new control_args (host 8 ∅) = Some (loaded, Ok control)
  /\ get_logs control loaded
     = Some (loaded, Raise (Exception_ "No log file was defined"))
  /\ clear_logs control loaded
     = Some (loaded,
             Raise (TypeError "expected str, bytes or os.PathLike object, not NoneType")).
Proof.
  split; [reflexivity|]. split; [vm_compute; reflexivity|].
  destruct (no_log_file_configured control_args (host 8 ∅) loaded control ctx0
              "hello" "[info]" true) as (_ & H1 & H2 & _).
  - reflexivity.
  - vm_compute; reflexivity.
  - split; [exact H1 | exact H2].
Defined.

Lemma debug_follows_constructor_flag_witness :
  new other_args loaded = Some (with_other, Ok other)
  /\ exists o,
       objs with_other !! other = Some o
       /\ debug other ctx0 "hello" with_other
          = Some (if a_debug other_args
                  then emit other o ("[debug]" +:+ " - " +:+ "hello") true with_other
                  else with_other, Ok tt).
Proof.
  split; [vm_compute; reflexivity|].
  apply (debug_follows_constructor_flag other_args loaded with_other other ctx0
           "hello").
  vm_compute; reflexivity.
Defined.

Lemma timer_logs_after_normal_return_witness :
  objs loaded !! control = Some control0
  /\ timer control ctx0 "task" "0.0012" (Raise boom) loaded
     = Some (loaded, Raise boom)
  /\ timer control ctx0 "task" "0.0012" (Ok (VInt 4)) loaded
     = Some (emit control control0
               ("03/11/2026 10:00:00" +:+ "  [time] - " +:+ "task"
                  +:+ "() executed in " +:+ "0.0012" +:+ "s") true loaded,
             Ok (VInt 4)).
Proof.
  split; [vm_compute; reflexivity|]. split.
  - apply (timer_logs_after_normal_return control control0 ctx0 "task" "0.0012"
             (Raise boom) loaded).
    vm_compute; reflexivity.
  - apply (timer_logs_after_normal_return control control0 ctx0 "task" "0.0012"
             (Ok (VInt 4)) loaded).
    vm_compute; reflexivity.
Defined.

Lemma sinks_hold_lines_in_call_order_witness :
  objs with_lines !! other = Some other0
  /\ exists w',
       run (log_events other entries0) with_lines = Some w'
       /\ stdout w'
          = ["[info] - one"; "03/11/2026 10:00:01  [critical] - Thread 4243 - two"]
       /\ callback_calls w'
          = [(7%nat, "[info] - one");
             (7%nat, "03/11/2026 10:00:01  [critical] - Thread 4243 - two")].
Proof.
  split; [vm_compute; reflexivity|].
  destruct (sinks_hold_lines_in_call_order other entries0 with_lines other0)
    as (w' & Hrun & Hout & _ & _ & _ & Hcb & _).
  - vm_compute; reflexivity.
  - exists w'. split; [exact Hrun|]. split; [exact Hout | exact Hcb].
Defined.


Lemma reconfigure_replaces_state_witness :
  objs running !! control
  = Some (set_tasks {["default" := []; "g" := [0%nat]]} control0)
  /\ a_use_process_pool control_args = false
  /\ 0 < max_workers_of control_args (cpu_count running)
  /\ log_file_exists control_args running
  /\ exists w' o',
       reconfigure control control_args running = Some (w', Ok tt)
       /\ objs w' !! control = Some o'
       /\ tasks o' = {["default" := []]}
       /\ futures w' = futures running.
Proof.
  split; [vm_compute; reflexivity|]. split; [reflexivity|].
  split; [reflexivity|]. split; [exact I|].
  destruct (reconfigure_replaces_state_keeps_futures control control_args running
              (set_tasks {["default" := []; "g" := [0%nat]]} control0) ctx0
              (Ok VNone) "g")
    as (w' & o' & H1 & H2 & _ & _ & H3 & H4 & _).
  - vm_compute; reflexivity.
  - reflexivity.
  - reflexivity.
  - exact I.
  - exists w', o'. repeat (split; [assumption|]). exact H4.
Defined.

Lemma failed_reconfigure_witness :
  objs with_lines !! other = Some other0
  /\ max_workers_of zero_workers (cpu_count with_lines) <= 0
  /\ log_file_exists zero_workers with_lines
  /\ exists w' o',
       reconfigure other zero_workers with_lines
       = Some (w', Raise (ValueError "max_workers must be greater than 0"))
       /\ objs w' !! other = Some o'
       /\ ex_shutdown (executor o') = true
       /\ fs w' = fs with_lines
       /\ submit other ctx0 (Ok VNone) "g" w'
          = Some (w', Raise (RuntimeError "cannot schedule new futures after shutdown")).
Proof.
  assert (Hlog : log_file_exists zero_workers with_lines).
  { exists ("first" +:+ newline). vm_compute. reflexivity. }
  split; [vm_compute; reflexivity|]. split; [vm_compute; discriminate|].
  split; [exact Hlog|].
  destruct (failed_reconfigure_leaves_pool_shut other zero_workers with_lines other0
              ctx0 (Ok VNone) "g")
    as (w' & o' & H1 & H2 & _ & H3 & _ & H4 & H5).
  - vm_compute; reflexivity.
  - vm_compute; discriminate.
  - exact Hlog.
  - exists w', o'. split; [exact H1|]. split; [exact H2|].
    split; [by rewrite H3|]. split; [exact H4 | exact H5].
Defined.

Lemma constructor_keeps_existing_log_witness :
  a_log_file other_args = Some "i.log"
  /\ fs with_lines !! "i.log" = Some ("first" +:+ newline)
  /\ exists w' r,
       new other_args with_lines = Some (w', r)
       /\ fs w' !! "i.log" = Some ("first" +:+ newline).
Proof.
  split; [reflexivity|]. split; [vm_compute; reflexivity|].
  destruct (constructor_keeps_existing_log other_args with_lines "i.log"
              ("first" +:+ newline))
    as (w' & r & H1 & H2 & _).
  - reflexivity.
  - vm_compute; reflexivity.
  - exists w', r. split; [exact H1 | exact H2].
Defined.

Lemma running_is_reached :
  run [Construct control_args; Call control (OpSubmit ctx0 (Raise boom) "g");
       Env (WorkerStarts 0)] (host 8 ∅)
  = Some running.
Proof. vm_compute. reflexivity. Qed.

Lemma two_pending_is_reached :
  run [Construct control_args; Call control (OpSubmit ctx0 (Ok (VInt 4)) "g");
       Call control (OpSubmit ctx0 (Raise boom) "g")] (host 8 ∅)
  = Some two_pending.
Proof. vm_compute. reflexivity. Qed.

Lemma get_queue_is_snapshot_witness :
  run [Construct control_args; Call control (OpSubmit ctx0 (Raise boom) "g");
       Env (WorkerStarts 0)] (host 8 ∅)
  = Some running
  /\ objs running !! control
     = Some (set_tasks {["default" := []; "g" := [0%nat]]} control0)
  /\ tasks (set_tasks {["default" := []; "g" := [0%nat]]} control0) !! "g"
     = Some [0%nat]
  /\ exists q,
       get_queue control "g" running = Some (running, Ok q)
       /\ length q = length [0%nat].
Proof.
  split; [vm_compute; reflexivity|]. split; [vm_compute; reflexivity|].
  split; [vm_compute; reflexivity|].
  destruct (get_queue_is_snapshot_in_order 8 ∅
              [Construct control_args; Call control (OpSubmit ctx0 (Raise boom) "g");
               Env (WorkerStarts 0)]
              running control
              (set_tasks {["default" := []; "g" := [0%nat]]} control0) "g" [0%nat])
    as (q & H1 & H2 & _).
  - vm_compute; reflexivity.
  - vm_compute; reflexivity.
  - vm_compute; reflexivity.
  - exists q. split; [exact H1 | exact H2].
Defined.



Lemma get_queue_flags_witness :
  Forall (not_reconfigure_of control) history1
  /\ exists w',
       run history1 two_pending = Some w'
       /\ get_queue control "g" two_pending = Some (two_pending, Ok [false; false])
       /\ get_queue control "g" w' = Some (w', Ok [true; false])
       /\ (length [false; false] <= length [true; false])%nat
       /\ forall k, [false; false] !! k = Some true -> [true; false] !! k = Some true.
Proof.
  assert (Hall : Forall (not_reconfigure_of control) history1)
    by (repeat constructor).
  split; [exact Hall|].
  destruct (run history1 two_pending) as [w'|] eqn:E; [|vm_compute in E; discriminate].
  assert (Hq' : get_queue control "g" w' = Some (w', Ok [true; false])).
  { vm_compute in E. injection E as <-. vm_compute. reflexivity. }
  exists w'. split; [reflexivity|]. split; [vm_compute; reflexivity|].
  split; [exact Hq'|].
  apply (get_queue_flags_never_go_back control "g" history1 two_pending w'
           [false; false] [true; false]).
  - exact Hall.
  - exact E.
  - vm_compute; reflexivity.
  - exact Hq'.
Defined.

Lemma sched3_never_ends : Forall (Forall (never_ends 1)) sched3.
Proof. repeat constructor. simpl. discriminate. Qed.

Lemma sched3_no_reconfigure : no_reconfigure_of control sched3.
Proof. repeat constructor. simpl. discriminate. Qed.

Lemma wait_blocks_witness :
  handles_exist two_pending
  /\ objs two_pending !! control
     = Some (set_tasks {["default" := []; "g" := [0%nat; 1%nat]]} control0)
  /\ futures two_pending !! 1%nat
     = Some (mkFuture (Raise boom) false PENDING None None [worker_callbacks_fn])
  /\ no_reconfigure_of control sched3
  /\ Forall (Forall (never_ends 1)) sched3
  /\ exists w',
       wait_among control "g" sched3 two_pending = Some (w', Ok StillWaiting)
       /\ slept_ms w' = slept_ms two_pending + 50 * Z.of_nat (length sched3).
Proof.
  assert (Hw : handles_exist two_pending).
  { exact (handles_exist_run _ _ _ (handles_exist_host 8 ∅) two_pending_is_reached). }
  split; [exact Hw|]. split; [vm_compute; reflexivity|].
  split; [reflexivity|]. split; [exact sched3_no_reconfigure|].
  split; [exact sched3_never_ends|].
  destruct (wait_among control "g" sched3 two_pending) as [[w' r]|] eqn:E;
    [|vm_compute in E; discriminate].
  destruct (wait_blocks_while_handle_unfinished control "g" sched3 two_pending
              (set_tasks {["default" := []; "g" := [0%nat; 1%nat]]} control0)
              [0%nat; 1%nat] 1%nat
              (mkFuture (Raise boom) false PENDING None None [worker_callbacks_fn])
              w' r) as [Hr Hs].
  - exact Hw.
  - vm_compute; reflexivity.
  - vm_compute; reflexivity.
  - repeat constructor.
  - reflexivity.
  - reflexivity.
  - exact sched3_no_reconfigure.
  - exact sched3_never_ends.
  - exact E.
  - exists w'. subst r. split; [reflexivity | exact Hs].
Defined.

Lemma finishLog_failed_copy_witness :
  Legacy.log_file Legacy.sample = Some "run.log"
  /\ Legacy.file_name "run.log" = true
  /\ ("run.log" = "run.log" \/
      ({["run.log" := "line 1"]} : gmap string string) !! "run.log" = None)
  /\ Legacy.finishLog Legacy.sample "run.log" {["run.log" := "line 1"]}
     = Some (<["run.log" := ""]> {["run.log" := "line 1"]}, Ok tt).
Proof.
  split; [reflexivity|]. split; [reflexivity|]. split; [left; reflexivity|].
  apply (finishLog_clears_after_failed_copy Legacy.sample "run.log" "run.log").
  - reflexivity.
  - reflexivity.
  - reflexivity.
  - left; reflexivity.
Defined.

Lemma finishLog_without_log_file_witness :
  Legacy.log_file Legacy.sample_no_log = None
  /\ Legacy.file_name "day1.log" = true
  /\ Legacy.finishLog Legacy.sample_no_log "day1.log" {["None" := "stray"]}
     = Some (match ({["None" := "stray"]} : gmap string string) !! "None" with
             | Some text =>
                 if decide ("None" = "day1.log") then {["None" := "stray"]}
                 else <["day1.log" := text]> {["None" := "stray"]}
             | None => {["None" := "stray"]}
             end,
             Raise (TypeError "expected str, bytes or os.PathLike object, not NoneType")).
Proof.
  split; [reflexivity|]. split; [reflexivity|].
  apply (finishLog_without_log_file Legacy.sample_no_log "day1.log").
  - reflexivity.
  - reflexivity.
Defined.

Lemma two_rotations_witness :
  Legacy.log_file Legacy.sample = Some "run.log"
  /\ Legacy.file_name "run.log" = true
  /\ Legacy.file_name "day1.log" = true
  /\ Legacy.file_name "day2.log" = true
  /\ "day1.log" <> "run.log" /\ "day2.log" <> "run.log" /\ "day1.log" <> "day2.log"
  /\ ({["run.log" := "line 1"]} : gmap string string) !! "run.log" = Some "line 1"
  /\ exists files1 files2 files3 line,
       Legacy.finishLog Legacy.sample "day1.log" {["run.log" := "line 1"]}
       = Some (files1, Ok tt)
       /\ Legacy.wlog Legacy.sample ctx0 "hello" "[info]" true files1 []
          = (files2, [line])
       /\ Legacy.finishLog Legacy.sample "day2.log" files2 = Some (files3, Ok tt)
       /\ files3 !! "day1.log" = Some "line 1"
       /\ files3 !! "day2.log" = Some (line +:+ newline)
       /\ files3 !! "run.log" = Some "".
Proof.
  split; [reflexivity|]. split; [reflexivity|]. split; [reflexivity|].
  split; [reflexivity|]. split; [discriminate|]. split; [discriminate|].
  split; [discriminate|]. split; [vm_compute; reflexivity|].
  destruct (two_rotations_split_the_log Legacy.sample "run.log" "day1.log"
              "day2.log" "line 1" ctx0 "hello" "[info]" {["run.log" := "line 1"]})
    as (files1 & files2 & files3 & line & H1 & H2 & H3 & H4 & H5 & H6 & _).
  - reflexivity.
  - reflexivity.
  - reflexivity.
  - reflexivity.
  - discriminate.
  - discriminate.
  - discriminate.
  - vm_compute; reflexivity.
  - exists files1, files2, files3, line. repeat (split; [assumption|]). exact H6.
Defined.

Lemma legacy_line_witness :
  no_slash "bar.py" = true
  /\ "[info]" <> "[critical]" /\ "[info]" <> "[time]"
  /\ Legacy.wlog Legacy.sample
       (mkCtx "03/11/2026 10:00:00" 4242 ("/srv/app" +:+ "/" +:+ "bar.py") "foo")
       "hello" "[info]" true ∅ []
     = (<["run.log" := "03/11/2026 10:00:00  [info] - bar.py - foo() - hello"
                         +:+ newline]> ∅,
        ["03/11/2026 10:00:00  [info] - bar.py - foo() - hello"]).
Proof.
  split; [reflexivity|]. split; [discriminate|]. split; [discriminate|].
  pose proof (legacy_line_names_file_and_function Legacy.sample
                "03/11/2026 10:00:00" 4242 "/srv/app" "bar.py" "foo" "hello"
                "[info]" ∅ [] eq_refl ltac:(discriminate) ltac:(discriminate)) as H.
  vm_compute in H. vm_compute. exact H.
Defined.
